(** * Session pool / admission / lifecycle manager of the WhatsApp gateway

    Shallow embedding of the four server variants of the repository
    ([main2.js] in [Main2] and the three unnamed sources in [Part000],
    [Part001] and [Part002]), followed by the properties of the session
    registry [activeClients] that the specification states.

    Modelling conventions.
    - [Date.now()] is the parameter [now : Z] of each handler.
    - A JavaScript [Map] keyed by strings is an association list in
      insertion order ([Map.prototype.set] keeps the position of a key that
      is already present; iteration follows the list).
    - [clientState] objects are shared between the registry and the closures
      of the driver's event handlers, so they live in a store ([heap]) and
      the registry holds references (indices).  The reference doubles as the
      identity of the driver handle ([client]) created with the object.
    - Results of the external collaborators (driver, filesystem) are read
      from an oracle record; a handler is one run-to-completion segment
      between two waits on a [readyPromise]. *)

From Stdlib Require Import ZArith String Ascii List Bool Lia.
From stdpp Require Import base option list.
Import ListNotations.
Local Open Scope string_scope.
Local Open Scope Z_scope.

(** ** Values shared by the four variants *)

(** The strings assigned to [clientState.status]. *)
Inductive Status :=
| initializing | resuming | pending | authenticated | ready | disconnected
| error.

Definition Status_eqb (a b : Status) : bool :=
  match a, b with
  | initializing, initializing | resuming, resuming | pending, pending
  | authenticated, authenticated | ready, ready
  | disconnected, disconnected | error, error => true
  | _, _ => false
  end.

(** Errors thrown or rejected with. *)
Inductive Error :=
| ErrDriverCreate        (* [new Client] or the session directory failed *)
| ErrDriverInitialize    (* [client.initialize()] rejected *)
| ErrDriverDestroy       (* [client.destroy()] rejected *)
| ErrSendMessage         (* [client.sendMessage()] rejected *)
| ErrTimeout             (* 'Client initialization timeout' *)
| ErrNotReady            (* 'Client not ready' *)
| ErrNoInstance          (* 'No available client instances' *)
| ErrType                (* TypeError: [number.includes] on undefined *)
| ErrFs.                 (* a filesystem call threw *)

(** Settlement state of a promise. *)
Inductive Promise := Pending | Resolved | Rejected (e : Error).

Definition settle (outcome p : Promise) : Promise :=
  match p with Pending => outcome | _ => p end.

(** The object built in [initializeClient], together with what its closure
    captures: [owner] is the [uid] of the call, [destroyed] records a
    completed [client.destroy()], [initTimeout] an armed initialization
    timer.  [readyPromise] is [None] where the source object has none. *)
Record clientState := mkClient {
  owner : string;
  status : Status;
  qrCode : option string;
  lastActivity : Z;
  readyPromise : option Promise;
  destroyed : bool;
  initTimeout : bool
}.

Definition set_status (s : Status) (c : clientState) :=
  mkClient (owner c) s (qrCode c) (lastActivity c) (readyPromise c)
           (destroyed c) (initTimeout c).
Definition set_qrCode (q : option string) (c : clientState) :=
  mkClient (owner c) (status c) q (lastActivity c) (readyPromise c)
           (destroyed c) (initTimeout c).
Definition set_lastActivity (t : Z) (c : clientState) :=
  mkClient (owner c) (status c) (qrCode c) t (readyPromise c)
           (destroyed c) (initTimeout c).
Definition settle_ready (outcome : Promise) (c : clientState) :=
  mkClient (owner c) (status c) (qrCode c) (lastActivity c)
           (settle outcome <$> readyPromise c) (destroyed c) (initTimeout c).
Definition set_destroyed (c : clientState) :=
  mkClient (owner c) (status c) (qrCode c) (lastActivity c) (readyPromise c)
           true (initTimeout c).
Definition clearTimeout (c : clientState) :=
  mkClient (owner c) (status c) (qrCode c) (lastActivity c) (readyPromise c)
           (destroyed c) false.

(** [o?.status === st] on an object that may be missing. *)
Definition status_is (st : Status) (o : option clientState) : bool :=
  match o with
  | Some c => Status_eqb (status c) st
  | None => false
  end.

(** What an [async] function hands back: a [clientState] (the promise is
    already resolved with it), the [readyPromise] of a record, or the
    promise of a queue entry. *)
Inductive Handle :=
| HState (id : nat)
| HReady (id : nat)
| HQueued (q : nat).

Inductive Result := Ret (h : Handle) | Throw (e : Error).

(** HTTP answers of the routes. *)
Inductive Response :=
| Unauthorized                                   (* 401 *)
| InitOk (s : Status) (qr : option string)       (* 200 {status, qrCode} *)
| InitFailed (e : Error)                         (* 500 *)
| SendOk                                         (* 200 *)
| SendFailed (e : Error)                         (* 500 *)
| SendNotReady                                   (* 400, third source *)
| SendBadRequest                                 (* 400, third source *)
| PreserveOk | PreserveNoClient
| DisconnectOk                                   (* 200 {status:'disconnected'} *)
| DisconnectFailed (e : Error).                  (* 500 *)

Definition code (r : Response) : nat :=
  match r with
  | Unauthorized => 401
  | InitOk _ _ | SendOk | PreserveOk | DisconnectOk => 200
  | InitFailed _ | SendFailed _ | DisconnectFailed _ => 500
  | SendNotReady | SendBadRequest | PreserveNoClient => 400
  end%nat.

(** A route either answers or is suspended on a promise; [NoFuel] stands
    for a recursion bound of the model being reached. *)
Inductive Outcome := Done (r : Response) | Awaiting (h : Handle) | NoFuel.

(** ** JavaScript [Map] with string keys *)

Section JsMap.
Context {V : Type}.

Fixpoint map_get (k : string) (m : list (string * V)) : option V :=
  match m with
  | [] => None
  | (k', v) :: m' => if String.eqb k' k then Some v else map_get k m'
  end.

Fixpoint map_set (k : string) (v : V) (m : list (string * V)) :=
  match m with
  | [] => [(k, v)]
  | (k', v') :: m' =>
      if String.eqb k' k then (k, v) :: m' else (k', v') :: map_set k v m'
  end.

Definition map_delete (k : string) (m : list (string * V)) :=
  List.filter (fun e => negb (String.eqb (fst e) k)) m.
End JsMap.

(** ** The authorization middleware

    [authMiddleware] is the same text in the four sources:
    [uid = req.headers.authorization?.split(' ')[1]; if (!uid) 401]. *)

(** [String.prototype.split] on a one-character separator. *)
Fixpoint split (sep : ascii) (s : string) : list string :=
  match s with
  | EmptyString => [EmptyString]
  | String c s' =>
      if Ascii.eqb c sep then EmptyString :: split sep s'
      else match split sep s' with
           | w :: ws => String c w :: ws
           | [] => [String c EmptyString]
           end
  end.

(** The [uid] the middleware stores in [req.uid]; [None] when it answers
    401 (the header is absent, or the second field is absent or empty). *)
Definition authMiddleware (authorization : option string) : option string :=
  match authorization with
  | None => None
  | Some h =>
      match split " " h !! 1%nat with
      | Some EmptyString => None
      | Some uid => Some uid
      | None => None
      end
  end.

(** ** The chat identifier of /send-message

    [number.includes('@c.us') ? number : `${number}@c.us`], the same
    line in the four sources. *)

(** [String.prototype.includes]. *)
Fixpoint includes (pat s : string) : bool :=
  String.prefix pat s
  || match s with
     | EmptyString => false
     | String _ s' => includes pat s'
     end.

Definition chatId (number : string) : string :=
  if includes "@c.us" number then number else number ++ "@c.us".

Definition MAX_INSTANCES : nat := 2.
Definition INACTIVITY_TIMEOUT : Z := 300000.

(** What the outside world answers to the calls a handler makes.  Driver
    calls are indexed by the handle they are made on. *)
Record Oracle := mkOracle {
  create_throws : string -> nat -> bool;
      (* [new Client(...)] throws, per [uid] and attempt number *)
  initialize_throws : nat -> bool;        (* [client.initialize()] rejects *)
  destroy_throws : nat -> bool;           (* [client.destroy()] rejects *)
  sendMessage_throws : nat -> bool;       (* [client.sendMessage()] rejects *)
  page_ok : nat -> bool;
      (* [client.pupPage] yields a page whose cookies and localStorage can
         be read *)
  fs_throws : string -> bool
      (* a filesystem call on the session files of [uid] throws *)
}.

(** A driver and filesystem that never fail. *)
Definition calm : Oracle :=
  mkOracle (fun _ _ => false) (fun _ => false) (fun _ => false)
           (fun _ => false) (fun _ => true) (fun _ => false).

(** ** [main2.js]: fixed pool with a FIFO connection queue *)

Module Main2.

Record state := mkState {
  heap : list clientState;
  activeClients : list (string * nat);
  CONNECTION_QUEUE : list (string * nat);  (* uid, promise of the entry *)
  promises : nat;                          (* queue promises handed out *)
  isProcessingQueue : bool;
  sessionStore : list (string * Z)         (* uid -> lastAccess *)
}.

Definition initial : state := mkState [] [] [] 0 false [].

Definition with_heap (h : list clientState) (s : state) :=
  mkState h (activeClients s) (CONNECTION_QUEUE s) (promises s)
          (isProcessingQueue s) (sessionStore s).
Definition with_active (a : list (string * nat)) (s : state) :=
  mkState (heap s) a (CONNECTION_QUEUE s) (promises s)
          (isProcessingQueue s) (sessionStore s).
Definition with_queue (q : list (string * nat)) (s : state) :=
  mkState (heap s) (activeClients s) q (promises s)
          (isProcessingQueue s) (sessionStore s).
Definition with_processing (b : bool) (s : state) :=
  mkState (heap s) (activeClients s) (CONNECTION_QUEUE s) (promises s)
          b (sessionStore s).
Definition with_store (m : list (string * Z)) (s : state) :=
  mkState (heap s) (activeClients s) (CONNECTION_QUEUE s) (promises s)
          (isProcessingQueue s) m.

Definition update (id : nat) (f : clientState -> clientState) (s : state) :=
  with_heap (alter f id (heap s)) s.

(** [activeClients.get(uid)] followed by the dereference of the object. *)
Definition lookup (uid : string) (s : state) : option (nat * clientState) :=
  match map_get uid (activeClients s) with
  | Some id => match heap s !! id with
               | Some c => Some (id, c)
               | None => None
               end
  | None => None
  end.

(** The client objects built so far whose [destroy] has not completed,
    registered or not: a record replaced in the registry keeps its
    client. *)
Definition liveHandles (s : state) : list clientState :=
  List.filter (fun c => negb (destroyed c)) (heap s).

(** Effects a queue pass has on things outside the state: the promises of
    queue entries it settles and the teardowns it starts. *)
Inductive Effect :=
| Resolve (q : nat) (id : nat)
| Reject (q : nat) (e : Error)
| Evict (uid : string).

Section Handlers.
Variable W : Oracle.
Variable now : Z.

(** [preserveSession]: every failure is caught and answered [false]. *)
Definition preserveSession (uid : string) (id : nat) (s : state) : state :=
  if page_ok W id then with_store (map_set uid now (sessionStore s)) s
  else s.

Definition cleanupSession (uid : string) (s : state) : state :=
  match map_get uid (activeClients s) with
  | Some id =>
      let s1 := if status_is ready (heap s !! id)
                   || status_is authenticated (heap s !! id)
                then preserveSession uid id s else s in
      let s2 := if destroy_throws W id then s1
                else update id set_destroyed s1 in
      with_active (map_delete uid (activeClients s2)) s2
  | None => s
  end.

(** [initializeClient], split at [await fs.ensureDir]: the part before
    it decides, the part after it builds the client and registers it. *)
Inductive Admission := Reuse (id : nat) | Enqueue | Proceed.

Definition initializeClient_check (uid : string) (s : state) : Admission :=
  let capacity :=
    if (MAX_INSTANCES <=? length (activeClients s))%nat then Enqueue
    else Proceed in
  match lookup uid s with
  | Some (id, c) => if Status_eqb (status c) ready then Reuse id else capacity
  | None => capacity
  end.

Definition initializeClient_create (uid : string) (s : state)
  : Result * state :=
  if fs_throws W uid then (Throw ErrFs, s)
  else if create_throws W uid 0 then (Throw ErrDriverCreate, s)
  else
    let id := length (heap s) in
    let c := mkClient uid initializing None now (Some Pending) false true in
    let s1 := with_active (map_set uid id (activeClients s))
                (with_heap (heap s ++ [c]) s) in
    if initialize_throws W id then (Throw ErrDriverInitialize, s1)
    else (Ret (HReady id), s1).

Definition initializeClient (uid : string) (s : state) : Result * state :=
  match initializeClient_check uid s with
  | Reuse id => (Ret (HState id), update id (set_lastActivity now) s)
  | Enqueue =>
      (Ret (HQueued (promises s)),
       mkState (heap s) (activeClients s)
               (CONNECTION_QUEUE s ++ [(uid, promises s)])
               (S (promises s)) (isProcessingQueue s) (sessionStore s))
  | Proceed => initializeClient_create uid s
  end.

(** [await h]: the value or the error once the promise is settled. *)
Definition await (h : Handle) (s : state) : option (nat + Error) :=
  match h with
  | HState id => Some (inl id)
  | HReady id =>
      match heap s !! id with
      | Some c => match readyPromise c with
                  | Some Resolved => Some (inl id)
                  | Some (Rejected e) => Some (inr e)
                  | _ => None
                  end
      | None => None
      end
  | HQueued _ => None
  end.

(** *** Driver events and the initialization timer of the record [id] *)

Definition on_qr (id : nat) (dataUrl : option string) (s : state) :=
  match dataUrl with
  | Some u => update id (fun c => set_status pending (set_qrCode (Some u) c)) s
  | None => s                       (* [QRCode.toDataURL] rejected *)
  end.

Definition on_authenticated (id : nat) (s : state) :=
  match heap s !! id with
  | Some c =>
      preserveSession (owner c) id
        (update id (fun c => set_qrCode None (set_status authenticated c)) s)
  | None => s
  end.

Definition on_ready (id : nat) (s : state) :=
  update id (fun c => settle_ready Resolved
                        (set_lastActivity now
                           (set_status ready (clearTimeout c)))) s.

Definition on_disconnected (id : nat) (s : state) :=
  match heap s !! id with
  | Some c =>
      cleanupSession (owner c)
        (preserveSession (owner c) id (update id (set_status disconnected) s))
  | None => s
  end.

Definition on_initTimeout (id : nat) (s : state) :=
  match heap s !! id with
  | Some c =>
      if initTimeout c then
        cleanupSession (owner c)
          (update id (fun c => settle_ready (Rejected ErrTimeout)
                                 (clearTimeout c)) s)
      else s
  | None => s
  end.

(** *** Routes (after [authMiddleware] has stored [uid]) *)

(** [/send-message] once [await initializeClient(uid)] has produced the
    object [v] or thrown. *)
Definition send_resume (uid : string) (v : nat + Error) (s : state)
  : Response * state :=
  match v with
  | inl id =>
      match heap s !! id with
      | Some c =>
          if Status_eqb (status c) ready then
            if sendMessage_throws W id
            then (SendFailed ErrSendMessage, cleanupSession uid s)
            else (SendOk,
                  preserveSession uid id
                    (update id (set_lastActivity now) s))
          else (SendFailed ErrNotReady, cleanupSession uid s)
      | None => (SendFailed ErrNotReady, cleanupSession uid s)
      end
  | inr e => (SendFailed e, cleanupSession uid s)
  end.

Definition send_message (uid : string) (number message : option string)
    (s : state) : Outcome * state :=
  match number with
  | None => (Done (SendFailed ErrType), cleanupSession uid s)
  | Some _ =>
      match initializeClient uid s with
      | (Throw e, s1) =>
          let (r, s2) := send_resume uid (inr e) s1 in (Done r, s2)
      | (Ret h, s1) =>
          match await h s1 with
          | Some v => let (r, s2) := send_resume uid v s1 in (Done r, s2)
          | None => (Awaiting h, s1)
          end
      end
  end.

Definition init_resume (v : nat + Error) (s : state) : Response :=
  match v with
  | inl id => match heap s !! id with
              | Some c => InitOk (status c) (qrCode c)
              | None => InitFailed ErrType
              end
  | inr e => InitFailed e
  end.

Definition init (uid : string) (s : state) : Outcome * state :=
  let start :=
    match initializeClient uid s with
    | (Throw e, s1) => (Done (InitFailed e), s1)
    | (Ret h, s1) =>
        match await h s1 with
        | Some v => (Done (init_resume v s1), s1)
        | None => (Awaiting h, s1)
        end
    end in
  match lookup uid s with
  | Some (id, c) =>
      if Status_eqb (status c) disconnected then start
      else (Done (InitOk (status c) (qrCode c)), s)
  | None => start
  end.

Definition disconnect (uid : string) (s : state) : Response * state :=
  match map_get uid (activeClients s) with
  | Some id =>
      if destroy_throws W id then (DisconnectFailed ErrDriverDestroy, s)
      else (DisconnectOk, cleanupSession uid (update id set_destroyed s))
  | None => (DisconnectOk, s)
  end.

Definition preserve_session (uid : string) (s : state) : Response * state :=
  match lookup uid s with
  | Some (id, c) =>
      if Status_eqb (status c) ready
      then (PreserveOk, preserveSession uid id s)
      else (PreserveNoClient, s)
  | None => (PreserveNoClient, s)
  end.

(** *** Timers and signals *)

(** The inactivity interval: one pass over [activeClients.entries()]. *)
Definition sweep_entry (s : state) (e : string * nat) : state :=
  match heap s !! snd e with
  | Some c => if now - lastActivity c >? INACTIVITY_TIMEOUT
              then cleanupSession (fst e) s else s
  | None => s
  end.

Definition sweep (s : state) : state :=
  fold_left sweep_entry (activeClients s) s.

(** SIGTERM and uncaughtException. *)
Definition shutdown (s : state) : state :=
  fold_left (fun s e => cleanupSession (fst e) s) (activeClients s) s.

(** *** The connection queue *)

(** The [for] loop of [processQueue] looking for a client to recycle. *)
Definition older_ready (s : state) (acc : option string * Z)
    (e : string * nat) : option string * Z :=
  match heap s !! snd e with
  | Some c => if (lastActivity c <? snd acc) && Status_eqb (status c) ready
              then (Some (fst e), lastActivity c) else acc
  | None => acc
  end.

Definition oldest_ready (s : state) : option string * Z :=
  fold_left (older_ready s) (activeClients s) (None, now).

(** The recycling decision: the uid handed to [cleanupSession], if any. *)
Definition recyclable (s : state) : option string :=
  match oldest_ready s with
  | (Some uid, oldestTime) =>
      if negb (String.eqb uid "") && (now - oldestTime >? INACTIVITY_TIMEOUT)
      then Some uid else None
  | (None, _) => None
  end.

(** The capacity test at the top of the loop body; [None] is [break]. *)
Definition make_room (s : state) : option (list Effect * state) :=
  if (MAX_INSTANCES <=? length (activeClients s))%nat then
    match recyclable s with
    | Some old => Some ([Evict old], cleanupSession old s)
    | None => None
    end
  else Some ([], s).

Inductive LoopEnd := Finished | Suspended (h : Handle) (q : nat) | OutOfFuel.

(** The [while] loop, from its test.  Leaving the loop runs the
    [finally] block; a pass suspended in [await initializeClient(uid)]
    keeps [isProcessingQueue] set. *)
Fixpoint processQueue_loop (fuel : nat) (s : state)
  : list Effect * state * LoopEnd :=
  match fuel with
  | O => ([], s, OutOfFuel)
  | S fuel' =>
      match CONNECTION_QUEUE s with
      | [] => ([], with_processing false s, Finished)
      | (uid, q) :: rest =>
          match make_room s with
          | None => ([], with_processing false s, Finished)
          | Some (evs, s1) =>
              let (r, s2) := initializeClient uid (with_queue rest s1) in
              let continue (ev : Effect) :=
                let '(evs', s3, e) := processQueue_loop fuel' s2 in
                ((evs ++ ev :: evs')%list, s3, e) in
              match r with
              | Throw e => continue (Reject q e)
              | Ret h =>
                  match await h s2 with
                  | Some (inl id) => continue (Resolve q id)
                  | Some (inr e) => continue (Reject q e)
                  | None => (evs, s2, Suspended h q)
                  end
              end
          end
      end
  end.

Definition processQueue (s : state) : list Effect * state * LoopEnd :=
  if isProcessingQueue s || (length (CONNECTION_QUEUE s) =? 0)%nat
  then ([], s, Finished)
  else processQueue_loop (S (length (CONNECTION_QUEUE s)))
                         (with_processing true s).

(** The pass continues when the promise it awaits settles with [v]. *)
Definition processQueue_resume (q : nat) (v : nat + Error) (s : state)
  : list Effect * state * LoopEnd :=
  let ev := match v with inl id => Resolve q id | inr e => Reject q e end in
  let '(evs, s1, e) :=
    processQueue_loop (S (length (CONNECTION_QUEUE s))) s in
  (ev :: evs, s1, e).
End Handlers.

(** *** Runs of the server *)

Inductive Op :=
| ReqInit (authorization : option string)
| ReqSend (authorization : option string) (number message : option string)
| ReqDisconnect (authorization : option string)
| ReqPreserve (authorization : option string)
| ResumeSend (uid : string) (v : nat + Error)
| EvQr (id : nat) (dataUrl : option string)
| EvAuthenticated (id : nat)
| EvReady (id : nat)
| EvDisconnected (id : nat)
| EvInitTimeout (id : nat)
| TickQueue
| ResumeQueue (q : nat) (v : nat + Error)
| TickSweep
| Shutdown.

(** A request goes through [authMiddleware] first. *)
Definition guarded {A} (authorization : option string)
    (h : string -> state -> A * state) (deny : A) (s : state) : A * state :=
  match authMiddleware authorization with
  | Some uid => h uid s
  | None => (deny, s)
  end.

Definition route_init W now a :=
  guarded a (init W now) (Done Unauthorized).
Definition route_send W now a number message :=
  guarded a (fun uid => send_message W now uid number message)
          (Done Unauthorized).
Definition route_disconnect W now a :=
  guarded a (disconnect W now) Unauthorized.
Definition route_preserve W now a :=
  guarded a (preserve_session W now) Unauthorized.

Definition step (W : Oracle) (now : Z) (op : Op) (s : state) : state :=
  match op with
  | ReqInit a => snd (route_init W now a s)
  | ReqSend a n m => snd (route_send W now a n m s)
  | ReqDisconnect a => snd (route_disconnect W now a s)
  | ReqPreserve a => snd (route_preserve W now a s)
  | ResumeSend uid v => snd (send_resume W now uid v s)
  | EvQr id u => on_qr id u s
  | EvAuthenticated id => on_authenticated W now id s
  | EvReady id => on_ready now id s
  | EvDisconnected id => on_disconnected W now id s
  | EvInitTimeout id => on_initTimeout W now id s
  | TickQueue => snd (fst (processQueue W now s))
  | ResumeQueue q v => snd (fst (processQueue_resume W now q v s))
  | TickSweep => sweep W now s
  | Shutdown => shutdown W now s
  end.

(** A run: each operation with the time it happens at and the answers of
    the outside world during it. *)
Definition run (tr : list (Oracle * Z * Op)) (s : state) : state :=
  fold_left (fun s '(W, now, op) => step W now op s) tr s.

(** *** Runs with [initializeClient] suspended at [await fs.ensureDir]

    Between its capacity test and [activeClients.set], [initializeClient]
    awaits [fs.ensureDir], and other handlers run meanwhile.
    [Enter uid] is a call [initializeClient(uid)], whoever makes it, up to
    that await (to its end when it returns the READY record or queues the
    tenant); [Continue uid] is the continuation of such a call up to
    [await client.initialize()].  [QueueStart] is [processQueue] from its
    start, [QueueNext] its loop from the test once the promise it awaited
    has settled, each up to the call [initializeClient(uid)] for the entry
    it shifts.  [Atomic op] is a handler of [step]: the calls of
    [initializeClient] it makes are continued at once.
    The state carries the calls that are past the capacity test and not
    yet continued. *)
Inductive Event :=
| Atomic (op : Op)
| Enter (uid : string)
| Continue (uid : string)
| QueueStart
| QueueNext.

Fixpoint remove_first (uid : string) (l : list string)
  : option (list string) :=
  match l with
  | [] => None
  | u :: l' => if String.eqb u uid then Some l'
               else cons u <$> remove_first uid l'
  end.

Definition enter_call (W : Oracle) (now : Z) (uid : string)
    (st : state * list string) : state * list string :=
  match initializeClient_check uid (fst st) with
  | Proceed => (fst st, (snd st ++ [uid])%list)
  | _ => (snd (initializeClient W now uid (fst st)), snd st)
  end.

Definition continue_call (W : Oracle) (now : Z) (uid : string)
    (st : state * list string) : state * list string :=
  match remove_first uid (snd st) with
  | Some rest => (snd (initializeClient_create W now uid (fst st)), rest)
  | None => st
  end.

(** One turn of the [while] loop of [processQueue] up to the call of
    [initializeClient]; leaving the loop runs the [finally] block. *)
Definition queue_turn (W : Oracle) (now : Z) (s : state) : state :=
  match CONNECTION_QUEUE s with
  | [] => with_processing false s
  | (uid, q) :: rest =>
      match make_room W now s with
      | None => with_processing false s
      | Some (_, s1) => with_queue rest s1
      end
  end.

Definition queue_start (W : Oracle) (now : Z) (s : state) : state :=
  if isProcessingQueue s || (length (CONNECTION_QUEUE s) =? 0)%nat then s
  else queue_turn W now (with_processing true s).

Definition istep (W : Oracle) (now : Z) (ev : Event)
    (st : state * list string) : state * list string :=
  match ev with
  | Atomic op => (step W now op (fst st), snd st)
  | Enter uid => enter_call W now uid st
  | Continue uid => continue_call W now uid st
  | QueueStart => (queue_start W now (fst st), snd st)
  | QueueNext => (queue_turn W now (fst st), snd st)
  end.

Definition irun (tr : list (Oracle * Z * Event)) (st : state * list string)
  : state * list string :=
  fold_left (fun st '(W, now, ev) => istep W now ev st) tr st.

(** The events that start a call of [initializeClient]. *)
Definition starts_call (ev : Event) : bool :=
  match ev with
  | Enter _ => true
  | Atomic (ReqInit _) | Atomic (ReqSend _ (Some _) _)
  | Atomic TickQueue | Atomic (ResumeQueue _ _) => true
  | _ => false
  end.

End Main2.

(** ** First unnamed source: fixed pool, the oldest client is evicted,
       initialization is retried *)

(** What a call of [initializeClient] does besides changing the state. *)
Inductive Trace :=
| NewClient (id : nat)         (* [new Client(...)] built handle [id] *)
| Teardown (uid : string)      (* [cleanupSession(uid)] to free a slot *)
| Retrying (attempt : nat)     (* 'Retrying initialization ..., attempt n' *)
| Delay (ms : Z).              (* [setTimeout(resolve, ms)] awaited *)

Definition MAX_RETRIES : nat := 2.

(** How one pass through the [try] block ends. *)
Inductive Attempt :=
| AReturn (id : nat)           (* [return existingClient] *)
| AWait (id : nat)             (* suspended in [return await readyPromise] *)
| AThrow (e : Error).

(** How a call of [initializeClient] ends: with a result, suspended in the
    attempt numbered [retryCount], or with the recursion bound reached. *)
Inductive Final :=
| Final_return (id : nat)                   (* resolved with the object *)
| Final_throw (e : Error)                   (* rejected *)
| Final_wait (id : nat) (retryCount : nat)
| Final_fuel.

(** The [catch] block of [initializeClient] is the same text in the first
    and the second unnamed source:
    [activeClients.delete(uid); if (retryCount < MAX_RETRIES) { wait 2 s;
    return initializeClient(uid, retryCount + 1) } throw error].
    It is given once, over the [try] block [attempt] and the deletion
    [forget] of each source.  [clock k] is [Date.now()] during the call
    numbered [k]. *)
Section Retry.
Context {state : Type}.
Variable attempt : Z -> nat -> string -> state -> list Trace * state * Attempt.
Variable forget : string -> state -> state.
Variable clock : nat -> Z.

Fixpoint catch (fuel retryCount : nat) (uid : string) (error : Error)
    (s : state) : list Trace * state * Final :=
  let s1 := forget uid s in
  if (retryCount <? MAX_RETRIES)%nat then
    match fuel with
    | O => ([], s1, Final_fuel)
    | S fuel' =>
        let '(tr, s2, a) := attempt (clock (S retryCount)) (S retryCount)
                                    uid s1 in
        let pre := Retrying (S retryCount) :: Delay 2000 :: tr in
        match a with
        | AReturn id => (pre, s2, Final_return id)
        | AWait id => (pre, s2, Final_wait id (S retryCount))
        | AThrow e =>
            let '(tr', s3, r) := catch fuel' (S retryCount) uid e s2 in
            ((pre ++ tr')%list, s3, r)
        end
    end
  else ([], s1, Final_throw error).

Definition initializeClient_from (fuel retryCount : nat) (uid : string)
    (s : state) : list Trace * state * Final :=
  let '(tr, s1, a) := attempt (clock retryCount) retryCount uid s in
  match a with
  | AReturn id => (tr, s1, Final_return id)
  | AWait id => (tr, s1, Final_wait id retryCount)
  | AThrow e =>
      let '(tr', s2, r) := catch fuel retryCount uid e s1 in
      ((tr ++ tr')%list, s2, r)
  end.
End Retry.

Module Part000.

Record state := mkState {
  heap : list clientState;
  activeClients : list (string * nat);
  sessionDirs : list string        (* directories under SESSION_PATH *)
}.

Definition initial : state := mkState [] [] [].

Definition with_heap (h : list clientState) (s : state) :=
  mkState h (activeClients s) (sessionDirs s).
Definition with_active (a : list (string * nat)) (s : state) :=
  mkState (heap s) a (sessionDirs s).
Definition with_dirs (d : list string) (s : state) :=
  mkState (heap s) (activeClients s) d.

Definition update (id : nat) (f : clientState -> clientState) (s : state) :=
  with_heap (alter f id (heap s)) s.

Definition lookup (uid : string) (s : state) : option (nat * clientState) :=
  match map_get uid (activeClients s) with
  | Some id => match heap s !! id with
               | Some c => Some (id, c)
               | None => None
               end
  | None => None
  end.

Definition pathExists (uid : string) (s : state) : bool :=
  existsb (String.eqb uid) (sessionDirs s).

Definition ensureDir (uid : string) (s : state) : state :=
  if pathExists uid s then s else with_dirs (sessionDirs s ++ [uid]) s.

Section Handlers.
Variable W : Oracle.

(** [cleanupSession]: the failure of [destroy] is caught, the deletion
    from the registry follows in every case. *)
Definition cleanupSession (uid : string) (s : state) : state :=
  let s1 := match map_get uid (activeClients s) with
            | Some id => if destroy_throws W id then s
                         else update id set_destroyed s
            | None => s
            end in
  with_active (map_delete uid (activeClients s1)) s1.

(** The search for the oldest client: no test on the status. *)
Definition older (s : state) (acc : option string * Z) (e : string * nat)
  : option string * Z :=
  match heap s !! snd e with
  | Some c => if lastActivity c <? snd acc
              then (Some (fst e), lastActivity c) else acc
  | None => acc
  end.

Definition oldest (now : Z) (s : state) : option string :=
  match fst (fold_left (older s) (activeClients s) (None, now)) with
  | Some uid => if String.eqb uid "" then None else Some uid
  | None => None
  end.

(** The [try] block from the instance limit on. *)
Definition build (now : Z) (retryCount : nat) (uid : string) (s : state)
  : list Trace * state * Attempt :=
  let '(tr, s1) :=
    if (MAX_INSTANCES <=? length (activeClients s))%nat then
      match oldest now s with
      | Some old => ([Teardown old], cleanupSession old s)
      | None => ([], s)
      end
    else ([], s) in
  let sessionExists := pathExists uid s1 in
  if negb sessionExists && fs_throws W uid then (tr, s1, AThrow ErrFs)
  else
    let s2 := ensureDir uid s1 in
    if create_throws W uid retryCount then (tr, s2, AThrow ErrDriverCreate)
    else
      let id := length (heap s2) in
      let c := mkClient uid (if sessionExists then resuming else initializing)
                        None now (Some Pending) false true in
      let s3 := with_active (map_set uid id (activeClients s2))
                  (with_heap (heap s2 ++ [c]) s2) in
      if initialize_throws W id
      then ((tr ++ [NewClient id])%list, s3, AThrow ErrDriverInitialize)
      else ((tr ++ [NewClient id])%list, s3, AWait id).

(** The whole [try] block. *)
Definition attempt (now : Z) (retryCount : nat) (uid : string) (s : state)
  : list Trace * state * Attempt :=
  match lookup uid s with
  | Some (id, c) =>
      if Status_eqb (status c) ready then ([], s, AReturn id)
      else if Status_eqb (status c) disconnected
              || Status_eqb (status c) error
           then build now retryCount uid (cleanupSession uid s)
           else build now retryCount uid s
  | None => build now retryCount uid s
  end.

Variable clock : nat -> Z.

Definition forget (uid : string) (s : state) : state :=
  with_active (map_delete uid (activeClients s)) s.

(** [initializeClient(uid)], with [retryCount = 0] by default. *)
Definition initializeClient (uid : string) (s : state)
  : list Trace * state * Final :=
  initializeClient_from attempt forget clock MAX_RETRIES 0 uid s.

(** *** Driver events and the initialization timer of the record [id] *)

Definition on_qr (id : nat) (dataUrl : option string) (s : state) :=
  match dataUrl with
  | Some u => update id (fun c => set_status pending (set_qrCode (Some u) c)) s
  | None => s
  end.

Definition on_authenticated (id : nat) (s : state) :=
  update id (fun c => set_qrCode None (set_status authenticated c)) s.

Definition on_ready (now : Z) (id : nat) (s : state) :=
  update id (fun c => settle_ready Resolved
                        (clearTimeout
                           (set_lastActivity now (set_status ready c)))) s.

(** No [destroy] and no rejection here: the status, the timer, the
    registry. *)
Definition on_disconnected (id : nat) (s : state) :=
  match heap s !! id with
  | Some c =>
      let s1 := update id (fun c => clearTimeout (set_status disconnected c))
                       s in
      with_active (map_delete (owner c) (activeClients s1)) s1
  | None => s
  end.

Definition on_initTimeout (id : nat) (s : state) :=
  match heap s !! id with
  | Some c =>
      if initTimeout c then
        cleanupSession (owner c)
          (update id (fun c => settle_ready (Rejected ErrTimeout)
                                 (clearTimeout c)) s)
      else s
  | None => s
  end.

(** *** Routes (after [authMiddleware] has stored [uid]) *)

Definition send_resume (now : Z) (uid : string) (v : nat + Error)
    (s : state) : Response * state :=
  match v with
  | inl id =>
      match heap s !! id with
      | Some c =>
          if Status_eqb (status c) ready then
            if sendMessage_throws W id
            then (SendFailed ErrSendMessage, cleanupSession uid s)
            else (SendOk, update id (set_lastActivity now) s)
          else (SendFailed ErrNotReady, cleanupSession uid s)
      | None => (SendFailed ErrNotReady, cleanupSession uid s)
      end
  | inr e => (SendFailed e, cleanupSession uid s)
  end.

(** [now] is [Date.now()] once [sendMessage] has returned. *)
Definition send_message (now : Z) (uid : string)
    (number message : option string) (s : state) : Outcome * state :=
  match number with
  | None => (Done (SendFailed ErrType), cleanupSession uid s)
  | Some _ =>
      match initializeClient uid s with
      | (_, s1, Final_return id) =>
          let (r, s2) := send_resume now uid (inl id) s1 in (Done r, s2)
      | (_, s1, Final_throw e) =>
          let (r, s2) := send_resume now uid (inr e) s1 in (Done r, s2)
      | (_, s1, Final_wait id _) => (Awaiting (HReady id), s1)
      | (_, s1, Final_fuel) => (NoFuel, s1)
      end
  end.

Definition init (uid : string) (s : state) : Outcome * state :=
  let start :=
    match initializeClient uid s with
    | (_, s1, Final_return id) =>
        match heap s1 !! id with
        | Some c => (Done (InitOk (status c) (qrCode c)), s1)
        | None => (Done (InitFailed ErrType), s1)
        end
    | (_, s1, Final_throw e) => (Done (InitFailed e), s1)
    | (_, s1, Final_wait id _) => (Awaiting (HReady id), s1)
    | (_, s1, Final_fuel) => (NoFuel, s1)
    end in
  match lookup uid s with
  | Some (id, c) =>
      if Status_eqb (status c) disconnected then start
      else (Done (InitOk (status c) (qrCode c)), s)
  | None => start
  end.

Definition disconnect (uid : string) (s : state) : Response * state :=
  match map_get uid (activeClients s) with
  | Some id =>
      if destroy_throws W id then (DisconnectFailed ErrDriverDestroy, s)
      else (DisconnectOk, cleanupSession uid (update id set_destroyed s))
  | None => (DisconnectOk, s)
  end.

(** The inactivity interval. *)
Definition sweep_entry (now : Z) (s : state) (e : string * nat) : state :=
  match heap s !! snd e with
  | Some c => if now - lastActivity c >? INACTIVITY_TIMEOUT
              then cleanupSession (fst e) s else s
  | None => s
  end.

Definition sweep (now : Z) (s : state) : state :=
  fold_left (sweep_entry now) (activeClients s) s.
End Handlers.

Definition guarded {A} (authorization : option string)
    (h : string -> state -> A * state) (deny : A) (s : state) : A * state :=
  match authMiddleware authorization with
  | Some uid => h uid s
  | None => (deny, s)
  end.

(** SIGTERM and uncaughtException. *)
Definition shutdown (W : Oracle) (s : state) : state :=
  fold_left (fun s e => cleanupSession W (fst e) s) (activeClients s) s.

(** How [safeCleanup] ends: [return true], [throw error], [return false]
    after the loop, or the recursion bound of the model. *)
Inductive Cleanup := Cleaned | CleanupThrows | NotCleaned | CleanupFuel.

(** The [for] loop of [safeCleanup(path, maxRetries)] from the index [i];
    [remove_throws i] tells whether [fs.remove(path)] throws in the
    iteration [i]. *)
Fixpoint safeCleanup_from (remove_throws : nat -> bool) (maxRetries : nat)
    (fuel i : nat) (path : string) (s : state) : list Trace * state * Cleanup :=
  if (i <? maxRetries)%nat then
    match fuel with
    | O => ([], s, CleanupFuel)
    | S fuel' =>
        if remove_throws i then
          if (i =? maxRetries - 1)%nat then ([], s, CleanupThrows)
          else
            let '(tr, s', r) :=
              safeCleanup_from remove_throws maxRetries fuel' (S i) path s in
            (Delay 1000 :: tr, s', r)
        else
          ([],
           with_dirs (List.filter (fun d => negb (String.eqb d path))
                                  (sessionDirs s)) s,
           Cleaned)
    end
  else ([], s, NotCleaned).

Definition safeCleanup (remove_throws : nat -> bool) (path : string)
    (maxRetries : nat) (s : state) : list Trace * state * Cleanup :=
  safeCleanup_from remove_throws maxRetries maxRetries 0 path s.

Definition route_init W clock a :=
  guarded a (init W clock) (Done Unauthorized).
Definition route_send W clock now a number message :=
  guarded a (fun uid => send_message W clock now uid number message)
          (Done Unauthorized).
Definition route_disconnect W a :=
  guarded a (disconnect W) Unauthorized.

End Part000.

(** ** Second unnamed source: a pool of browser instances, initialization
       is retried *)

Module Part001.

(** [session.json] and the entries of [userSessions] ([authenticated_]
    is the field [authenticated]). *)
Record sessionData := mkSession { lastActive : Z; authenticated_ : bool }.

Record state := mkState {
  heap : list (clientState * nat);       (* the object and its [instance] *)
  activeClients : list (string * nat);
  clientPool : list (nat * list string); (* instance -> set of users *)
  symbols : nat;                         (* [Symbol('instance')] made so far *)
  userSessions : list (string * sessionData);
  sessionFiles : list (string * sessionData)
}.

Definition initial : state := mkState [] [] [] 0 [] [].

Definition with_heap h (s : state) :=
  mkState h (activeClients s) (clientPool s) (symbols s) (userSessions s)
          (sessionFiles s).
Definition with_active a (s : state) :=
  mkState (heap s) a (clientPool s) (symbols s) (userSessions s)
          (sessionFiles s).
Definition with_pool p n (s : state) :=
  mkState (heap s) (activeClients s) p n (userSessions s) (sessionFiles s).
Definition with_sessions u f (s : state) :=
  mkState (heap s) (activeClients s) (clientPool s) (symbols s) u f.

Definition update (id : nat) (f : clientState -> clientState) (s : state) :=
  with_heap (alter (fun c => (f (fst c), snd c)) id (heap s)) s.

Definition lookup (uid : string) (s : state) : option (nat * clientState) :=
  match map_get uid (activeClients s) with
  | Some id => match heap s !! id with
               | Some c => Some (id, fst c)
               | None => None
               end
  | None => None
  end.

Definition has (uid : string) (users : list string) : bool :=
  existsb (String.eqb uid) users.

(** The loop of [cleanupSession] over the pool: the first set holding
    [uid] loses it. *)
Fixpoint pool_remove (uid : string) (pool : list (nat * list string)) :=
  match pool with
  | [] => []
  | (instance, users) :: pool' =>
      if has uid users
      then (instance,
            List.filter (fun u => negb (String.eqb u uid)) users) :: pool'
      else (instance, users) :: pool_remove uid pool'
  end.

(** [clientPool.get(instance).add(uid)]. *)
Fixpoint pool_add (instance : nat) (uid : string)
    (pool : list (nat * list string)) :=
  match pool with
  | [] => []
  | (i, users) :: pool' =>
      if Nat.eqb i instance
      then (i, if has uid users then users else (users ++ [uid])%list) :: pool'
      else (i, users) :: pool_add instance uid pool'
  end.

(** The loop of [getClientInstance]; [None] as bound is [Infinity]. *)
Definition less_busy (acc : option nat * option nat) (e : nat * list string)
  : option nat * option nat :=
  match snd acc with
  | Some minUsers => if (length (snd e) <? minUsers)%nat
                     then (Some (fst e), Some (length (snd e))) else acc
  | None => (Some (fst e), Some (length (snd e)))
  end.

Definition getClientInstance (s : state) : option nat * state :=
  match fst (fold_left less_busy (clientPool s) (None, None)) with
  | Some instance => (Some instance, s)
  | None =>
      if (length (clientPool s) <? MAX_INSTANCES)%nat
      then (Some (symbols s),
            with_pool (clientPool s ++ [(symbols s, [])]) (S (symbols s)) s)
      else (None, s)
  end.

Section Handlers.
Variable W : Oracle.

Definition saveSession (now : Z) (uid : string) (s : state) : state :=
  match map_get uid (activeClients s) with
  | Some id =>
      if fs_throws W uid then s
      else
        let d := mkSession now (status_is ready (fst <$> heap s !! id)) in
        with_sessions (map_set uid d (userSessions s))
                      (map_set uid d (sessionFiles s)) s
  | None => s
  end.

Definition loadSession (uid : string) (s : state)
  : option sessionData * state :=
  if fs_throws W uid then (None, s)
  else match map_get uid (sessionFiles s) with
       | Some d => (Some d, with_sessions (map_set uid d (userSessions s))
                                          (sessionFiles s) s)
       | None => (None, s)
       end.

(** [cleanupSession]: the failure of [destroy] is caught; the deletion
    follows. *)
Definition cleanupSession (now : Z) (uid : string) (s : state) : state :=
  match map_get uid (activeClients s) with
  | Some id =>
      let s1 := saveSession now uid s in
      let s2 := with_pool (pool_remove uid (clientPool s1)) (symbols s1) s1 in
      let s3 := if destroy_throws W id then s2
                else update id set_destroyed s2 in
      with_active (map_delete uid (activeClients s3)) s3
  | None => s
  end.

(** The [try] block after the test for a READY record. *)
Definition build (now : Z) (retryCount : nat) (uid : string) (s : state)
  : list Trace * state * Attempt :=
  let (savedSession, s1) := loadSession uid s in
  match getClientInstance s1 with
  | (None, s2) => ([], s2, AThrow ErrNoInstance)
  | (Some instance, s2) =>
      if fs_throws W uid then ([], s2, AThrow ErrFs)
      else if create_throws W uid retryCount
      then ([], s2, AThrow ErrDriverCreate)
      else
        let id := length (heap s2) in
        let resumed := match savedSession with
                       | Some d => authenticated_ d
                       | None => false
                       end in
        let c := mkClient uid (if resumed then resuming else initializing)
                          None now (Some Pending) false true in
        let s3 := with_active (map_set uid id (activeClients s2))
                    (with_heap (heap s2 ++ [(c, instance)]) s2) in
        if initialize_throws W id
        then ([NewClient id], s3, AThrow ErrDriverInitialize)
        else ([NewClient id], s3, AWait id)
  end.

(** The whole [try] block. *)
Definition attempt (now : Z) (retryCount : nat) (uid : string) (s : state)
  : list Trace * state * Attempt :=
  match lookup uid s with
  | Some (id, c) =>
      if Status_eqb (status c) ready then ([], s, AReturn id)
      else build now retryCount uid s
  | None => build now retryCount uid s
  end.

Definition forget (uid : string) (s : state) : state :=
  with_active (map_delete uid (activeClients s)) s.

Variable clock : nat -> Z.

Definition initializeClient (uid : string) (s : state)
  : list Trace * state * Final :=
  initializeClient_from attempt forget clock MAX_RETRIES 0 uid s.

(** The [ready] event of the record [id]. *)
Definition on_ready (now : Z) (id : nat) (s : state) : state :=
  match heap s !! id with
  | Some (c, instance) =>
      let s1 := update id (fun c => settle_ready Resolved
                             (clearTimeout
                                (set_lastActivity now (set_status ready c))))
                       s in
      with_pool (pool_add instance (owner c) (clientPool s1)) (symbols s1) s1
  | None => s
  end.

(** [/disconnect]: [cleanupSession] throws nothing, the [catch] branch of
    the route is never taken. *)
Definition disconnect (now : Z) (uid : string) (s : state)
  : Response * state :=
  (DisconnectOk, cleanupSession now uid s).
End Handlers.

(** The answer of [/client-status/:uid]: [{status: 'disconnected'}] when
    the tenant has neither a record nor session data, else the four
    fields; a [status] of [None] is 'inactive', a [lastActivity] of [None]
    is [undefined]. *)
Inductive StatusReport :=
| NoClient
| Report (status : option Status) (qrCode : option string)
         (lastActivity : option Z) (authenticated : bool).

Definition client_status (uid : string) (s : state) : StatusReport :=
  let clientState := snd <$> lookup uid s in
  let sessionData := map_get uid (userSessions s) in
  match clientState, sessionData with
  | None, None => NoClient
  | _, _ =>
      Report (status <$> clientState)
             (clientState ≫= qrCode)
             (match clientState with
              | Some c => if lastActivity c =? 0 then lastActive <$> sessionData
                          else Some (lastActivity c)
              | None => lastActive <$> sessionData
              end)
             (match sessionData with
              | Some d => authenticated_ d
              | None => false
              end)
  end.

(** SIGTERM and uncaughtException. *)
Definition shutdown (W : Oracle) (now : Z) (s : state) : state :=
  fold_left (fun s e => cleanupSession W now (fst e) s) (activeClients s) s.

End Part001.

(** ** Third unnamed source: no pool limit, no queue, no retry *)

Module Part002.

Record state := mkState {
  heap : list clientState;
  activeClients : list (string * nat);
  sessionDirs : list string
}.

Definition initial : state := mkState [] [] [].

Definition with_heap (h : list clientState) (s : state) :=
  mkState h (activeClients s) (sessionDirs s).
Definition with_active (a : list (string * nat)) (s : state) :=
  mkState (heap s) a (sessionDirs s).
Definition with_dirs (d : list string) (s : state) :=
  mkState (heap s) (activeClients s) d.

Definition update (id : nat) (f : clientState -> clientState) (s : state) :=
  with_heap (alter f id (heap s)) s.

Definition lookup (uid : string) (s : state) : option (nat * clientState) :=
  match map_get uid (activeClients s) with
  | Some id => match heap s !! id with
               | Some c => Some (id, c)
               | None => None
               end
  | None => None
  end.

Definition liveRecords (s : state) : list (string * nat) :=
  List.filter (fun e => match heap s !! snd e with
                        | Some c => negb (destroyed c)
                        | None => false
                        end) (activeClients s).

Definition pathExists (uid : string) (s : state) : bool :=
  existsb (String.eqb uid) (sessionDirs s).

Definition ensureDir (uid : string) (s : state) : state :=
  if pathExists uid s then s else with_dirs (sessionDirs s ++ [uid]) s.

Definition inactivityThreshold : Z := 3600000.

(** JavaScript truthiness of an optional string. *)
Definition truthy (x : option string) : bool :=
  match x with
  | Some EmptyString | None => false
  | Some _ => true
  end.

Section Handlers.
Variable W : Oracle.

(** [cleanupSession] removes the session files, then the record; both
    sit in one [try], and no [destroy] is called. *)
Definition cleanupSession (uid : string) (s : state) : state :=
  if pathExists uid s then
    if fs_throws W uid then s
    else
      with_active (map_delete uid (activeClients s))
        (with_dirs (List.filter (fun d => negb (String.eqb d uid))
                                (sessionDirs s)) s)
  else with_active (map_delete uid (activeClients s)) s.

(** [initializeClient] returns the object ([inl]) as soon as
    [client.initialize()] has resolved, or throws ([inr]). *)
Definition initializeClient (now : Z) (uid : string) (s : state)
  : (nat + Error) * state :=
  if negb (pathExists uid s) && fs_throws W uid then (inr ErrFs, s)
  else
    let s1 := ensureDir uid s in
    if create_throws W uid 0 then (inr ErrDriverCreate, s1)
    else
      let id := length (heap s1) in
      let c := mkClient uid initializing None now None false false in
      let s2 := with_active (map_set uid id (activeClients s1))
                  (with_heap (heap s1 ++ [c]) s1) in
      if initialize_throws W id
      then (inr ErrDriverInitialize, cleanupSession uid s2)
      else (inl id, s2).

(** *** Driver events of the record [id] *)

Definition on_qr (id : nat) (dataUrl : option string) (s : state) :=
  match dataUrl with
  | Some u => update id (fun c => set_status pending (set_qrCode (Some u) c)) s
  | None => s
  end.

Definition on_authenticated (id : nat) (s : state) :=
  update id (fun c => set_qrCode None (set_status authenticated c)) s.

Definition on_ready (now : Z) (id : nat) (s : state) :=
  update id (fun c => set_lastActivity now (set_status ready c)) s.

Definition on_disconnected (id : nat) (s : state) :=
  match heap s !! id with
  | Some c => cleanupSession (owner c) (update id (set_status disconnected) s)
  | None => s
  end.

(** *** Routes (after [authMiddleware] has stored [uid]) *)

Definition init (now : Z) (uid : string) (s : state) : Response * state :=
  let start :=
    match initializeClient now uid s with
    | (inl id, s1) =>
        match heap s1 !! id with
        | Some c => (InitOk (status c) (qrCode c), s1)
        | None => (InitFailed ErrType, s1)
        end
    | (inr e, s1) => (InitFailed e, s1)
    end in
  match lookup uid s with
  | Some (id, c) =>
      if Status_eqb (status c) disconnected then start
      else (InitOk (status c) (qrCode c), s)
  | None => start
  end.

Definition send_message (now : Z) (uid : string)
    (number message : option string) (s : state) : Response * state :=
  if negb (truthy number) || negb (truthy message) then (SendBadRequest, s)
  else
    match lookup uid s with
    | Some (id, c) =>
        if Status_eqb (status c) ready then
          if sendMessage_throws W id then (SendFailed ErrSendMessage, s)
          else (SendOk, update id (set_lastActivity now) s)
        else (SendNotReady, s)
    | None => (SendNotReady, s)
    end.

(** The inactivity interval. *)
Definition sweep_entry (now : Z) (s : state) (e : string * nat) : state :=
  match heap s !! snd e with
  | Some c => if now - lastActivity c >? inactivityThreshold
              then cleanupSession (fst e) s else s
  | None => s
  end.

Definition sweep (now : Z) (s : state) : state :=
  fold_left (sweep_entry now) (activeClients s) s.
End Handlers.

Definition guarded {A} (authorization : option string)
    (h : string -> state -> A * state) (deny : A) (s : state) : A * state :=
  match authMiddleware authorization with
  | Some uid => h uid s
  | None => (deny, s)
  end.

(** SIGTERM: [await clientState.client.destroy(); await
    cleanupSession(uid)] for each entry, then [process.exit(0)].  There
    is no [try]: a rejected [destroy] ends the handler where it is.  The
    boolean tells whether [process.exit] was reached. *)
Fixpoint shutdown_loop (W : Oracle) (entries : list (string * nat))
    (s : state) : state * bool :=
  match entries with
  | [] => (s, true)
  | (uid, id) :: rest =>
      if destroy_throws W id then (s, false)
      else shutdown_loop W rest (cleanupSession W uid (update id set_destroyed s))
  end.

Definition shutdown (W : Oracle) (s : state) : state * bool :=
  shutdown_loop W (activeClients s) s.

Definition route_init W now a := guarded a (init W now) Unauthorized.
Definition route_send W now a number message :=
  guarded a (fun uid => send_message W now uid number message) Unauthorized.

End Part002.

(** ** Vocabulary of the properties *)

(** A request carries no token when the Authorization header is missing
    or its second space-separated field is missing or empty. *)
Definition lacks_token (authorization : option string) : Prop :=
  match authorization with
  | None => True
  | Some h => split " " h !! 1%nat = None \/ split " " h !! 1%nat = Some ""
  end.

(** A filesystem that refuses to remove session directories. *)
Definition busy_files : Oracle :=
  mkOracle (fun _ _ => false) (fun _ => false) (fun _ => false)
           (fun _ => false) (fun _ => true) (fun _ => true).

(** A driver whose [destroy] always rejects. *)
Definition stubborn : Oracle :=
  mkOracle (fun _ _ => false) (fun _ => false) (fun _ => true)
           (fun _ => false) (fun _ => true) (fun _ => false).

(** The test of the sweep on one entry of the registry: the record has
    been idle for more than [threshold].  The status is not read. *)
Definition stale (threshold now : Z) (h : list clientState)
    (e : string * nat) : bool :=
  match h !! snd e with
  | Some c => now - lastActivity c >? threshold
  | None => false
  end.

(** What a trace says: the retries announced, the delays waited, the
    driver handles built. *)
Definition retries (tr : list Trace) : list nat :=
  omap (fun t => match t with Retrying n => Some n | _ => None end) tr.

Definition delays (tr : list Trace) : list Z :=
  omap (fun t => match t with Delay ms => Some ms | _ => None end) tr.

Definition created (tr : list Trace) : list nat :=
  omap (fun t => match t with NewClient id => Some id | _ => None end) tr.

(** The handles built along [tr] are new and pairwise distinct: they are
    the indices by which the store grew from size [n] to size [n']. *)
Definition fresh (n n' : nat) (tr : list Trace) : Prop :=
  (n <= n')%nat /\
  Forall (fun id => n <= id < n')%nat (created tr) /\
  NoDup (created tr).

(** The tenant has no READY record: [initializeClient] will not return the
    existing one. *)
Definition unready (look : option (nat * clientState)) : Prop :=
  match look with
  | Some (_, c) => status c <> ready
  | None => True
  end.

(** The errors of a driver that cannot be created or started. *)
Definition DriverInitFailure (e : Error) : Prop :=
  e = ErrDriverCreate \/ e = ErrDriverInitialize.

(** A driver that is built but never starts. *)
Definition dead_driver : Oracle :=
  mkOracle (fun _ _ => false) (fun _ => true) (fun _ => false)
           (fun _ => false) (fun _ => true) (fun _ => false).

(** The registry holds at most [MAX_INSTANCES] records. *)
Definition bounded (s : Main2.state) : Prop :=
  (length (Main2.activeClients s) <= MAX_INSTANCES)%nat.

(** Whether a sweep at [now] calls [destroy] with success on the client
    [i]: some registered record idle beyond the threshold holds it and the
    call does not fail. *)
Definition swept (fails : nat -> bool) (threshold now : Z)
    (h : list clientState) (l : list (string * nat)) (i : nat) : bool :=
  existsb (fun e => stale threshold now h e && Nat.eqb (snd e) i
                    && negb (fails i)) l.

(** No call of [initializeClient] starts while another one is between
    its capacity test and its [activeClients.set]. *)
Fixpoint serial (tr : list (Oracle * Z * Main2.Event))
    (st : Main2.state * list string) : Prop :=
  match tr with
  | [] => True
  | (W, now, ev) :: tr' =>
      (Main2.starts_call ev = true -> snd st = []) /\
      serial tr' (Main2.istep W now ev st)
  end.

(** The registry did not grow from [s] to [s']. *)
Definition shrinks (s s' : Main2.state) : Prop :=
  (length (Main2.activeClients s') <= length (Main2.activeClients s))%nat.

(** [uid] has an entry in the registry whose record is READY. *)
Definition ready_entry (s : Main2.state) (uid : string) : Prop :=
  exists id c,
    In (uid, id) (Main2.activeClients s) /\
    Main2.heap s !! id = Some c /\ status c = ready.

(** Every READY entry of [s'] is a READY entry of [s]. *)
Definition inherits (s s' : Main2.state) : Prop :=
  forall uid, ready_entry s' uid -> ready_entry s uid.

(** No space in the string. *)
Fixpoint spaceless (s : string) : bool :=
  match s with
  | EmptyString => true
  | String c s' => negb (Ascii.eqb c " ") && spaceless s'
  end.

(** The queue promises a pass settles, in the order it settles them, and
    the one it is left waiting for. *)
Definition settled (evs : list Main2.Effect) : list nat :=
  omap (fun ev => match ev with
                  | Main2.Resolve q _ | Main2.Reject q _ => Some q
                  | Main2.Evict _ => None
                  end) evs.

Definition awaited (e : Main2.LoopEnd) : list nat :=
  match e with
  | Main2.Suspended _ q => [q]
  | _ => []
  end.

(** Every tenant with an entry in [sessionStore] in [s] has one in [s']. *)
Definition remembers (s s' : Main2.state) : Prop :=
  forall uid, map_get uid (Main2.sessionStore s) <> None ->
              map_get uid (Main2.sessionStore s') <> None.

(** * Properties *)

(** ** Facts about the shared values *)

Lemma Status_eqb_eq a b : Status_eqb a b = true <-> a = b.
Proof. destruct a, b; simpl; split; congruence. Qed.

Lemma Status_eqb_refl a : Status_eqb a a = true.
Proof. now destruct a. Qed.

Section JsMapFacts.
Context {V : Type}.
Implicit Types (m : list (string * V)) (k : string) (v : V).

Lemma map_get_set_eq k v m : map_get k (map_set k v m) = Some v.
Proof.
  induction m as [|[k' v'] m IH]; simpl.
  - now rewrite String.eqb_refl.
  - destruct (String.eqb k' k) eqn:E; simpl.
    + now rewrite String.eqb_refl.
    + now rewrite E.
Qed.

Lemma map_get_set_ne k k' v m :
  k <> k' -> map_get k' (map_set k v m) = map_get k' m.
Proof.
  intros Hne. induction m as [|[k0 v0] m IH]; simpl.
  - destruct (String.eqb k k') eqn:E; [apply String.eqb_eq in E|]; congruence.
  - destruct (String.eqb k0 k) eqn:E; simpl.
    + apply String.eqb_eq in E; subst k0.
      destruct (String.eqb k k') eqn:E'; [apply String.eqb_eq in E'|];
        congruence.
    + now rewrite IH.
Qed.

Lemma map_get_delete_eq k m : map_get k (map_delete k m) = None.
Proof.
  induction m as [|[k' v'] m IH]; simpl; [reflexivity|].
  destruct (String.eqb k' k) eqn:E; simpl; [assumption|].
  now rewrite E.
Qed.

Lemma map_get_delete_ne k k' m :
  k <> k' -> map_get k' (map_delete k m) = map_get k' m.
Proof.
  intros Hne. induction m as [|[k0 v0] m IH]; simpl; [reflexivity|].
  destruct (String.eqb k0 k) eqn:E; simpl.
  - apply String.eqb_eq in E; subst k0.
    destruct (String.eqb k k') eqn:E'; [apply String.eqb_eq in E'|];
      congruence.
  - now rewrite IH.
Qed.

Lemma map_delete_absent k m : map_get k m = None -> map_delete k m = m.
Proof.
  induction m as [|[k' v'] m IH]; simpl; [reflexivity|].
  destruct (String.eqb k' k) eqn:E; simpl; [discriminate|].
  intros H. now rewrite (IH H).
Qed.

Lemma length_map_delete k m : (length (map_delete k m) <= length m)%nat.
Proof.
  induction m as [|[k' v'] m IH]; simpl; [lia|].
  destruct (String.eqb k' k); simpl; lia.
Qed.

Lemma length_map_set k v m :
  length (map_set k v m) =
  match map_get k m with Some _ => length m | None => S (length m) end.
Proof.
  induction m as [|[k' v'] m IH]; simpl; [reflexivity|].
  destruct (String.eqb k' k); simpl; [reflexivity|].
  rewrite IH. now destruct (map_get k m).
Qed.

Lemma length_map_set_le k v m : (length (map_set k v m) <= S (length m))%nat.
Proof. rewrite length_map_set. destruct (map_get k m); lia. Qed.
End JsMapFacts.

(** ** The authorization middleware (C10) *)

Lemma authMiddleware_denies a : lacks_token a -> authMiddleware a = None.
Proof.
  destruct a as [h|]; simpl; [|reflexivity].
  intros [-> | ->]; reflexivity.
Qed.

Lemma authMiddleware_accepts a uid :
  authMiddleware a = Some uid ->
  exists h, a = Some h /\ split " " h !! 1%nat = Some uid /\ uid <> "".
Proof.
  destruct a as [h|]; simpl; [|discriminate].
  destruct (split " " h !! 1%nat) as [[|c u]|] eqn:E; try discriminate.
  intros [= <-]. exists h. repeat split; [assumption | discriminate].
Qed.

(** C10: a request to /init, /send-message or /disconnect without a token
    is answered 401 and the state (registry, records, queue, stores) is
    the one before the request, in [main2.js] and in the first and third
    unnamed sources. *)
Theorem auth_required W now clock a number message :
  lacks_token a ->
  (forall s, Main2.route_init W now a s = (Done Unauthorized, s)) /\
  (forall s, Main2.route_send W now a number message s
             = (Done Unauthorized, s)) /\
  (forall s, Main2.route_disconnect W now a s = (Unauthorized, s)) /\
  (forall s, Part000.route_init W clock a s = (Done Unauthorized, s)) /\
  (forall s, Part000.route_send W clock now a number message s
             = (Done Unauthorized, s)) /\
  (forall s, Part000.route_disconnect W a s = (Unauthorized, s)) /\
  (forall s, Part002.route_init W now a s = (Unauthorized, s)) /\
  (forall s, Part002.route_send W now a number message s
             = (Unauthorized, s)) /\
  code Unauthorized = 401%nat.
Proof.
  intros H. apply authMiddleware_denies in H.
  unfold Main2.route_init, Main2.route_send, Main2.route_disconnect,
    Part000.route_init, Part000.route_send, Part000.route_disconnect,
    Part002.route_init, Part002.route_send,
    Main2.guarded, Part000.guarded, Part002.guarded.
  rewrite H. repeat split.
Qed.

Lemma auth_required_witness :
  lacks_token (Some "Bearer") /\
  Main2.route_send calm 7 (Some "Bearer") (Some "1234") (Some "hi")
    Main2.initial = (Done Unauthorized, Main2.initial).
Proof.
  assert (H : lacks_token (Some "Bearer")) by (left; reflexivity).
  split; [exact H|].
  apply (auth_required calm 7 (fun _ => 7) (Some "Bearer") (Some "1234")
           (Some "hi") H).
Defined.

(** ** Teardown and release (C8, C9) *)

Lemma Main2_cleanupSession_active W now uid s :
  Main2.activeClients (Main2.cleanupSession W now uid s)
  = map_delete uid (Main2.activeClients s).
Proof.
  unfold Main2.cleanupSession.
  destruct (map_get uid (Main2.activeClients s)) as [id|] eqn:E.
  - unfold Main2.preserveSession.
    destruct (_ || _), (page_ok W id), (destroy_throws W id); reflexivity.
  - now rewrite map_delete_absent.
Qed.

Lemma Part000_cleanupSession_active W uid s :
  Part000.activeClients (Part000.cleanupSession W uid s)
  = map_delete uid (Part000.activeClients s).
Proof.
  unfold Part000.cleanupSession.
  destruct (map_get uid (Part000.activeClients s)) as [id|];
    [destruct (destroy_throws W id)|]; reflexivity.
Qed.

Lemma Part001_cleanupSession_active W now uid s :
  Part001.activeClients (Part001.cleanupSession W now uid s)
  = map_delete uid (Part001.activeClients s).
Proof.
  unfold Part001.cleanupSession.
  destruct (map_get uid (Part001.activeClients s)) as [id|] eqn:E.
  - unfold Part001.saveSession. rewrite E.
    destruct (fs_throws W uid), (destroy_throws W id); reflexivity.
  - now rewrite map_delete_absent.
Qed.

(** C8, as stated, fails in the third unnamed source: its [cleanupSession]
    deletes the record inside the [try] that removes the session
    directory, so a failing removal leaves the record registered. *)
Lemma teardown_keeps_record_part002 :
  let s := snd (Part002.initializeClient calm 0 "a" Part002.initial) in
  map_get "a" (Part002.activeClients s) = Some 0%nat /\
  map_get "a" (Part002.activeClients (Part002.cleanupSession busy_files "a" s))
  = Some 0%nat.
Proof. split; reflexivity. Qed.

(** C8 (amended): in [main2.js] and in the first and second unnamed
    sources the record of [uid] is out of the registry after
    [cleanupSession(uid)], whatever [destroy] does; in the third unnamed
    source, which calls no [destroy], it is out whenever the removal of
    the session directory does not throw. *)
Theorem teardown_removes_record W now uid :
  (forall s, map_get uid (Main2.activeClients
                            (Main2.cleanupSession W now uid s)) = None) /\
  (forall s, map_get uid (Part000.activeClients
                            (Part000.cleanupSession W uid s)) = None) /\
  (forall s, map_get uid (Part001.activeClients
                            (Part001.cleanupSession W now uid s)) = None) /\
  (forall s, Part002.pathExists uid s && fs_throws W uid = false ->
             map_get uid (Part002.activeClients
                            (Part002.cleanupSession W uid s)) = None).
Proof.
  repeat split; intros s.
  - rewrite Main2_cleanupSession_active. apply map_get_delete_eq.
  - rewrite Part000_cleanupSession_active. apply map_get_delete_eq.
  - rewrite Part001_cleanupSession_active. apply map_get_delete_eq.
  - unfold Part002.cleanupSession.
    destruct (Part002.pathExists uid s), (fs_throws W uid); simpl;
      try discriminate; intros _; apply map_get_delete_eq.
Qed.

Lemma teardown_removes_record_witness :
  let s := snd (Part002.initializeClient calm 0 "a" Part002.initial) in
  Part002.pathExists "a" s && fs_throws stubborn "a" = false /\
  map_get "a" (Part002.activeClients (Part002.cleanupSession stubborn "a" s))
  = None.
Proof.
  split; [reflexivity|].
  apply (proj2 (proj2 (proj2 (teardown_removes_record stubborn 0 "a")))).
  reflexivity.
Defined.

(** C9, as stated, fails in [main2.js]: /disconnect calls [destroy] inside
    a [try] whose [catch] answers 500, and the record stays. *)
Lemma release_fails_main2 :
  let s := Main2.run [(calm, 0, Main2.ReqInit (Some "Bearer a"))]
                     Main2.initial in
  Main2.route_disconnect stubborn 10 (Some "Bearer a") s
  = (DisconnectFailed ErrDriverDestroy, s) /\
  map_get "a" (Main2.activeClients s) = Some 0%nat /\
  code (DisconnectFailed ErrDriverDestroy) = 500%nat.
Proof. repeat split. Qed.

(** C9 (amended): release acknowledges and changes nothing when the tenant
    has no record; with a record, [main2.js] acknowledges and removes it
    when [destroy] succeeds and answers 500, leaving the state as it was,
    when [destroy] fails; the second unnamed source always acknowledges. *)
Theorem release_acknowledged W now uid :
  (forall s, map_get uid (Main2.activeClients s) = None ->
             Main2.disconnect W now uid s = (DisconnectOk, s)) /\
  (forall s id, map_get uid (Main2.activeClients s) = Some id ->
                destroy_throws W id = false ->
                fst (Main2.disconnect W now uid s) = DisconnectOk /\
                map_get uid (Main2.activeClients
                               (snd (Main2.disconnect W now uid s))) = None) /\
  (forall s id, map_get uid (Main2.activeClients s) = Some id ->
                destroy_throws W id = true ->
                Main2.disconnect W now uid s
                = (DisconnectFailed ErrDriverDestroy, s)) /\
  (forall s, fst (Part001.disconnect W now uid s) = DisconnectOk) /\
  (forall s, map_get uid (Part001.activeClients s) = None ->
             Part001.disconnect W now uid s = (DisconnectOk, s)).
Proof.
  split; [|split; [|split; [|split]]].
  - intros s H. unfold Main2.disconnect. now rewrite H.
  - intros s id H Hd. unfold Main2.disconnect. rewrite H, Hd. simpl.
    split; [reflexivity|].
    rewrite Main2_cleanupSession_active. apply map_get_delete_eq.
  - intros s id H Hd. unfold Main2.disconnect. now rewrite H, Hd.
  - reflexivity.
  - intros s H. unfold Part001.disconnect, Part001.cleanupSession.
    now rewrite H.
Qed.

Lemma release_acknowledged_witness :
  map_get "zoe" (Main2.activeClients Main2.initial) = None /\
  Main2.disconnect stubborn 5 "zoe" Main2.initial
  = (DisconnectOk, Main2.initial).
Proof.
  split; [reflexivity|].
  apply (proj1 (release_acknowledged stubborn 5 "zoe")). reflexivity.
Defined.

(** ** Sending (C4) *)




(** ** Acquiring twice (C3) *)

(** C3, as stated, fails in [main2.js]: [initializeClient] reuses a record
    only when its status is 'ready'.  Called for a tenant whose record is
    still initializing it builds a second client, registers the new object
    in place of the old one and returns the new [readyPromise]; the first
    driver handle is not destroyed. *)
Lemma second_acquire_creates_client_main2 :
  let s := Main2.run [(calm, 0, Main2.ReqInit (Some "Bearer a"))]
                     Main2.initial in
  let r := Main2.initializeClient calm 5 "a" s in
  Main2.lookup "a" s
  = Some (0%nat, mkClient "a" initializing None 0 (Some Pending) false true) /\
  fst r = Ret (HReady 1) /\
  Main2.activeClients (snd r) = [("a", 1%nat)] /\
  destroyed <$> Main2.heap (snd r) = [false; false].
Proof. repeat split. Qed.

(** C3 (amended): for a tenant whose record is READY, [initializeClient]
    returns that record and builds nothing ([main2.js] refreshes its
    [lastActivity], the first unnamed source changes nothing); for a tenant
    whose record has any status but 'disconnected', the /init route answers
    from the record without calling [initializeClient]. *)
Theorem acquire_reuses_record W now clock uid :
  (forall s id c,
     Main2.lookup uid s = Some (id, c) -> status c = ready ->
     Main2.initializeClient W now uid s
     = (Ret (HState id), Main2.update id (set_lastActivity now) s)) /\
  (forall s id c,
     Part000.lookup uid s = Some (id, c) -> status c = ready ->
     Part000.initializeClient W clock uid s = ([], s, Final_return id)) /\
  (forall s id c,
     Main2.lookup uid s = Some (id, c) -> status c <> disconnected ->
     Main2.init W now uid s = (Done (InitOk (status c) (qrCode c)), s)) /\
  (forall s id c,
     Part000.lookup uid s = Some (id, c) -> status c <> disconnected ->
     Part000.init W clock uid s = (Done (InitOk (status c) (qrCode c)), s)).
Proof.
  repeat split; intros s id c H Hs.
  - unfold Main2.initializeClient, Main2.initializeClient_check.
    now rewrite H, Hs.
  - unfold Part000.initializeClient, initializeClient_from, Part000.attempt.
    now rewrite H, Hs.
  - unfold Main2.init. rewrite H.
    destruct (Status_eqb (status c) disconnected) eqn:E; [|reflexivity].
    apply Status_eqb_eq in E. contradiction.
  - unfold Part000.init. rewrite H.
    destruct (Status_eqb (status c) disconnected) eqn:E; [|reflexivity].
    apply Status_eqb_eq in E. contradiction.
Qed.

Lemma acquire_reuses_record_witness :
  let s := Main2.run [(calm, 0, Main2.ReqInit (Some "Bearer a"));
                      (calm, 3, Main2.EvReady 0%nat)] Main2.initial in
  Main2.initializeClient calm 8 "a" s
  = (Ret (HState 0), Main2.update 0 (set_lastActivity 8) s).
Proof.
  apply (proj1 (acquire_reuses_record calm 8 (fun _ => 8) "a")
           _ 0%nat (mkClient "a" ready None 3 (Some Resolved) false false));
    reflexivity.
Defined.

(** ** The driver's disconnected event (C6) *)


Lemma Main2_cleanupSession_cell W now uid s i :
  Main2.heap (Main2.cleanupSession W now uid s) !! i = Main2.heap s !! i \/
  Main2.heap (Main2.cleanupSession W now uid s) !! i
  = set_destroyed <$> Main2.heap s !! i.
Proof.
  unfold Main2.cleanupSession.
  destruct (map_get uid (Main2.activeClients s)) as [id|]; [|now left].
  assert (Hp : forall b : bool,
             Main2.heap (if b then Main2.preserveSession W now uid id s else s)
             = Main2.heap s).
  { intros []; [|reflexivity]. unfold Main2.preserveSession.
    now destruct (page_ok W id). }
  destruct (destroy_throws W id); simpl; rewrite Hp; [now left|].
  destruct (decide (id = i)) as [->|Hne].
  - right. apply list_lookup_alter_eq.
  - left. now apply list_lookup_alter_ne.
Qed.

Lemma Main2_cleanupSession_teardown W now uid s id :
  map_get uid (Main2.activeClients s) = Some id ->
  Main2.heap (Main2.cleanupSession W now uid s) !! id
  = (if destroy_throws W id then Main2.heap s !! id
     else set_destroyed <$> Main2.heap s !! id) /\
  forall i, i <> id ->
    Main2.heap (Main2.cleanupSession W now uid s) !! i = Main2.heap s !! i.
Proof.
  intros Hget. unfold Main2.cleanupSession. rewrite Hget.
  assert (Hp : forall b : bool,
             Main2.heap (if b then Main2.preserveSession W now uid id s else s)
             = Main2.heap s).
  { intros []; [|reflexivity]. unfold Main2.preserveSession.
    now destruct (page_ok W id). }
  destruct (destroy_throws W id); simpl; rewrite Hp.
  - now split.
  - split; [apply list_lookup_alter_eq|].
    intros i Hne. apply list_lookup_alter_ne. congruence.
Qed.

Lemma Main2_cleanupSession_unregistered W now uid s :
  map_get uid (Main2.activeClients s) = None ->
  Main2.cleanupSession W now uid s = s.
Proof. intros H. unfold Main2.cleanupSession. now rewrite H. Qed.



(** ** The inactivity sweep (C7) *)

Lemma filter_all {A} (l : list A) : List.filter (fun _ => true) l = l.
Proof. induction l; simpl; congruence. Qed.

Lemma filter_filter {A} (p q : A -> bool) (l : list A) :
  List.filter p (List.filter q l) = List.filter (fun x => q x && p x) l.
Proof.
  induction l as [|x l IH]; simpl; [reflexivity|].
  destruct (q x); simpl; [destruct (p x)|]; now rewrite IH.
Qed.

Lemma NoDup_keys_inj {V} (l : list (string * V)) e e' :
  NoDup (map fst l) -> In e l -> In e' l -> fst e = fst e' -> e = e'.
Proof.
  induction l as [|x l IH]; simpl; [contradiction|].
  intros Hnd [->|He] [->|He'] Hk; inversion_clear Hnd as [|? ? Hx Hl].
  - reflexivity.
  - exfalso. apply Hx, list_elem_of_In. rewrite Hk. now apply in_map.
  - exfalso. apply Hx, list_elem_of_In. rewrite <- Hk. now apply in_map.
  - now apply IH.
Qed.

Section SweepFacts.
Context {S : Type}.
Variables (active : S -> list (string * nat)) (hp : S -> list clientState).
Variables (cleanup : string -> S -> S) (threshold now : Z).
Hypothesis cleanup_active :
  forall u s, active (cleanup u s) = map_delete u (active s).
Hypothesis cleanup_heap :
  forall u s i,
    lastActivity <$> hp (cleanup u s) !! i = lastActivity <$> hp s !! i.

Let entry (s : S) (e : string * nat) : S :=
  match hp s !! snd e with
  | Some c => if now - lastActivity c >? threshold
              then cleanup (fst e) s else s
  | None => s
  end.

Let hit (h : list clientState) (l : list (string * nat))
    (e : string * nat) : bool :=
  existsb (fun e' => String.eqb (fst e) (fst e') && stale threshold now h e')
          l.

Lemma stale_ext h h' e :
  (forall i, lastActivity <$> h !! i = lastActivity <$> h' !! i) ->
  stale threshold now h e = stale threshold now h' e.
Proof.
  intros H. unfold stale. specialize (H (snd e)).
  destruct (h !! snd e), (h' !! snd e); simpl in H; congruence.
Qed.

Lemma entry_stale s e :
  entry s e = if stale threshold now (hp s) e then cleanup (fst e) s else s.
Proof. unfold entry, stale. now destruct (hp s !! snd e). Qed.

Lemma fold_entry l : forall s h,
  (forall i, lastActivity <$> hp s !! i = lastActivity <$> h !! i) ->
  active (fold_left entry l s)
  = List.filter (fun e => negb (hit h l e)) (active s).
Proof.
  induction l as [|a l IH]; intros s h H; simpl.
  - apply eq_sym, filter_all.
  - rewrite entry_stale, (stale_ext _ h) by exact H.
    destruct (stale threshold now h a) eqn:Ea.
    + rewrite (IH _ h).
      * rewrite cleanup_active. unfold map_delete. rewrite filter_filter.
        apply filter_ext. intros e. rewrite andb_true_r.
        now destruct (String.eqb (fst e) (fst a)).
      * intros i. now rewrite cleanup_heap.
    + rewrite (IH _ h) by exact H.
      apply filter_ext. intros e. now rewrite andb_false_r.
Qed.

Lemma sweep_filter s :
  NoDup (map fst (active s)) ->
  active (fold_left entry (active s) s)
  = List.filter (fun e => negb (stale threshold now (hp s) e)) (active s).
Proof.
  intros Hnd. rewrite (fold_entry _ s (hp s)) by reflexivity.
  apply filter_ext_in. intros e He. f_equal. unfold hit.
  destruct (stale threshold now (hp s) e) eqn:Ee.
  - apply existsb_exists. exists e. rewrite String.eqb_refl, Ee. now split.
  - apply not_true_is_false. intros Hex.
    apply existsb_exists in Hex as (e' & He' & Hb).
    apply andb_prop in Hb as [Hk Hs]. apply String.eqb_eq in Hk.
    rewrite <- (NoDup_keys_inj _ e e' Hnd He He' Hk) in Hs. congruence.
Qed.
End SweepFacts.

Lemma Part000_cleanupSession_cell W uid s i :
  Part000.heap (Part000.cleanupSession W uid s) !! i = Part000.heap s !! i \/
  Part000.heap (Part000.cleanupSession W uid s) !! i
  = set_destroyed <$> Part000.heap s !! i.
Proof.
  unfold Part000.cleanupSession.
  destruct (map_get uid (Part000.activeClients s)) as [id|]; [|now left].
  destruct (destroy_throws W id); simpl; [now left|].
  destruct (decide (id = i)) as [->|Hne].
  - right. apply list_lookup_alter_eq.
  - left. now apply list_lookup_alter_ne.
Qed.

Lemma lastActivity_set_destroyed (o : option clientState) :
  lastActivity <$> (set_destroyed <$> o) = lastActivity <$> o.
Proof. now destruct o. Qed.

Lemma NoDup_keys_delete {V} k (m : list (string * V)) :
  NoDup (map fst m) -> NoDup (map fst (map_delete k m)).
Proof.
  induction m as [|[k' v'] m IH]; simpl; [intros; constructor|].
  intros Hnd. inversion_clear Hnd as [|? ? Hx Hm].
  destruct (String.eqb k' k); simpl; [now apply IH|].
  constructor; [|now apply IH].
  intros Hin. apply Hx. apply list_elem_of_In in Hin. apply list_elem_of_In.
  apply in_map_iff in Hin as (e & He & Hf). apply filter_In in Hf as [Hf _].
  apply in_map_iff. now exists e.
Qed.

Lemma NoDup_keys_get {V} k (v : V) m :
  NoDup (map fst m) -> In (k, v) m -> map_get k m = Some v.
Proof.
  induction m as [|[k' v'] m IH]; simpl; [contradiction|].
  intros Hnd [[= -> ->]|Hin]; [now rewrite String.eqb_refl|].
  inversion_clear Hnd as [|? ? Hx Hm].
  destruct (String.eqb k' k) eqn:E; [|now apply IH].
  apply String.eqb_eq in E. subst k'. exfalso. apply Hx.
  apply list_elem_of_In. apply in_map_iff. now exists (k, v).
Qed.

Section SweepTeardown.
Context {S : Type}.
Variables (active : S -> list (string * nat)) (hp : S -> list clientState).
Variables (cleanup : string -> S -> S) (fails : nat -> bool).
Variables (threshold now : Z).
Hypothesis cleanup_active :
  forall u s, active (cleanup u s) = map_delete u (active s).
Hypothesis cleanup_registered :
  forall u s id,
    map_get u (active s) = Some id ->
    hp (cleanup u s) !! id
    = (if fails id then hp s !! id else set_destroyed <$> hp s !! id) /\
    forall i, i <> id -> hp (cleanup u s) !! i = hp s !! i.

Let entry (s : S) (e : string * nat) : S :=
  match hp s !! snd e with
  | Some c => if now - lastActivity c >? threshold
              then cleanup (fst e) s else s
  | None => s
  end.

(** The client objects after the loop: [destroy] has completed on those
    the sweep reaches, the others are as they were. *)
Lemma fold_teardown h l : forall s,
  NoDup (map fst l) ->
  NoDup (map fst (active s)) ->
  (forall e, In e l -> In e (active s)) ->
  (forall i, lastActivity <$> hp s !! i = lastActivity <$> h !! i) ->
  forall i,
    hp (fold_left entry l s) !! i
    = if swept fails threshold now h l i then set_destroyed <$> hp s !! i
      else hp s !! i.
Proof.
  induction l as [|e l IH]; intros s Hl Hs Hin Hla i; [reflexivity|].
  inversion_clear Hl as [|? ? He Hl'].
  assert (Hst : entry s e
                = if stale threshold now h e then cleanup (fst e) s else s).
  { unfold entry, stale. specialize (Hla (snd e)).
    destruct (hp s !! snd e) as [c|], (h !! snd e) as [c'|];
      simpl in Hla; try discriminate; [|reflexivity].
    injection Hla as ->. reflexivity. }
  cbn [fold_left]. rewrite Hst. unfold swept. cbn [existsb].
  fold (swept fails threshold now h l i).
  destruct (stale threshold now h e) eqn:Ee; cbn [andb].
  - assert (Hget : map_get (fst e) (active s) = Some (snd e)).
    { apply NoDup_keys_get; [exact Hs|]. destruct e. apply Hin. now left. }
    destruct (cleanup_registered (fst e) s (snd e) Hget) as [Hcell Hother].
    rewrite IH; [| exact Hl' | | |].
    + destruct (Nat.eqb (snd e) i) eqn:Ei; cbn [andb orb].
      * apply Nat.eqb_eq in Ei. subst i. rewrite Hcell.
        destruct (fails (snd e)); cbn [negb]; [reflexivity|].
        destruct (swept fails threshold now h l (snd e));
          now destruct (hp s !! snd e).
      * apply Nat.eqb_neq in Ei. rewrite Hother by congruence. reflexivity.
    + rewrite cleanup_active. now apply NoDup_keys_delete.
    + intros e' He'. rewrite cleanup_active. apply filter_In.
      split; [apply Hin; now right|].
      apply negb_true_iff, String.eqb_neq. intros Heq. apply He.
      apply list_elem_of_In. rewrite <- Heq. now apply in_map.
    + intros j. rewrite <- Hla. destruct (decide (j = snd e)) as [->|Hne].
      * rewrite Hcell. destruct (fails (snd e)); [reflexivity|].
        apply lastActivity_set_destroyed.
      * now rewrite Hother.
  - apply IH; [exact Hl' | exact Hs | | exact Hla].
    intros e' He'. apply Hin. now right.
Qed.

Lemma sweep_teardown s :
  NoDup (map fst (active s)) ->
  forall i,
    hp (fold_left entry (active s) s) !! i
    = if swept fails threshold now (hp s) (active s) i
      then set_destroyed <$> hp s !! i else hp s !! i.
Proof.
  intros Hnd. apply fold_teardown; try assumption; [now intros|reflexivity].
Qed.
End SweepTeardown.

Lemma Part000_cleanupSession_teardown W uid s id :
  map_get uid (Part000.activeClients s) = Some id ->
  Part000.heap (Part000.cleanupSession W uid s) !! id
  = (if destroy_throws W id then Part000.heap s !! id
     else set_destroyed <$> Part000.heap s !! id) /\
  forall i, i <> id ->
    Part000.heap (Part000.cleanupSession W uid s) !! i = Part000.heap s !! i.
Proof.
  intros Hget. unfold Part000.cleanupSession. rewrite Hget.
  destruct (destroy_throws W id); simpl; [now split|].
  split; [apply list_lookup_alter_eq|].
  intros i Hne. apply list_lookup_alter_ne. congruence.
Qed.

(** C7, as stated, fails: the loop of the interval tests the idle time
    only.  In [main2.js] a record that left 'ready' (here: the driver
    issues a new scan code) is torn down while 'pending'; in the third
    unnamed source, which has no initialization deadline, so is a record
    that never got further than its scan code. *)
Lemma sweep_removes_pending_record :
  let s := Main2.run [(calm, 0, Main2.ReqInit (Some "Bearer a"));
                      (calm, 10, Main2.EvReady 0%nat);
                      (calm, 20, Main2.EvQr 0%nat (Some "qr"))]
                     Main2.initial in
  let t := Part002.on_qr 0 (Some "qr")
             (snd (Part002.initializeClient calm 0 "a" Part002.initial)) in
  (Main2.lookup "a" s
   = Some (0%nat, mkClient "a" pending (Some "qr") 10 (Some Resolved)
                           false false) /\
   Main2.lookup "a" (Main2.sweep calm 300011 s) = None /\
   destroyed <$> Main2.heap (Main2.sweep calm 300011 s) !! 0%nat = Some true)
  /\
  (Part002.lookup "a" t
   = Some (0%nat, mkClient "a" pending (Some "qr") 0 None false false) /\
   Part002.lookup "a" (Part002.sweep calm 3600001 t) = None).
Proof. repeat split. Qed.

(** C7 (amended): a sweep tick goes through the registry and calls
    [cleanupSession] for exactly the records idle for more than the
    threshold, whatever their status.  Afterwards the registry holds the
    other records and no more, [destroy] has completed on the clients of
    the records removed (unless the call failed), and every other client
    object is as it was. *)
Theorem sweep_removes_stale W now :
  (forall s,
     NoDup (map fst (Main2.activeClients s)) ->
     Main2.activeClients (Main2.sweep W now s)
     = List.filter
         (fun e => negb (stale INACTIVITY_TIMEOUT now (Main2.heap s) e))
         (Main2.activeClients s) /\
     forall i,
       Main2.heap (Main2.sweep W now s) !! i
       = if swept (destroy_throws W) INACTIVITY_TIMEOUT now (Main2.heap s)
                  (Main2.activeClients s) i
         then set_destroyed <$> Main2.heap s !! i else Main2.heap s !! i) /\
  (forall s,
     NoDup (map fst (Part000.activeClients s)) ->
     Part000.activeClients (Part000.sweep W now s)
     = List.filter
         (fun e => negb (stale INACTIVITY_TIMEOUT now (Part000.heap s) e))
         (Part000.activeClients s) /\
     forall i,
       Part000.heap (Part000.sweep W now s) !! i
       = if swept (destroy_throws W) INACTIVITY_TIMEOUT now (Part000.heap s)
                  (Part000.activeClients s) i
         then set_destroyed <$> Part000.heap s !! i else Part000.heap s !! i).
Proof.
  split; intros s Hnd; split.
  - apply (sweep_filter Main2.activeClients Main2.heap
             (Main2.cleanupSession W now) INACTIVITY_TIMEOUT now); [| |exact Hnd].
    + intros. apply Main2_cleanupSession_active.
    + intros u s0 i.
      destruct (Main2_cleanupSession_cell W now u s0 i) as [-> | ->];
        [reflexivity | apply lastActivity_set_destroyed].
  - apply (sweep_teardown Main2.activeClients Main2.heap
             (Main2.cleanupSession W now) (destroy_throws W)
             INACTIVITY_TIMEOUT now); [| |exact Hnd].
    + intros. apply Main2_cleanupSession_active.
    + intros u s0 id. apply Main2_cleanupSession_teardown.
  - apply (sweep_filter Part000.activeClients Part000.heap
             (Part000.cleanupSession W) INACTIVITY_TIMEOUT now); [| |exact Hnd].
    + intros. apply Part000_cleanupSession_active.
    + intros u s0 i.
      destruct (Part000_cleanupSession_cell W u s0 i) as [-> | ->];
        [reflexivity | apply lastActivity_set_destroyed].
  - apply (sweep_teardown Part000.activeClients Part000.heap
             (Part000.cleanupSession W) (destroy_throws W)
             INACTIVITY_TIMEOUT now); [| |exact Hnd].
    + intros. apply Part000_cleanupSession_active.
    + intros u s0 id. apply Part000_cleanupSession_teardown.
Qed.

Lemma sweep_removes_stale_witness :
  let s := Main2.run [(calm, 0, Main2.ReqInit (Some "Bearer a"));
                      (calm, 10, Main2.EvReady 0%nat);
                      (calm, 200000, Main2.ReqInit (Some "Bearer b"));
                      (calm, 200010, Main2.EvReady 1%nat)]
                     Main2.initial in
  NoDup (map fst (Main2.activeClients s)) /\
  Main2.activeClients (Main2.sweep calm 300011 s) = [("b", 1%nat)] /\
  destroyed <$> Main2.heap (Main2.sweep calm 300011 s) !! 0%nat = Some true /\
  destroyed <$> Main2.heap (Main2.sweep calm 300011 s) !! 1%nat = Some false.
Proof.
  assert (H : NoDup ["a"; "b"]).
  { repeat constructor; rewrite list_elem_of_In; simpl; intuition discriminate. }
  split; [exact H|].
  destruct (proj1 (sweep_removes_stale calm 300011)
              (Main2.run [(calm, 0, Main2.ReqInit (Some "Bearer a"));
                          (calm, 10, Main2.EvReady 0%nat);
                          (calm, 200000, Main2.ReqInit (Some "Bearer b"));
                          (calm, 200010, Main2.EvReady 1%nat)]
                         Main2.initial) H) as [Hreg Hcells].
  split; [exact Hreg|]. split.
  - rewrite (Hcells 0%nat). reflexivity.
  - rewrite (Hcells 1%nat). reflexivity.
Defined.

(** ** Retrying a failing initialization (C5) *)

Lemma created_app tr tr' : created (tr ++ tr') = (created tr ++ created tr')%list.
Proof. apply omap_app. Qed.

Lemma fresh_app n1 n2 n3 tr tr' :
  fresh n1 n2 tr -> fresh n2 n3 tr' -> fresh n1 n3 (tr ++ tr').
Proof.
  intros (H12 & F1 & N1) (H23 & F2 & N2). unfold fresh, created in *.
  rewrite omap_app. repeat split.
  - lia.
  - apply Forall_app. split; eapply Forall_impl; eauto; simpl; lia.
  - apply NoDup_app. repeat split; [assumption| |assumption].
    intros x Hx Hx'.
    rewrite Forall_forall in F1, F2.
    specialize (F1 x Hx). specialize (F2 x Hx'). lia.
Qed.

Lemma fresh_nil n n' : (n <= n')%nat -> fresh n n' [].
Proof. intros H. repeat split; [assumption|constructor|constructor]. Qed.

Lemma fresh_widen n n' m tr : fresh n n' tr -> (m <= n)%nat -> fresh m n' tr.
Proof.
  intros (H & F & N) Hm. repeat split; [lia| |assumption].
  eapply Forall_impl; eauto. simpl. lia.
Qed.

Section RetryFacts.
Context {state : Type}.
Variable attempt : Z -> nat -> string -> state -> list Trace * state * Attempt.
Variable forget : string -> state -> state.
Variable clock : nat -> Z.
Variables (size : state -> nat) (unready absent : state -> Prop).
Variables (uid : string) (failure : Error -> Prop).

(** Every pass through the [try] block throws, without waiting. *)
Hypothesis attempt_fails :
  forall now rc s, unready s ->
    exists tr s' e,
      attempt now rc uid s = (tr, s', AThrow e) /\ failure e /\
      retries tr = [] /\ delays tr = [] /\ fresh (size s) (size s') tr.
Hypothesis forget_absent : forall s, absent (forget uid s).
Hypothesis absent_unready : forall s, absent s -> unready s.
Hypothesis forget_size : forall s, size (forget uid s) = size s.

Lemma catch_exhausts fuel : forall rc e s,
  (rc <= MAX_RETRIES)%nat -> (MAX_RETRIES <= fuel + rc)%nat -> failure e ->
  exists tr s' e',
    catch attempt forget clock fuel rc uid e s = (tr, s', Final_throw e') /\
    failure e' /\ absent s' /\
    retries tr = seq (S rc) (MAX_RETRIES - rc) /\
    delays tr = repeat 2000 (MAX_RETRIES - rc) /\
    fresh (size s) (size s') tr.
Proof.
  induction fuel as [|fuel IH]; intros rc e s Hrc Hfuel He; simpl.
  - assert (rc = MAX_RETRIES) as -> by lia.
    rewrite Nat.ltb_irrefl, Nat.sub_diag.
    exists [], (forget uid s), e.
    split; [reflexivity|]. split; [assumption|].
    split; [apply forget_absent|]. do 2 (split; [reflexivity|]).
    apply fresh_nil. rewrite forget_size. lia.
  - destruct (rc <? MAX_RETRIES)%nat eqn:Elt.
    + apply Nat.ltb_lt in Elt.
      destruct (attempt_fails (clock (S rc)) (S rc) (forget uid s))
        as (tr & s2 & e2 & -> & He2 & Hr & Hd & Hf);
        [apply absent_unready, forget_absent|].
      destruct (IH (S rc) e2 s2) as (tr' & s3 & e3 & -> & He3 & Ha & Hr' & Hd' & Hf');
        [lia | lia | assumption |].
      eexists _, s3, e3. split; [reflexivity|].
      split; [assumption|]. split; [assumption|].
      replace (MAX_RETRIES - rc)%nat with (S (MAX_RETRIES - S rc)) by lia.
      split; [|split].
      * unfold retries in *. simpl. now rewrite omap_app, Hr, Hr'.
      * unfold delays in *. simpl. now rewrite omap_app, Hd, Hd'.
      * rewrite forget_size in Hf.
        apply (fresh_app _ _ _ _ _ Hf Hf').
    + apply Nat.ltb_ge in Elt. assert (rc = MAX_RETRIES) as -> by lia.
      rewrite Nat.sub_diag.
      exists [], (forget uid s), e.
      split; [reflexivity|]. split; [assumption|].
      split; [apply forget_absent|]. do 2 (split; [reflexivity|]).
      apply fresh_nil. rewrite forget_size. lia.
Qed.

Lemma initializeClient_exhausts s :
  unready s ->
  exists tr s' e,
    initializeClient_from attempt forget clock MAX_RETRIES 0 uid s
    = (tr, s', Final_throw e) /\
    failure e /\ absent s' /\
    retries tr = seq 1 MAX_RETRIES /\
    delays tr = repeat 2000 MAX_RETRIES /\
    fresh (size s) (size s') tr.
Proof.
  intros Hs. unfold initializeClient_from.
  destruct (attempt_fails (clock 0%nat) 0%nat s Hs)
    as (tr & s1 & e1 & -> & He1 & Hr & Hd & Hf).
  destruct (catch_exhausts MAX_RETRIES 0%nat e1 s1)
    as (tr' & s2 & e2 & -> & He2 & Ha & Hr' & Hd' & Hf'); [lia|lia|assumption|].
  exists (tr ++ tr')%list, s2, e2. split; [reflexivity|].
  split; [assumption|]. split; [assumption|]. split; [|split].
  - unfold retries in *. now rewrite omap_app, Hr, Hr'.
  - unfold delays in *. now rewrite omap_app, Hd, Hd'.
  - apply (fresh_app _ _ _ _ _ Hf Hf').
Qed.
End RetryFacts.

(** When every attempt gets as far as [new Client], each of them builds
    one handle: the store grows by one object per attempt. *)
Section RetryHandles.
Context {state : Type}.
Variable attempt : Z -> nat -> string -> state -> list Trace * state * Attempt.
Variable forget : string -> state -> state.
Variable clock : nat -> Z.
Variables (size : state -> nat) (unready : state -> Prop) (uid : string).

Hypothesis attempt_starts :
  forall now rc s, unready s ->
    exists tr s' e,
      attempt now rc uid s = (tr, s', AThrow e) /\
      created tr = [size s] /\ size s' = S (size s).
Hypothesis forget_unready : forall s, unready (forget uid s).
Hypothesis forget_size : forall s, size (forget uid s) = size s.

Lemma catch_created fuel : forall rc e s,
  (rc <= MAX_RETRIES)%nat -> (MAX_RETRIES <= fuel + rc)%nat ->
  created (fst (fst (catch attempt forget clock fuel rc uid e s)))
  = seq (size s) (MAX_RETRIES - rc).
Proof.
  induction fuel as [|fuel IH]; intros rc e s Hrc Hfuel; cbn [catch].
  - assert (rc = MAX_RETRIES) as -> by lia.
    now rewrite Nat.ltb_irrefl, Nat.sub_diag.
  - destruct (rc <? MAX_RETRIES)%nat eqn:Elt.
    + apply Nat.ltb_lt in Elt.
      destruct (attempt_starts (clock (S rc)) (S rc) (forget uid s))
        as (tr & s2 & e2 & -> & Hc & Hs); [apply forget_unready|].
      assert (H : created (fst (fst (catch attempt forget clock fuel (S rc)
                                       uid e2 s2)))
                  = seq (size s2) (MAX_RETRIES - S rc)) by (apply IH; lia).
      destruct (catch attempt forget clock fuel (S rc) uid e2 s2)
        as [[tr' s3] r].
      cbn [fst snd] in *. rewrite created_app.
      change (created (Retrying (S rc) :: Delay 2000 :: tr)) with (created tr).
      rewrite Hc, H, Hs, forget_size.
      replace (MAX_RETRIES - rc)%nat with (S (MAX_RETRIES - S rc)) by lia.
      reflexivity.
    + apply Nat.ltb_ge in Elt. assert (rc = MAX_RETRIES) as -> by lia.
      now rewrite Nat.sub_diag.
Qed.

Lemma initializeClient_created s :
  unready s ->
  created (fst (fst (initializeClient_from attempt forget clock
                       MAX_RETRIES 0 uid s)))
  = seq (size s) (S MAX_RETRIES).
Proof.
  intros Hs. unfold initializeClient_from.
  destruct (attempt_starts (clock 0%nat) 0%nat s Hs)
    as (tr & s1 & e1 & -> & Hc & Hs1).
  assert (H : created (fst (fst (catch attempt forget clock MAX_RETRIES 0
                                   uid e1 s1)))
              = seq (size s1) (MAX_RETRIES - 0)) by (apply catch_created; lia).
  destruct (catch attempt forget clock MAX_RETRIES 0 uid e1 s1)
    as [[tr' s2] r].
  cbn [fst snd] in *.
  rewrite created_app, Hc, H, Hs1, Nat.sub_0_r. reflexivity.
Qed.
End RetryHandles.

Lemma Part000_cleanupSession_size W uid s :
  length (Part000.heap (Part000.cleanupSession W uid s))
  = length (Part000.heap s).
Proof.
  unfold Part000.cleanupSession.
  destruct (map_get uid (Part000.activeClients s)) as [id|]; [|reflexivity].
  destruct (destroy_throws W id); simpl; [reflexivity|apply length_alter].
Qed.

Lemma Part000_ensureDir_heap uid s :
  Part000.heap (Part000.ensureDir uid s) = Part000.heap s.
Proof. unfold Part000.ensureDir. now destruct (Part000.pathExists uid s). Qed.

Lemma fresh_one n : fresh n (S n) [NewClient n].
Proof.
  repeat split; [lia| |].
  - repeat constructor; lia.
  - apply NoDup_singleton.
Qed.

Section Part000_retry.
Variables (W : Oracle) (uid : string).
Hypothesis files_ok : fs_throws W uid = false.
Hypothesis driver_fails :
  forall rc id, create_throws W uid rc = true \/ initialize_throws W id = true.

Lemma Part000_build_fails now rc s :
  exists tr s' e,
    Part000.build W now rc uid s = (tr, s', AThrow e) /\
    DriverInitFailure e /\ retries tr = [] /\ delays tr = [] /\
    fresh (length (Part000.heap s)) (length (Part000.heap s')) tr.
Proof.
  unfold Part000.build.
  set (slot := if (MAX_INSTANCES <=? _)%nat then _ else _).
  assert (Hslot : exists tr1 s1, slot = (tr1, s1) /\
            length (Part000.heap s1) = length (Part000.heap s) /\
            retries tr1 = [] /\ delays tr1 = [] /\ created tr1 = []).
  { subst slot. destruct (MAX_INSTANCES <=? _)%nat;
      [destruct (Part000.oldest now s) as [old|]|].
    - exists [Teardown old], (Part000.cleanupSession W old s).
      now rewrite Part000_cleanupSession_size.
    - now exists [], s.
    - now exists [], s. }
  destruct Hslot as (tr1 & s1 & -> & Hlen & Hr & Hd & Hc).
  rewrite files_ok, andb_false_r.
  destruct (create_throws W uid rc) eqn:Ec.
  - exists tr1, (Part000.ensureDir uid s1), ErrDriverCreate.
    split; [reflexivity|]. split; [now left|]. do 2 (split; [assumption|]).
    rewrite Part000_ensureDir_heap, Hlen.
    repeat split; [lia|rewrite Hc; constructor|rewrite Hc; constructor].
  - destruct (driver_fails rc (length (Part000.heap (Part000.ensureDir uid s1))))
      as [H|H]; [congruence|]. rewrite H.
    eexists _, _, ErrDriverInitialize.
    split; [reflexivity|]. split; [now right|].
    unfold retries, delays in *. rewrite !omap_app, Hr, Hd.
    do 2 (split; [reflexivity|]). simpl.
    rewrite length_app, Part000_ensureDir_heap, Hlen. simpl.
    rewrite Nat.add_1_r.
    unfold fresh, created in *. rewrite omap_app, Hc. apply fresh_one.
Qed.

Lemma Part000_attempt_fails now rc s :
  unready (Part000.lookup uid s) ->
  exists tr s' e,
    Part000.attempt W now rc uid s = (tr, s', AThrow e) /\
    DriverInitFailure e /\ retries tr = [] /\ delays tr = [] /\
    fresh (length (Part000.heap s)) (length (Part000.heap s')) tr.
Proof.
  unfold Part000.attempt, unready.
  destruct (Part000.lookup uid s) as [[id c]|]; [|intros _; apply Part000_build_fails].
  intros Hs. destruct (Status_eqb (status c) ready) eqn:E;
    [apply Status_eqb_eq in E; contradiction|].
  destruct (_ || _); [|apply Part000_build_fails].
  rewrite <- (Part000_cleanupSession_size W uid s).
  apply Part000_build_fails.
Qed.
Hypothesis client_built : forall rc, create_throws W uid rc = false.

Lemma Part000_build_starts now rc s :
  exists tr s' e,
    Part000.build W now rc uid s = (tr, s', AThrow e) /\
    created tr = [length (Part000.heap s)] /\
    length (Part000.heap s') = S (length (Part000.heap s)).
Proof.
  unfold Part000.build.
  assert (Hslot : exists tr1 s1,
            (if (MAX_INSTANCES <=? length (Part000.activeClients s))%nat
             then match Part000.oldest now s with
                  | Some old => ([Teardown old], Part000.cleanupSession W old s)
                  | None => ([], s)
                  end
             else ([], s)) = (tr1, s1) /\
            length (Part000.heap s1) = length (Part000.heap s) /\
            created tr1 = []).
  { destruct (MAX_INSTANCES <=? _)%nat;
      [destruct (Part000.oldest now s) as [old|]|].
    - exists [Teardown old], (Part000.cleanupSession W old s).
      now rewrite Part000_cleanupSession_size.
    - now exists [], s.
    - now exists [], s. }
  destruct Hslot as (tr1 & s1 & -> & Hlen & Hc).
  rewrite files_ok, andb_false_r, client_built.
  destruct (driver_fails rc (length (Part000.heap (Part000.ensureDir uid s1))))
    as [H|H]; [rewrite client_built in H; discriminate|]. rewrite H.
  eexists _, _, _. split; [reflexivity|].
  unfold created in *. rewrite omap_app, Hc. simpl.
  rewrite length_app, Part000_ensureDir_heap, Hlen. simpl.
  split; [reflexivity | lia].
Qed.

Lemma Part000_attempt_starts now rc s :
  unready (Part000.lookup uid s) ->
  exists tr s' e,
    Part000.attempt W now rc uid s = (tr, s', AThrow e) /\
    created tr = [length (Part000.heap s)] /\
    length (Part000.heap s') = S (length (Part000.heap s)).
Proof.
  unfold Part000.attempt, unready.
  destruct (Part000.lookup uid s) as [[id c]|];
    [|intros _; apply Part000_build_starts].
  intros Hs. destruct (Status_eqb (status c) ready) eqn:E;
    [apply Status_eqb_eq in E; contradiction|].
  destruct (_ || _); [|apply Part000_build_starts].
  rewrite <- (Part000_cleanupSession_size W uid s).
  apply Part000_build_starts.
Qed.
End Part000_retry.

Lemma Part001_less_busy_some pool : forall i n,
  fst (fold_left Part001.less_busy pool (Some i, Some n)) <> None.
Proof.
  induction pool as [|e pool IH]; intros i n; simpl; [discriminate|].
  unfold Part001.less_busy at 2. simpl.
  destruct (length (snd e) <? n)%nat; apply IH.
Qed.

Lemma Part001_getClientInstance_some s :
  exists instance s',
    Part001.getClientInstance s = (Some instance, s') /\
    Part001.heap s' = Part001.heap s /\
    Part001.activeClients s' = Part001.activeClients s.
Proof.
  unfold Part001.getClientInstance.
  destruct (fst (fold_left Part001.less_busy (Part001.clientPool s) (None, None)))
    as [i|] eqn:E; [now exists i, s|].
  destruct (Part001.clientPool s) as [|e pool] eqn:Ep.
  - simpl. eexists _, _. split; [reflexivity|]. now split.
  - exfalso. simpl in E. now apply Part001_less_busy_some in E.
Qed.

Lemma Part001_lookup_absent uid s :
  map_get uid (Part001.activeClients s) = None -> Part001.lookup uid s = None.
Proof. unfold Part001.lookup. now intros ->. Qed.

Section Part001_retry.
Variables (W : Oracle) (uid : string).
Hypothesis files_ok : fs_throws W uid = false.
Hypothesis driver_fails :
  forall rc id, create_throws W uid rc = true \/ initialize_throws W id = true.

Lemma Part001_build_fails now rc s :
  exists tr s' e,
    Part001.build W now rc uid s = (tr, s', AThrow e) /\
    DriverInitFailure e /\ retries tr = [] /\ delays tr = [] /\
    fresh (length (Part001.heap s)) (length (Part001.heap s')) tr.
Proof.
  unfold Part001.build.
  destruct (Part001.loadSession W uid s) as [saved s1] eqn:El.
  assert (Hh : Part001.heap s1 = Part001.heap s).
  { unfold Part001.loadSession in El. rewrite files_ok in El.
    destruct (map_get uid (Part001.sessionFiles s));
      injection El as _ <-; reflexivity. }
  destruct (Part001_getClientInstance_some s1) as (i & s2 & -> & Hh2 & _).
  rewrite files_ok.
  destruct (create_throws W uid rc) eqn:Ec.
  - exists [], s2, ErrDriverCreate.
    split; [reflexivity|]. split; [now left|].
    do 2 (split; [reflexivity|]). rewrite Hh2, Hh. now apply fresh_nil.
  - destruct (driver_fails rc (length (Part001.heap s2))) as [H|H];
      [congruence|]. rewrite H.
    eexists _, _, ErrDriverInitialize.
    split; [reflexivity|]. split; [now right|].
    do 2 (split; [reflexivity|]). simpl.
    rewrite length_app, Hh2, Hh. simpl. rewrite Nat.add_1_r.
    apply fresh_one.
Qed.

Lemma Part001_attempt_fails now rc s :
  unready (Part001.lookup uid s) ->
  exists tr s' e,
    Part001.attempt W now rc uid s = (tr, s', AThrow e) /\
    DriverInitFailure e /\ retries tr = [] /\ delays tr = [] /\
    fresh (length (Part001.heap s)) (length (Part001.heap s')) tr.
Proof.
  unfold Part001.attempt, unready.
  destruct (Part001.lookup uid s) as [[id c]|];
    [|intros _; apply Part001_build_fails].
  intros Hs. destruct (Status_eqb (status c) ready) eqn:E;
    [apply Status_eqb_eq in E; contradiction | apply Part001_build_fails].
Qed.
Hypothesis client_built : forall rc, create_throws W uid rc = false.

Lemma Part001_build_starts now rc s :
  exists tr s' e,
    Part001.build W now rc uid s = (tr, s', AThrow e) /\
    created tr = [length (Part001.heap s)] /\
    length (Part001.heap s') = S (length (Part001.heap s)).
Proof.
  unfold Part001.build.
  destruct (Part001.loadSession W uid s) as [saved s1] eqn:El.
  assert (Hh : Part001.heap s1 = Part001.heap s).
  { unfold Part001.loadSession in El. rewrite files_ok in El.
    destruct (map_get uid (Part001.sessionFiles s));
      injection El as _ <-; reflexivity. }
  destruct (Part001_getClientInstance_some s1) as (i & s2 & -> & Hh2 & _).
  rewrite files_ok, client_built.
  destruct (driver_fails rc (length (Part001.heap s2))) as [H|H];
    [rewrite client_built in H; discriminate|]. rewrite H.
  eexists _, _, _. split; [reflexivity|]. simpl.
  rewrite length_app, Hh2, Hh. simpl. split; [reflexivity | lia].
Qed.

Lemma Part001_attempt_starts now rc s :
  unready (Part001.lookup uid s) ->
  exists tr s' e,
    Part001.attempt W now rc uid s = (tr, s', AThrow e) /\
    created tr = [length (Part001.heap s)] /\
    length (Part001.heap s') = S (length (Part001.heap s)).
Proof.
  unfold Part001.attempt, unready.
  destruct (Part001.lookup uid s) as [[id c]|];
    [|intros _; apply Part001_build_starts].
  intros Hs. destruct (Status_eqb (status c) ready) eqn:E;
    [apply Status_eqb_eq in E; contradiction | apply Part001_build_starts].
Qed.
End Part001_retry.

(** C5: when every attempt to create or start the driver fails,
    [initializeClient] (first and second unnamed source) announces the
    retries 1 and 2, waits 2000 ms before each, builds a new handle in
    every attempt that gets as far as [new Client] (three handles when
    all do), rejects with the driver's error and leaves no record of the
    tenant in the registry. *)
Theorem retry_exhausts W clock uid :
  fs_throws W uid = false ->
  (forall rc id,
     create_throws W uid rc = true \/ initialize_throws W id = true) ->
  (forall s,
     unready (Part000.lookup uid s) ->
     exists tr s' e,
       Part000.initializeClient W clock uid s = (tr, s', Final_throw e) /\
       DriverInitFailure e /\
       map_get uid (Part000.activeClients s') = None /\
       retries tr = seq 1 MAX_RETRIES /\
       delays tr = repeat 2000 MAX_RETRIES /\
       fresh (length (Part000.heap s)) (length (Part000.heap s')) tr /\
       ((forall rc, create_throws W uid rc = false) ->
        created tr = seq (length (Part000.heap s)) (S MAX_RETRIES))) /\
  (forall s,
     unready (Part001.lookup uid s) ->
     exists tr s' e,
       Part001.initializeClient W clock uid s = (tr, s', Final_throw e) /\
       DriverInitFailure e /\
       map_get uid (Part001.activeClients s') = None /\
       retries tr = seq 1 MAX_RETRIES /\
       delays tr = repeat 2000 MAX_RETRIES /\
       fresh (length (Part001.heap s)) (length (Part001.heap s')) tr /\
       ((forall rc, create_throws W uid rc = false) ->
        created tr = seq (length (Part001.heap s)) (S MAX_RETRIES))).
Proof.
  intros Hfs Hfail. split; intros s Hs.
  - destruct (initializeClient_exhausts (Part000.attempt W) Part000.forget
                clock (fun s => length (Part000.heap s))
                (fun s => unready (Part000.lookup uid s))
                (fun s => map_get uid (Part000.activeClients s) = None)
                uid DriverInitFailure) with (s := s)
      as (tr & s' & e & Heq & He & Ha & Hr & Hd & Hf); try assumption.
    + intros. now apply Part000_attempt_fails.
    + intros. apply map_get_delete_eq.
    + intros s0 H. unfold Part000.lookup. now rewrite H.
    + reflexivity.
    + exists tr, s', e. repeat (split; [assumption|]).
      intros Hc.
      assert (Hcr : created (fst (fst (Part000.initializeClient W clock uid s)))
                    = seq (length (Part000.heap s)) (S MAX_RETRIES)).
      { apply (initializeClient_created (Part000.attempt W) Part000.forget
                 clock (fun s => length (Part000.heap s))
                 (fun s => unready (Part000.lookup uid s)) uid);
           [| |reflexivity|assumption].
         - intros. now apply Part000_attempt_starts.
         - intros s0. unfold Part000.lookup, Part000.forget. simpl.
           now rewrite map_get_delete_eq. }
      unfold Part000.initializeClient in Hcr. now rewrite Heq in Hcr.
  - destruct (initializeClient_exhausts (Part001.attempt W) Part001.forget
                clock (fun s => length (Part001.heap s))
                (fun s => unready (Part001.lookup uid s))
                (fun s => map_get uid (Part001.activeClients s) = None)
                uid DriverInitFailure) with (s := s)
      as (tr & s' & e & Heq & He & Ha & Hr & Hd & Hf); try assumption.
    + intros. now apply Part001_attempt_fails.
    + intros. apply map_get_delete_eq.
    + intros s0 H. now rewrite Part001_lookup_absent.
    + reflexivity.
    + exists tr, s', e. repeat (split; [assumption|]).
      intros Hc.
      assert (Hcr : created (fst (fst (Part001.initializeClient W clock uid s)))
                    = seq (length (Part001.heap s)) (S MAX_RETRIES)).
      { apply (initializeClient_created (Part001.attempt W) Part001.forget
                 clock (fun s => length (Part001.heap s))
                 (fun s => unready (Part001.lookup uid s)) uid);
           [| |reflexivity|assumption].
         - intros. now apply Part001_attempt_starts.
         - intros s0. unfold Part001.lookup, Part001.forget. simpl.
           now rewrite map_get_delete_eq. }
      unfold Part001.initializeClient in Hcr. now rewrite Heq in Hcr.
Qed.

Lemma retry_exhausts_witness :
  exists s',
    Part000.initializeClient dead_driver (fun k => 2000 * Z.of_nat k) "a"
      Part000.initial
    = ([NewClient 0; Retrying 1; Delay 2000; NewClient 1;
        Retrying 2; Delay 2000; NewClient 2], s',
       Final_throw ErrDriverInitialize) /\
    map_get "a" (Part000.activeClients s') = None.
Proof.
  destruct (proj1 (retry_exhausts dead_driver (fun k => 2000 * Z.of_nat k) "a"
                     eq_refl (fun _ _ => or_intror eq_refl))
              Part000.initial I)
    as (tr & s' & e & H & _ & Ha & _).
  exists s'. split; [|exact Ha].
  rewrite H. vm_compute in H. now injection H as <- <- <-.
Defined.

(** ** The pool capacity (C1) *)


Lemma shrinks_refl s : shrinks s s.
Proof. unfold shrinks. lia. Qed.

Lemma shrinks_trans s1 s2 s3 : shrinks s1 s2 -> shrinks s2 s3 -> shrinks s1 s3.
Proof. unfold shrinks. lia. Qed.

Lemma shrinks_bounded s s' : shrinks s s' -> bounded s -> bounded s'.
Proof. unfold shrinks, bounded. lia. Qed.

Lemma Main2_preserveSession_active W now uid id s :
  Main2.activeClients (Main2.preserveSession W now uid id s)
  = Main2.activeClients s.
Proof. unfold Main2.preserveSession. now destruct (page_ok W id). Qed.

Lemma shrinks_preserveSession W now uid id s :
  shrinks s (Main2.preserveSession W now uid id s).
Proof. unfold shrinks. rewrite Main2_preserveSession_active. lia. Qed.

Lemma shrinks_update id f s : shrinks s (Main2.update id f s).
Proof. unfold shrinks. simpl. lia. Qed.

Lemma shrinks_cleanupSession W now uid s :
  shrinks s (Main2.cleanupSession W now uid s).
Proof.
  unfold shrinks. rewrite Main2_cleanupSession_active. apply length_map_delete.
Qed.

Create HintDb pool.
#[local] Hint Resolve shrinks_refl shrinks_preserveSession shrinks_update
  shrinks_cleanupSession : pool.

Lemma shrinks_via s1 s2 s3 : shrinks s2 s3 -> shrinks s1 s2 -> shrinks s1 s3.
Proof. eauto using shrinks_trans. Qed.

Lemma bounded_initializeClient W now uid s :
  bounded s -> bounded (snd (Main2.initializeClient W now uid s)).
Proof.
  intros Hb. unfold Main2.initializeClient, Main2.initializeClient_check.
  assert (Hcreate :
    (MAX_INSTANCES <=? length (Main2.activeClients s))%nat = false ->
    bounded (snd (Main2.initializeClient_create W now uid s))).
  { intros Hlt. apply Nat.leb_gt in Hlt. unfold Main2.initializeClient_create.
    destruct (fs_throws W uid); [exact Hb|].
    destruct (create_throws W uid 0); [exact Hb|].
    assert (bounded (Main2.with_active
              (map_set uid (length (Main2.heap s)) (Main2.activeClients s))
              (Main2.with_heap
                 (Main2.heap s ++
                  [mkClient uid initializing None now (Some Pending) false true])
                 s))).
    { unfold bounded. simpl.
      pose proof (length_map_set_le uid (length (Main2.heap s))
                    (Main2.activeClients s)). lia. }
    now destruct (initialize_throws W (length (Main2.heap s))). }
  cbv zeta.
  destruct (Main2.lookup uid s) as [[id c]|];
    [destruct (Status_eqb (status c) ready); [exact Hb|]|];
    (destruct (MAX_INSTANCES <=? length (Main2.activeClients s))%nat eqn:E;
     [exact Hb | now apply Hcreate]).
Qed.

Lemma shrinks_send_resume W now uid v s :
  shrinks s (snd (Main2.send_resume W now uid v s)).
Proof.
  unfold Main2.send_resume.
  destruct v as [id|e]; [|simpl; auto with pool].
  destruct (Main2.heap s !! id) as [c|]; [|simpl; auto with pool].
  destruct (Status_eqb (status c) ready); [|simpl; auto with pool].
  destruct (sendMessage_throws W id); simpl; [auto with pool|].
  eapply shrinks_via; auto with pool.
Qed.

Lemma bounded_send_message W now uid number message s :
  bounded s -> bounded (snd (Main2.send_message W now uid number message s)).
Proof.
  intros Hb. unfold Main2.send_message.
  destruct number as [n|];
    [|simpl; eapply shrinks_bounded; eauto with pool].
  pose proof (bounded_initializeClient W now uid s Hb) as Hi.
  destruct (Main2.initializeClient W now uid s) as [[h|e] s1]; simpl in Hi.
  - destruct (Main2.await h s1) as [v|]; [|exact Hi].
    pose proof (shrinks_send_resume W now uid v s1) as Hr.
    destruct (Main2.send_resume W now uid v s1) as [r s2]; simpl in *.
    eapply shrinks_bounded; eauto.
  - pose proof (shrinks_send_resume W now uid (inr e) s1) as Hr.
    destruct (Main2.send_resume W now uid (inr e) s1) as [r s2]; simpl in *.
    eapply shrinks_bounded; eauto.
Qed.

Lemma bounded_init W now uid s :
  bounded s -> bounded (snd (Main2.init W now uid s)).
Proof.
  intros Hb. unfold Main2.init. cbv zeta.
  pose proof (bounded_initializeClient W now uid s Hb) as Hi.
  destruct (Main2.lookup uid s) as [[id c]|];
    [destruct (Status_eqb (status c) disconnected); [|exact Hb]|];
    (destruct (Main2.initializeClient W now uid s) as [[h|e] s1];
     [destruct (Main2.await h s1)|]; exact Hi).
Qed.

Lemma shrinks_disconnect W now uid s :
  shrinks s (snd (Main2.disconnect W now uid s)).
Proof.
  unfold Main2.disconnect.
  destruct (map_get uid (Main2.activeClients s)) as [id|]; [|auto with pool].
  destruct (destroy_throws W id); simpl; [auto with pool|].
  eapply shrinks_via; auto with pool.
Qed.

Lemma shrinks_preserve_session W now uid s :
  shrinks s (snd (Main2.preserve_session W now uid s)).
Proof.
  unfold Main2.preserve_session.
  destruct (Main2.lookup uid s) as [[id c]|]; [|auto with pool].
  destruct (Status_eqb (status c) ready); simpl; auto with pool.
Qed.

Lemma shrinks_events W now id s :
  (forall u, shrinks s (Main2.on_qr id u s)) /\
  shrinks s (Main2.on_authenticated W now id s) /\
  shrinks s (Main2.on_ready now id s) /\
  shrinks s (Main2.on_disconnected W now id s) /\
  shrinks s (Main2.on_initTimeout W now id s).
Proof.
  unfold Main2.on_qr, Main2.on_authenticated, Main2.on_ready,
    Main2.on_disconnected, Main2.on_initTimeout.
  repeat split.
  - intros [u|]; auto with pool.
  - destruct (Main2.heap s !! id); [|auto with pool].
    eapply shrinks_via; auto with pool.
  - auto with pool.
  - destruct (Main2.heap s !! id); [|auto with pool].
    eapply shrinks_via; [auto with pool|].
    eapply shrinks_via; auto with pool.
  - destruct (Main2.heap s !! id) as [c|]; [|auto with pool].
    destruct (initTimeout c); [|auto with pool].
    eapply shrinks_via; auto with pool.
Qed.

Lemma shrinks_fold (f : Main2.state -> string * nat -> Main2.state) l :
  (forall s e, shrinks s (f s e)) -> forall s, shrinks s (fold_left f l s).
Proof.
  intros Hf. induction l as [|e l IH]; intros s; simpl; [apply shrinks_refl|].
  eapply shrinks_trans; [apply Hf | apply IH].
Qed.

Lemma shrinks_sweep W now s : shrinks s (Main2.sweep W now s).
Proof.
  apply shrinks_fold. intros s0 e. unfold Main2.sweep_entry.
  destruct (Main2.heap s0 !! snd e) as [c|]; [|auto with pool].
  destruct (_ >? _); auto with pool.
Qed.

Lemma shrinks_shutdown W now s : shrinks s (Main2.shutdown W now s).
Proof. apply shrinks_fold. intros. auto with pool. Qed.

Lemma bounded_processQueue_loop W now fuel : forall s,
  bounded s -> bounded (snd (fst (Main2.processQueue_loop W now fuel s))).
Proof.
  induction fuel as [|fuel IH]; intros s Hb; simpl; [exact Hb|].
  destruct (Main2.CONNECTION_QUEUE s) as [|[uid q] rest]; [exact Hb|].
  assert (Hslot : match Main2.make_room W now s with
                  | Some (_, s1) => bounded s1
                  | None => True
                  end).
  { unfold Main2.make_room. destruct (MAX_INSTANCES <=? _)%nat; [|exact Hb].
    destruct (Main2.recyclable now s); [|exact I].
    eapply shrinks_bounded; eauto with pool. }
  destruct (Main2.make_room W now s) as [[evs s1]|]; [|exact Hb].
  pose proof (bounded_initializeClient W now uid (Main2.with_queue rest s1) Hslot)
    as Hi.
  destruct (Main2.initializeClient W now uid (Main2.with_queue rest s1))
    as [r s2]; simpl in Hi.
  specialize (IH s2 Hi).
  destruct (Main2.processQueue_loop W now fuel s2) as [[evs' s3] e].
  destruct r as [h|e0]; [|exact IH].
  destruct (Main2.await h s2) as [[id|e1]|]; [exact IH | exact IH | exact Hi].
Qed.

Lemma bounded_step W now op s : bounded s -> bounded (Main2.step W now op s).
Proof.
  intros Hb.
  destruct op; simpl;
    unfold Main2.route_init, Main2.route_send, Main2.route_disconnect,
      Main2.route_preserve, Main2.guarded;
    try (destruct (authMiddleware authorization) as [uid|]; [|exact Hb]).
  - now apply bounded_init.
  - now apply bounded_send_message.
  - eapply shrinks_bounded; [apply shrinks_disconnect | exact Hb].
  - eapply shrinks_bounded; [apply shrinks_preserve_session | exact Hb].
  - eapply shrinks_bounded; [apply shrinks_send_resume | exact Hb].
  - eapply shrinks_bounded; [apply (shrinks_events W now id s) | exact Hb].
  - eapply shrinks_bounded; [apply (shrinks_events W now id s) | exact Hb].
  - eapply shrinks_bounded; [apply (shrinks_events W now id s) | exact Hb].
  - eapply shrinks_bounded; [apply (shrinks_events W now id s) | exact Hb].
  - eapply shrinks_bounded; [apply (shrinks_events W now id s) | exact Hb].
  - unfold Main2.processQueue.
    destruct (_ || _); [exact Hb|]. now apply bounded_processQueue_loop.
  - unfold Main2.processQueue_resume.
    pose proof (bounded_processQueue_loop W now
                  (S (length (Main2.CONNECTION_QUEUE s))) s Hb) as H.
    now destruct (Main2.processQueue_loop W now _ s) as [[evs s1] e].
  - eapply shrinks_bounded; [apply shrinks_sweep | exact Hb].
  - eapply shrinks_bounded; [apply shrinks_shutdown | exact Hb].
Qed.

Lemma bounded_run tr : forall s, bounded s -> bounded (Main2.run tr s).
Proof.
  induction tr as [|[[W now] op] tr IH]; intros s Hb; simpl; [exact Hb|].
  apply IH. now apply bounded_step.
Qed.

Lemma shrinks_queue_turn W now s : shrinks s (Main2.queue_turn W now s).
Proof.
  unfold Main2.queue_turn.
  destruct (Main2.CONNECTION_QUEUE s) as [|[uid q] rest];
    [unfold shrinks; simpl; lia|].
  unfold Main2.make_room.
  destruct (MAX_INSTANCES <=? length (Main2.activeClients s))%nat;
    [|unfold shrinks; simpl; lia].
  destruct (Main2.recyclable now s) as [old|]; [|unfold shrinks; simpl; lia].
  pose proof (shrinks_cleanupSession W now old s) as H.
  unfold shrinks in *. simpl. exact H.
Qed.

Lemma shrinks_queue_start W now s : shrinks s (Main2.queue_start W now s).
Proof.
  unfold Main2.queue_start. destruct (_ || _); [apply shrinks_refl|].
  pose proof (shrinks_queue_turn W now (Main2.with_processing true s)) as H.
  unfold shrinks in *. simpl in H. exact H.
Qed.

(** A handler that starts no call of [initializeClient] adds no record. *)
Lemma shrinks_quiet W now op s :
  Main2.starts_call (Main2.Atomic op) = false -> shrinks s (Main2.step W now op s).
Proof.
  destruct op as [a|a [n|] m|a|a|uid v|id u|id|id|id|id| |q v| |]; simpl;
    try discriminate; intros _;
    unfold Main2.route_send, Main2.route_disconnect, Main2.route_preserve,
      Main2.guarded;
    try (destruct (authMiddleware a) as [uid|]; [|apply shrinks_refl]).
  - simpl. apply shrinks_cleanupSession.
  - apply shrinks_disconnect.
  - apply shrinks_preserve_session.
  - apply shrinks_send_resume.
  - apply (shrinks_events W now id s).
  - apply (shrinks_events W now id s).
  - apply (shrinks_events W now id s).
  - apply (shrinks_events W now id s).
  - apply (shrinks_events W now id s).
  - apply shrinks_sweep.
  - apply shrinks_shutdown.
Qed.

Lemma remove_first_length uid l rest :
  Main2.remove_first uid l = Some rest -> length l = S (length rest).
Proof.
  revert rest. induction l as [|u l IH]; intros rest; simpl; [discriminate|].
  destruct (String.eqb u uid); [now intros [= ->]|].
  destruct (Main2.remove_first uid l) as [r|]; [|discriminate].
  intros [= <-]. simpl. now rewrite (IH r).
Qed.

Lemma remove_first_In uid l rest :
  Main2.remove_first uid l = Some rest -> In uid l.
Proof.
  revert rest. induction l as [|u l IH]; intros rest; simpl; [discriminate|].
  destruct (String.eqb u uid) eqn:E;
    [apply String.eqb_eq in E; now left|].
  destruct (Main2.remove_first uid l) as [r|]; [|discriminate].
  intros _. right. now apply (IH r).
Qed.

Lemma Main2_initializeClient_create_size W now uid s :
  (length (Main2.activeClients (snd (Main2.initializeClient_create W now uid s)))
   <= S (length (Main2.activeClients s)))%nat.
Proof.
  unfold Main2.initializeClient_create.
  destruct (fs_throws W uid); [simpl; lia|].
  destruct (create_throws W uid 0); [simpl; lia|].
  destruct (initialize_throws W _); simpl; apply length_map_set_le.
Qed.

(** What the interleaved runs keep: the records registered and the calls
    past the capacity test together never exceed the limit. *)
Lemma serial_step W now ev st :
  (Main2.starts_call ev = true -> snd st = []) ->
  (length (Main2.activeClients (fst st)) + length (snd st)
   <= MAX_INSTANCES)%nat ->
  (length (Main2.activeClients (fst (Main2.istep W now ev st)))
   + length (snd (Main2.istep W now ev st)) <= MAX_INSTANCES)%nat.
Proof.
  destruct st as [s inflight]. cbn [fst snd]. intros Hser Hinv.
  destruct ev as [op|uid|uid| |]; cbn [Main2.istep fst snd].
  - destruct (Main2.starts_call (Main2.Atomic op)) eqn:Ea.
    + rewrite (Hser eq_refl) in *. simpl in *.
      pose proof (bounded_step W now op s) as Hb. unfold bounded in Hb. lia.
    + pose proof (shrinks_quiet W now op s Ea) as Hs. unfold shrinks in Hs.
      lia.
  - rewrite (Hser eq_refl) in *. cbn [length] in Hinv.
    rewrite Nat.add_0_r in Hinv.
    unfold Main2.enter_call. cbn [fst snd].
    pose proof (bounded_initializeClient W now uid s Hinv) as Hb.
    unfold bounded in Hb.
    destruct (Main2.initializeClient_check uid s) eqn:Ec;
      cbn [fst snd length app].
    + lia.
    + lia.
    + unfold Main2.initializeClient_check in Ec.
      assert (Hlt : (length (Main2.activeClients s) < MAX_INSTANCES)%nat).
      { destruct (MAX_INSTANCES <=? length (Main2.activeClients s))%nat eqn:E.
        - destruct (Main2.lookup uid s) as [[id c]|];
            [destruct (Status_eqb (status c) ready)|]; discriminate.
        - now apply Nat.leb_gt in E. }
      lia.
  - unfold Main2.continue_call. cbn [fst snd].
    destruct (Main2.remove_first uid inflight) as [rest|] eqn:Er;
      cbn [fst snd]; [|exact Hinv].
    apply remove_first_length in Er.
    pose proof (Main2_initializeClient_create_size W now uid s). lia.
  - pose proof (shrinks_queue_start W now s) as Hs. unfold shrinks in Hs. lia.
  - pose proof (shrinks_queue_turn W now s) as Hs. unfold shrinks in Hs. lia.
Qed.

Lemma serial_run tr : forall st,
  serial tr st ->
  (length (Main2.activeClients (fst st)) + length (snd st)
   <= MAX_INSTANCES)%nat ->
  (length (Main2.activeClients (fst (Main2.irun tr st)))
   + length (snd (Main2.irun tr st)) <= MAX_INSTANCES)%nat.
Proof.
  induction tr as [|[[W now] ev] tr IH]; intros st Hser Hinv; [exact Hinv|].
  destruct Hser as [Hev Hser]. simpl. apply IH; [exact Hser|].
  now apply serial_step.
Qed.



(** ** Who is evicted (C2) *)

(** C2, as stated, fails in the first unnamed source: its search for the
    oldest client compares [lastActivity] only, so with the pool full of
    tenants waiting for their scan, the admission of a third tenant tears
    down the older of the two. *)
Lemma evicts_pending_record_part000 :
  let s1 := snd (fst (Part000.initializeClient calm (fun _ => 10) "a"
                        Part000.initial)) in
  let s2 := Part000.on_qr 0 (Some "qr-a") s1 in
  let s3 := snd (fst (Part000.initializeClient calm (fun _ => 20) "b" s2)) in
  let s4 := Part000.on_qr 1 (Some "qr-b") s3 in
  let r := Part000.initializeClient calm (fun _ => 30) "c" s4 in
  status <$> (snd <$> Part000.lookup "a" s4) = Some pending /\
  status <$> (snd <$> Part000.lookup "b" s4) = Some pending /\
  fst (fst r) = [Teardown "a"; NewClient 2] /\
  Part000.activeClients (snd (fst r)) = [("b", 1%nat); ("c", 2%nat)] /\
  destroyed <$> Part000.heap (snd (fst r)) !! 0%nat = Some true.
Proof. repeat split. Qed.

Lemma inherits_refl s : inherits s s.
Proof. now intros uid. Qed.

Lemma inherits_trans s1 s2 s3 :
  inherits s1 s2 -> inherits s2 s3 -> inherits s1 s3.
Proof. intros H12 H23 uid H. auto. Qed.

Lemma inherits_cleanupSession W now uid s :
  inherits s (Main2.cleanupSession W now uid s).
Proof.
  intros u (id & c & Hin & Hc & Hr).
  rewrite Main2_cleanupSession_active in Hin.
  apply filter_In in Hin as [Hin _].
  destruct (Main2_cleanupSession_cell W now uid s id) as [E|E];
    rewrite E in Hc.
  - now exists id, c.
  - destruct (Main2.heap s !! id) as [c0|] eqn:E0; [|discriminate].
    injection Hc as <-. now exists id, c0.
Qed.

Lemma In_map_set {V} k (v : V) m e :
  In e (map_set k v m) -> e = (k, v) \/ In e m.
Proof.
  induction m as [|[k' v'] m IH]; simpl; [intuition|].
  destruct (String.eqb k' k); simpl; intuition.
Qed.

Lemma inherits_initializeClient W now uid s :
  inherits s (snd (Main2.initializeClient W now uid s)).
Proof.
  unfold Main2.initializeClient.
  destruct (Main2.initializeClient_check uid s) as [id| |]; simpl.
  - intros u (i & c & Hin & Hc & Hr). simpl in *.
    destruct (decide (id = i)) as [->|Hne].
    + rewrite list_lookup_alter_eq in Hc.
      destruct (Main2.heap s !! i) as [c0|] eqn:E0; [|discriminate].
      injection Hc as <-. now exists i, c0.
    + rewrite list_lookup_alter_ne in Hc by assumption. now exists i, c.
  - intros u (i & c & Hin & Hc & Hr). now exists i, c.
  - unfold Main2.initializeClient_create.
    destruct (fs_throws W uid); [apply inherits_refl|].
    destruct (create_throws W uid 0); [apply inherits_refl|].
    assert (H : inherits s
              (Main2.with_active
                 (map_set uid (length (Main2.heap s)) (Main2.activeClients s))
                 (Main2.with_heap
                    (Main2.heap s ++
                     [mkClient uid initializing None now (Some Pending)
                               false true]) s))).
    { intros u (i & c & Hin & Hc & Hr). simpl in *.
      destruct (decide (i < length (Main2.heap s))%nat) as [Hlt|Hge].
      - rewrite lookup_app_l in Hc by assumption.
        apply In_map_set in Hin as [[= -> ->]|Hin]; [lia|].
        now exists i, c.
      - exfalso. rewrite lookup_app_r in Hc by lia.
        destruct (i - length (Main2.heap s))%nat; simpl in Hc;
          [injection Hc as <-|]; discriminate. }
    now destruct (initialize_throws W (length (Main2.heap s))).
Qed.

Lemma older_ready_ready s l : forall acc,
  (forall u, fst acc = Some u ->
             exists id c, In (u, id) (Main2.activeClients s) /\
                          Main2.heap s !! id = Some c /\ status c = ready) ->
  (forall e, In e l -> In e (Main2.activeClients s)) ->
  forall u, fst (fold_left (Main2.older_ready s) l acc) = Some u ->
            ready_entry s u.
Proof.
  induction l as [|[k i] l IH]; intros acc Hacc Hl u; simpl; [apply Hacc|].
  apply IH; [|intros e He; apply Hl; now right].
  unfold Main2.older_ready. simpl.
  destruct (Main2.heap s !! i) as [c|] eqn:Ec; [|exact Hacc].
  destruct (lastActivity c <? snd acc); simpl; [|exact Hacc].
  destruct (Status_eqb (status c) ready) eqn:Er; [|exact Hacc].
  simpl. intros u' [= <-]. exists i, c. apply Status_eqb_eq in Er.
  repeat split; try assumption. apply Hl. now left.
Qed.

(** The client picked for recycling is READY. *)
Lemma recyclable_ready now s uid :
  Main2.recyclable now s = Some uid -> ready_entry s uid.
Proof.
  unfold Main2.recyclable, Main2.oldest_ready.
  destruct (fold_left _ _ _) as [[u|] t] eqn:E; [|discriminate].
  destruct (_ && _); [|discriminate]. intros [= <-].
  apply (older_ready_ready s (Main2.activeClients s) (None, now));
    [simpl; discriminate | auto | now rewrite E].
Qed.

Lemma processQueue_loop_evicts_ready W now fuel : forall s evs s' e uid,
  Main2.processQueue_loop W now fuel s = (evs, s', e) ->
  In (Main2.Evict uid) evs -> ready_entry s uid.
Proof.
  induction fuel as [|fuel IH]; intros s evs s' e uid; simpl.
  { intros [= <- _ _] []. }
  destruct (Main2.CONNECTION_QUEUE s) as [|[u q] rest].
  { intros [= <- _ _] []. }
  destruct (Main2.make_room W now s) as [[evs0 s1]|] eqn:Eroom.
  2: { intros [= <- _ _] []. }
  assert (Hroom : inherits s s1 /\
                  (In (Main2.Evict uid) evs0 -> ready_entry s uid)).
  { unfold Main2.make_room in Eroom.
    destruct (MAX_INSTANCES <=? _)%nat.
    - destruct (Main2.recyclable now s) as [old|] eqn:Eold; [|discriminate].
      injection Eroom as <- <-. split; [apply inherits_cleanupSession|].
      intros [[= <-]|[]]. exact (recyclable_ready now s old Eold).
    - injection Eroom as <- <-. split; [apply inherits_refl | intros []]. }
  destruct Hroom as [Hs1 Hevs0].
  pose proof (inherits_initializeClient W now u (Main2.with_queue rest s1)) as Hi.
  destruct (Main2.initializeClient W now u (Main2.with_queue rest s1))
    as [r s2]; simpl in Hi.
  assert (Hs2 : inherits s s2).
  { eapply inherits_trans; [exact Hs1|]. intros k Hk. apply Hi in Hk.
    exact Hk. }
  assert (Hcont : forall ev,
    (forall k, ev <> Main2.Evict k) ->
    (let '(evs', s3, e0) := Main2.processQueue_loop W now fuel s2 in
     ((evs0 ++ ev :: evs')%list, s3, e0)) = (evs, s', e) ->
    In (Main2.Evict uid) evs -> ready_entry s uid).
  { intros ev Hev.
    destruct (Main2.processQueue_loop W now fuel s2) as [[evs' s3] e0] eqn:El.
    intros [= <- _ _] Hin. apply in_app_or in Hin as [Hin|[Hin|Hin]].
    - auto.
    - exfalso. now apply (Hev uid).
    - apply Hs2. eapply IH; eauto. }
  destruct r as [h|e0]; [|apply Hcont; discriminate].
  destruct (Main2.await h s2) as [[id|e1]|];
    [apply Hcont; discriminate | apply Hcont; discriminate |].
  intros [= <- _ _]. exact Hevs0.
Qed.

(** C2 (amended): in [main2.js] every client that a pass over the
    connection queue tears down to make room, from its start or after it
    resumed from a wait, is a READY record of the registry the pass
    started from. *)
Theorem queue_evicts_only_ready W now s uid :
  (forall evs s' e,
     Main2.processQueue W now s = (evs, s', e) ->
     In (Main2.Evict uid) evs -> ready_entry s uid) /\
  (forall q v evs s' e,
     Main2.processQueue_resume W now q v s = (evs, s', e) ->
     In (Main2.Evict uid) evs -> ready_entry s uid).
Proof.
  split.
  - intros evs s' e. unfold Main2.processQueue. destruct (_ || _).
    + intros [= <- _ _] [].
    + intros H Hin.
      apply (processQueue_loop_evicts_ready _ _ _ _ _ _ _ _ H) in Hin.
      exact Hin.
  - intros q v evs s' e. unfold Main2.processQueue_resume.
    destruct (Main2.processQueue_loop W now _ s) as [[evs1 s1] e1] eqn:El.
    intros [= <- _ _] [Hin|Hin].
    + destruct v; discriminate.
    + exact (processQueue_loop_evicts_ready _ _ _ _ _ _ _ _ El Hin).
Qed.

Lemma queue_evicts_only_ready_witness :
  let s := Main2.run [(calm, 0, Main2.ReqInit (Some "Bearer a"));
                      (calm, 1, Main2.ReqInit (Some "Bearer b"));
                      (calm, 2, Main2.ReqInit (Some "Bearer c"));
                      (calm, 5, Main2.EvReady 0%nat)] Main2.initial in
  fst (fst (Main2.processQueue calm 400000 s)) = [Main2.Evict "a"] /\
  ready_entry s "a".
Proof.
  split; [reflexivity|].
  eapply (proj1 (queue_evicts_only_ready calm 400000 _ "a"));
    [reflexivity|]. now left.
Defined.

(** ** The recursion bounds of the model are never reached *)

Lemma catch_total {state : Type}
    (attempt : Z -> nat -> string -> state -> list Trace * state * Attempt)
    (forget : string -> state -> state) (clock : nat -> Z) uid fuel :
  forall rc e s,
    (MAX_RETRIES <= fuel + rc)%nat ->
    snd (catch attempt forget clock fuel rc uid e s) <> Final_fuel.
Proof.
  induction fuel as [|fuel IH]; intros rc e s Hfuel; cbn [catch].
  - destruct (rc <? MAX_RETRIES)%nat eqn:E; [|discriminate].
    apply Nat.ltb_lt in E. lia.
  - destruct (rc <? MAX_RETRIES)%nat; [|discriminate].
    destruct (attempt _ _ _ _) as [[tr s2] [id|id|e2]]; try discriminate.
    specialize (IH (S rc) e2 s2).
    destruct (catch attempt forget clock fuel (S rc) uid e2 s2) as [[tr' s3] r].
    simpl in *. apply IH. lia.
Qed.

Lemma initializeClient_total {state : Type}
    (attempt : Z -> nat -> string -> state -> list Trace * state * Attempt)
    (forget : string -> state -> state) (clock : nat -> Z) uid s :
  snd (initializeClient_from attempt forget clock MAX_RETRIES 0 uid s)
  <> Final_fuel.
Proof.
  unfold initializeClient_from.
  destruct (attempt _ _ _ _) as [[tr s1] [id|id|e]]; try discriminate.
  pose proof (catch_total attempt forget clock uid MAX_RETRIES 0 e s1) as H.
  destruct (catch attempt forget clock MAX_RETRIES 0 uid e s1) as [[tr' s2] r].
  apply H. lia.
Qed.

Lemma Main2_initializeClient_queue W now uid s :
  (exists q, fst (Main2.initializeClient W now uid s) = Ret (HQueued q)) \/
  Main2.CONNECTION_QUEUE (snd (Main2.initializeClient W now uid s))
  = Main2.CONNECTION_QUEUE s.
Proof.
  unfold Main2.initializeClient.
  destruct (Main2.initializeClient_check uid s); simpl.
  - now right.
  - left. now eexists.
  - right. unfold Main2.initializeClient_create.
    destruct (fs_throws W uid); [reflexivity|].
    destruct (create_throws W uid 0); [reflexivity|].
    now destruct (initialize_throws W _).
Qed.

Lemma Main2_cleanupSession_queue W now uid s :
  Main2.CONNECTION_QUEUE (Main2.cleanupSession W now uid s)
  = Main2.CONNECTION_QUEUE s.
Proof.
  unfold Main2.cleanupSession.
  destruct (map_get uid (Main2.activeClients s)) as [id|]; [|reflexivity].
  unfold Main2.preserveSession.
  destruct (_ || _), (page_ok W id), (destroy_throws W id); reflexivity.
Qed.

Lemma processQueue_loop_total W now fuel : forall s,
  (length (Main2.CONNECTION_QUEUE s) < fuel)%nat ->
  snd (Main2.processQueue_loop W now fuel s) <> Main2.OutOfFuel.
Proof.
  induction fuel as [|fuel IH]; intros s Hlen; simpl; [lia|].
  destruct (Main2.CONNECTION_QUEUE s) as [|[uid q] rest] eqn:Eq;
    [discriminate|].
  destruct (Main2.make_room W now s) as [[evs s1]|]; [|discriminate].
  pose proof (Main2_initializeClient_queue W now uid (Main2.with_queue rest s1))
    as Hq.
  destruct (Main2.initializeClient W now uid (Main2.with_queue rest s1))
    as [r s2]; simpl in Hq.
  assert (Hrec : (forall q', r <> Ret (HQueued q')) ->
                 snd (Main2.processQueue_loop W now fuel s2) <> Main2.OutOfFuel).
  { intros Hr. destruct Hq as [[q' Hq]|Hq]; [now apply Hr in Hq|].
    apply IH. rewrite Hq. simpl in *. lia. }
  destruct (Main2.processQueue_loop W now fuel s2) as [[evs' s3] e].
  destruct r as [[id|id|q']|e0]; simpl.
  - apply Hrec. discriminate.
  - destruct (Main2.heap s2 !! id) as [c|]; [|discriminate].
    destruct (readyPromise c) as [[| |e1]|]; try discriminate;
      apply Hrec; discriminate.
  - discriminate.
  - apply Hrec. discriminate.
Qed.

Lemma processQueue_total W now s :
  snd (Main2.processQueue W now s) <> Main2.OutOfFuel.
Proof.
  unfold Main2.processQueue. destruct (_ || _); [discriminate|].
  apply processQueue_loop_total. simpl. lia.
Qed.

(** * Further properties of the code *)

(** ** The token the middleware extracts *)

Lemma split_spaceless s : spaceless s = true -> split " " s = [s].
Proof.
  induction s as [|c s IH]; simpl; [reflexivity|].
  intros H. apply andb_prop in H as [Hc Hs].
  apply negb_true_iff in Hc. rewrite Hc, (IH Hs). reflexivity.
Qed.

Lemma split_app a b :
  spaceless a = true -> split " " (a ++ String " " b) = a :: split " " b.
Proof.
  induction a as [|c a IH]; simpl; [reflexivity|].
  intros H. apply andb_prop in H as [Hc Hs].
  apply negb_true_iff in Hc. rewrite Hc, (IH Hs). reflexivity.
Qed.

Lemma split_all_spaceless s : Forall (fun w => spaceless w = true) (split " " s).
Proof.
  induction s as [|c s IH]; simpl; [repeat constructor|].
  destruct (Ascii.eqb c " ") eqn:Ec; [now constructor|].
  destruct (split " " s) as [|w ws]; [repeat constructor; simpl; now rewrite Ec|].
  inversion_clear IH as [|? ? Hw Hws]. constructor; [|assumption].
  simpl. now rewrite Ec, Hw.
Qed.

(** A header made of a scheme word, one space and a token is accepted
    with that token as [uid], whatever the scheme word is and whatever
    follows a second space. *)
Theorem authMiddleware_takes_second_field scheme uid :
  spaceless scheme = true -> spaceless uid = true -> uid <> "" ->
  authMiddleware (Some (scheme ++ String " " uid)) = Some uid /\
  forall rest,
    authMiddleware (Some (scheme ++ String " " (uid ++ String " " rest)))
    = Some uid.
Proof.
  intros Hs Hu Hne. unfold authMiddleware. split; [|intros rest].
  - rewrite split_app, split_spaceless by assumption. simpl.
    destruct uid; [contradiction | reflexivity].
  - rewrite !split_app by assumption. simpl.
    destruct uid; [contradiction | reflexivity].
Qed.

Lemma authMiddleware_takes_second_field_witness :
  authMiddleware (Some "Bearer 923237146391") = Some "923237146391" /\
  authMiddleware (Some "Basic abc def") = Some "abc".
Proof.
  split.
  - apply (authMiddleware_takes_second_field "Bearer" "923237146391");
      [reflexivity | reflexivity | discriminate].
  - apply (authMiddleware_takes_second_field "Basic" "abc");
      [reflexivity | reflexivity | discriminate].
Defined.

(** The [uid] a handler runs under is never empty and holds no space. *)
Theorem authMiddleware_uid_wellformed a uid :
  authMiddleware a = Some uid -> uid <> "" /\ spaceless uid = true.
Proof.
  intros H. destruct a as [h|]; [|discriminate]. simpl in H.
  destruct (split " " h !! 1%nat) as [w|] eqn:E; [|discriminate].
  assert (Hw : spaceless w = true).
  { pose proof (split_all_spaceless h) as Hall.
    rewrite Forall_forall in Hall. apply Hall.
    apply list_elem_of_lookup. eauto. }
  destruct w; [discriminate|]. injection H as <-. split; [discriminate|exact Hw].
Qed.

Lemma authMiddleware_uid_wellformed_witness :
  "a" <> "" /\ spaceless "a" = true.
Proof.
  apply (authMiddleware_uid_wellformed (Some "Bearer a b") "a"). reflexivity.
Defined.

(** ** The chat identifier *)

Lemma prefix_refl p : String.prefix p p = true.
Proof.
  induction p as [|c p IH]; simpl; [reflexivity|].
  destruct (ascii_dec c c); [exact IH | contradiction].
Qed.

Lemma includes_suffix p s : includes p (s ++ p) = true.
Proof.
  induction s as [|c s IH]; simpl.
  - destruct p; [reflexivity|]. cbn [includes]. now rewrite prefix_refl.
  - rewrite IH. apply orb_true_r.
Qed.

(** The identifier handed to [sendMessage] always holds '@c.us', and
    building it from an identifier changes nothing. *)
Theorem chatId_suffixed number :
  includes "@c.us" (chatId number) = true /\
  chatId (chatId number) = chatId number.
Proof.
  assert (H : includes "@c.us" (chatId number) = true).
  { unfold chatId. destruct (includes "@c.us" number) eqn:E; [exact E|].
    apply includes_suffix. }
  split; [exact H|]. unfold chatId at 1. now rewrite H.
Qed.

(** ** Shutdown *)

Lemma filter_none {A} (p : A -> bool) (l : list A) :
  (forall x, In x l -> p x = false) -> List.filter p l = [].
Proof.
  induction l as [|x l IH]; simpl; [reflexivity|]. intros H.
  rewrite (H x) by now left. apply IH. intros y Hy. apply H. now right.
Qed.

Lemma fold_cleanup_keys {S : Type} (active : S -> list (string * nat))
    (cleanup : string -> S -> S) :
  (forall u s, active (cleanup u s) = map_delete u (active s)) ->
  forall l s,
    active (fold_left (fun s (e : string * nat) => cleanup (fst e) s) l s)
    = List.filter
        (fun e => negb (existsb (fun e' => String.eqb (fst e) (fst e')) l))
        (active s).
Proof.
  intros Hc. induction l as [|a l IH]; intros s; simpl.
  - apply eq_sym, filter_all.
  - rewrite IH, Hc. unfold map_delete. rewrite filter_filter.
    apply filter_ext. intros e. now destruct (String.eqb (fst e) (fst a)).
Qed.

Lemma fold_cleanup_all {S : Type} (active : S -> list (string * nat))
    (cleanup : string -> S -> S) :
  (forall u s, active (cleanup u s) = map_delete u (active s)) ->
  forall s,
    active (fold_left (fun s (e : string * nat) => cleanup (fst e) s)
                      (active s) s) = [].
Proof.
  intros Hc s. rewrite (fold_cleanup_keys active cleanup Hc).
  apply filter_none. intros e He. apply negb_false_iff, existsb_exists.
  exists e. split; [exact He | apply String.eqb_refl].
Qed.

(** On SIGTERM (and on an uncaught exception) [main2.js] and the first
    and second unnamed sources leave the registry empty, whatever
    [destroy] and the filesystem do. *)
Theorem shutdown_empties_registry W now :
  (forall s, Main2.activeClients (Main2.shutdown W now s) = []) /\
  (forall s, Part000.activeClients (Part000.shutdown W s) = []) /\
  (forall s, Part001.activeClients (Part001.shutdown W now s) = []).
Proof.
  split; [|split]; intros s.
  - apply (fold_cleanup_all Main2.activeClients (Main2.cleanupSession W now)).
    intros. apply Main2_cleanupSession_active.
  - apply (fold_cleanup_all Part000.activeClients (Part000.cleanupSession W)).
    intros. apply Part000_cleanupSession_active.
  - apply (fold_cleanup_all Part001.activeClients
             (Part001.cleanupSession W now)).
    intros. apply Part001_cleanupSession_active.
Qed.

Lemma Part002_cleanupSession_active W uid s :
  Part002.activeClients (Part002.cleanupSession W uid s)
  = if Part002.pathExists uid s && fs_throws W uid
    then Part002.activeClients s
    else map_delete uid (Part002.activeClients s).
Proof.
  unfold Part002.cleanupSession.
  now destruct (Part002.pathExists uid s), (fs_throws W uid).
Qed.

Lemma Part002_cleanupSession_keeps W uid s e :
  In e (Part002.activeClients s) -> fst e <> uid ->
  In e (Part002.activeClients (Part002.cleanupSession W uid s)).
Proof.
  intros He Hne. rewrite Part002_cleanupSession_active.
  destruct (_ && _); [exact He|].
  apply filter_In. split; [exact He|].
  apply negb_true_iff, String.eqb_neq, Hne.
Qed.

Lemma Part002_shutdown_loop_exits W l : forall s,
  (forall e, In e l -> destroy_throws W (snd e) = false) ->
  snd (Part002.shutdown_loop W l s) = true.
Proof.
  induction l as [|[uid id] l IH]; intros s H; simpl; [reflexivity|].
  pose proof (H (uid, id) (or_introl eq_refl)) as Hd. simpl in Hd. rewrite Hd.
  apply IH. intros e He. apply H. now right.
Qed.

Lemma Part002_shutdown_loop_active W l : forall s,
  (forall e, In e l -> destroy_throws W (snd e) = false) ->
  (forall e, In e l -> fs_throws W (fst e) = false) ->
  Part002.activeClients (fst (Part002.shutdown_loop W l s))
  = List.filter
      (fun e => negb (existsb (fun e' => String.eqb (fst e) (fst e')) l))
      (Part002.activeClients s).
Proof.
  induction l as [|[uid id] l IH]; intros s Hd Hf; simpl.
  - apply eq_sym, filter_all.
  - pose proof (Hd (uid, id) (or_introl eq_refl)) as Hd0.
    pose proof (Hf (uid, id) (or_introl eq_refl)) as Hf0. simpl in Hd0, Hf0.
    rewrite Hd0, IH; [|intros e He; apply Hd; now right
                      |intros e He; apply Hf; now right].
    rewrite Part002_cleanupSession_active, Hf0, andb_false_r. simpl.
    unfold map_delete. rewrite filter_filter.
    apply filter_ext. intros e. simpl. now destruct (String.eqb (fst e) uid).
Qed.

Lemma Part002_shutdown_loop_stops W pre uid id post : forall s,
  (forall e, In e pre -> destroy_throws W (snd e) = false) ->
  destroy_throws W id = true ->
  snd (Part002.shutdown_loop W (pre ++ (uid, id) :: post) s) = false /\
  forall e, In e (Part002.activeClients s) ->
            (forall e', In e' pre -> fst e' <> fst e) ->
            In e (Part002.activeClients
                    (fst (Part002.shutdown_loop W (pre ++ (uid, id) :: post) s))).
Proof.
  induction pre as [|[u i] pre IH]; intros s Hd Hid; simpl.
  - rewrite Hid. split; [reflexivity | intros e He _; exact He].
  - pose proof (Hd (u, i) (or_introl eq_refl)) as Hd0. simpl in Hd0.
    rewrite Hd0.
    destruct (IH (Part002.cleanupSession W u (Part002.update i set_destroyed s)))
      as [Hexit Hkeep]; [intros e He; apply Hd; now right | exact Hid |].
    split; [exact Hexit|]. intros e He Hpre. apply Hkeep.
    + apply Part002_cleanupSession_keeps; [exact He|].
      intros Heq. apply (Hpre (u, i)); [now left | now rewrite Heq].
    + intros e' He'. apply Hpre. now right.
Qed.

(** SIGTERM in the third unnamed source: when no [destroy] rejects the
    handler reaches [process.exit], and with a working filesystem the
    registry is then empty; at the first [destroy] that rejects the
    handler ends without exiting, and that record and all the records
    after it are still registered. *)
Theorem shutdown_part002 W s :
  ((forall e, In e (Part002.activeClients s) ->
              destroy_throws W (snd e) = false) ->
   snd (Part002.shutdown W s) = true /\
   ((forall e, In e (Part002.activeClients s) -> fs_throws W (fst e) = false) ->
    Part002.activeClients (fst (Part002.shutdown W s)) = [])) /\
  (forall pre uid id post,
     Part002.activeClients s = (pre ++ (uid, id) :: post)%list ->
     NoDup (map fst (Part002.activeClients s)) ->
     (forall e, In e pre -> destroy_throws W (snd e) = false) ->
     destroy_throws W id = true ->
     snd (Part002.shutdown W s) = false /\
     forall e, In e ((uid, id) :: post) ->
               In e (Part002.activeClients (fst (Part002.shutdown W s)))).
Proof.
  unfold Part002.shutdown. split.
  - intros Hd. split; [now apply Part002_shutdown_loop_exits|].
    intros Hf. rewrite Part002_shutdown_loop_active by assumption.
    apply filter_none. intros e He. apply negb_false_iff, existsb_exists.
    exists e. split; [exact He | apply String.eqb_refl].
  - intros pre uid id post Hact Hnd Hd Hid. rewrite Hact in *.
    destruct (Part002_shutdown_loop_stops W pre uid id post s Hd Hid)
      as [Hexit Hkeep].
    split; [exact Hexit|]. intros e He. apply Hkeep.
    + rewrite Hact. apply in_or_app. now right.
    + intros e' He' Heq. rewrite map_app in Hnd.
      apply NoDup_app in Hnd as (_ & Hdisj & _).
      apply (Hdisj (fst e')).
      * apply list_elem_of_In. now apply in_map.
      * rewrite Heq. apply list_elem_of_In. now apply in_map.
Qed.

Lemma shutdown_part002_witness :
  let s := snd (Part002.initializeClient calm 2 "b"
             (snd (Part002.initializeClient calm 1 "a" Part002.initial))) in
  snd (Part002.shutdown calm s) = true /\
  Part002.activeClients (fst (Part002.shutdown calm s)) = [] /\
  snd (Part002.shutdown stubborn s) = false /\
  In ("b", 1%nat) (Part002.activeClients (fst (Part002.shutdown stubborn s))).
Proof.
  set (s := snd (Part002.initializeClient calm 2 "b"
             (snd (Part002.initializeClient calm 1 "a" Part002.initial)))).
  assert (Hnd : NoDup (map fst (Part002.activeClients s))).
  { repeat constructor; rewrite list_elem_of_In; simpl; intuition discriminate. }
  assert (Hcalm : forall e, In e (Part002.activeClients s) ->
                            destroy_throws calm (snd e) = false)
    by (intros e _; reflexivity).
  pose proof (proj1 (shutdown_part002 calm s) Hcalm) as [Hexit Hempty].
  pose proof (proj2 (shutdown_part002 stubborn s) [] "a" 0%nat [("b", 1%nat)]
                eq_refl Hnd (fun e (H : In e []) => match H with end) eq_refl)
    as [Hstop Hkeep].
  split; [exact Hexit|]. split; [apply Hempty; intros e _; reflexivity|].
  split; [exact Hstop|]. apply Hkeep. right. now left.
Defined.

(** ** [safeCleanup] of the first unnamed source *)

Lemma Part000_pathExists_removed path s :
  Part000.pathExists path
    (Part000.with_dirs
       (List.filter (fun d => negb (String.eqb d path)) (Part000.sessionDirs s))
       s) = false.
Proof.
  unfold Part000.pathExists. simpl.
  apply not_true_is_false. intros H.
  apply existsb_exists in H as (d & Hd & He).
  apply filter_In in Hd as [_ Hd]. apply String.eqb_eq in He. subst d.
  now rewrite String.eqb_refl in Hd.
Qed.

Lemma safeCleanup_from_cleans throws maxRetries path s fuel : forall i k,
  (i <= k)%nat -> (k < maxRetries)%nat -> (k - i < fuel)%nat ->
  (forall j, (i <= j < k)%nat -> throws j = true) -> throws k = false ->
  exists s',
    Part000.safeCleanup_from throws maxRetries fuel i path s
    = (repeat (Delay 1000) (k - i), s', Part000.Cleaned) /\
    Part000.pathExists path s' = false /\
    Part000.activeClients s' = Part000.activeClients s /\
    Part000.heap s' = Part000.heap s.
Proof.
  induction fuel as [|fuel IH]; intros i k Hik Hk Hfuel Hthrows Hok; [lia|].
  cbn [Part000.safeCleanup_from].
  destruct (i <? maxRetries)%nat eqn:Ei; [|apply Nat.ltb_ge in Ei; lia].
  destruct (decide (i = k)) as [->|Hne].
  - rewrite Hok, Nat.sub_diag. eexists. split; [reflexivity|].
    split; [apply Part000_pathExists_removed | now split].
  - rewrite Hthrows by lia.
    destruct (i =? maxRetries - 1)%nat eqn:Elast;
      [apply Nat.eqb_eq in Elast; lia|].
    destruct (IH (S i) k) as (s' & -> & Hs'); [lia|lia|lia| |assumption|].
    { intros j Hj. apply Hthrows. lia. }
    exists s'. split; [|exact Hs'].
    replace (k - i)%nat with (S (k - S i)) by lia. reflexivity.
Qed.

Lemma safeCleanup_from_throws throws maxRetries path s fuel : forall i,
  (i < maxRetries)%nat -> (maxRetries - i <= fuel)%nat ->
  (forall j, (i <= j < maxRetries)%nat -> throws j = true) ->
  Part000.safeCleanup_from throws maxRetries fuel i path s
  = (repeat (Delay 1000) (maxRetries - 1 - i), s, Part000.CleanupThrows).
Proof.
  induction fuel as [|fuel IH]; intros i Hi Hfuel Hthrows; [lia|].
  cbn [Part000.safeCleanup_from].
  destruct (i <? maxRetries)%nat eqn:Ei; [|apply Nat.ltb_ge in Ei; lia].
  rewrite Hthrows by lia.
  destruct (i =? maxRetries - 1)%nat eqn:Elast.
  - apply Nat.eqb_eq in Elast.
    replace (maxRetries - 1 - i)%nat with 0%nat by lia. reflexivity.
  - apply Nat.eqb_neq in Elast.
    rewrite IH by (try lia; intros j Hj; apply Hthrows; lia).
    replace (maxRetries - 1 - i)%nat with (S (maxRetries - 1 - S i)) by lia.
    reflexivity.
Qed.



(** ** The instance pool of the second unnamed source *)

Lemma less_busy_min pool : forall i users seen,
  In (i, users) seen ->
  (forall e, In e seen -> (length users <= length (snd e))%nat) ->
  exists j u,
    fold_left Part001.less_busy pool (Some i, Some (length users))
    = (Some j, Some (length u)) /\
    In (j, u) (seen ++ pool) /\
    forall e, In e (seen ++ pool) -> (length u <= length (snd e))%nat.
Proof.
  induction pool as [|[k w] pool IH]; intros i users seen Hin Hmin; simpl.
  - exists i, users. rewrite app_nil_r. now split.
  - unfold Part001.less_busy at 2. simpl.
    destruct (length w <? length users)%nat eqn:E.
    + apply Nat.ltb_lt in E.
      destruct (IH k w (seen ++ [(k, w)])%list) as (j & u & Heq & Hj & Hu).
      * apply in_or_app. right. now left.
      * intros e He. apply in_app_or in He as [He|[<-|[]]]; simpl; [|lia].
        specialize (Hmin e He). lia.
      * exists j, u. rewrite <- app_assoc in Hj, Hu. now split.
    + apply Nat.ltb_ge in E.
      destruct (IH i users (seen ++ [(k, w)])%list) as (j & u & Heq & Hj & Hu).
      * apply in_or_app. now left.
      * intros e He. apply in_app_or in He as [He|[<-|[]]]; simpl; [|lia].
        now apply Hmin.
      * exists j, u. rewrite <- app_assoc in Hj, Hu. now split.
Qed.

(** [getClientInstance] always yields an instance.  With an empty pool it
    makes the first one; otherwise it changes nothing and yields an
    instance of the pool with the fewest users, so that the pool never
    gets a second instance. *)
Theorem getClientInstance_least_busy s :
  (Part001.clientPool s = [] ->
   Part001.getClientInstance s
   = (Some (Part001.symbols s),
      Part001.with_pool [(Part001.symbols s, [])] (S (Part001.symbols s)) s)) /\
  (Part001.clientPool s <> [] ->
   exists i users,
     Part001.getClientInstance s = (Some i, s) /\
     In (i, users) (Part001.clientPool s) /\
     forall e, In e (Part001.clientPool s) ->
               (length users <= length (snd e))%nat).
Proof.
  unfold Part001.getClientInstance. split.
  - intros ->. reflexivity.
  - intros Hne. destruct (Part001.clientPool s) as [|[k w] pool]; [contradiction|].
    simpl. unfold Part001.less_busy at 2. simpl.
    destruct (less_busy_min pool k w [(k, w)]) as (j & u & Heq & Hj & Hu).
    + now left.
    + intros e [<-|[]]. simpl. lia.
    + rewrite Heq. simpl. exists j, u. now split.
Qed.

Lemma getClientInstance_least_busy_witness :
  let s := Part001.mkState [] [] [(0%nat, ["a"; "b"]); (1%nat, ["c"])] 2 [] [] in
  exists users,
    Part001.getClientInstance s = (Some 1%nat, s) /\
    In (1%nat, users) (Part001.clientPool s).
Proof.
  destruct (proj2 (getClientInstance_least_busy
                     (Part001.mkState [] [] [(0%nat, ["a"; "b"]); (1%nat, ["c"])]
                                      2 [] [])))
    as (i & users & Heq & Hin & _); [discriminate|].
  exists users. vm_compute in Heq. injection Heq as <-. now split.
Defined.

(** ** Saved sessions of the second unnamed source *)

Lemma Part001_cleanupSession_files W now uid s id :
  fs_throws W uid = false ->
  map_get uid (Part001.activeClients s) = Some id ->
  Part001.sessionFiles (Part001.cleanupSession W now uid s)
  = map_set uid
      (Part001.mkSession now
         (status_is ready (fst <$> Part001.heap s !! id)))
      (Part001.sessionFiles s) /\
  Part001.heap (Part001.cleanupSession W now uid s)
  = (if destroy_throws W id then Part001.heap s
     else alter (fun c => (set_destroyed (fst c), snd c)) id (Part001.heap s)).
Proof.
  intros Hfs Hget. unfold Part001.cleanupSession, Part001.saveSession.
  rewrite Hget, Hfs. now destruct (destroy_throws W id).
Qed.

(** What [cleanupSession] writes to [session.json] is what the next
    [initializeClient] of the tenant reads: the tenant is registered again
    with status 'resuming' when the record torn down was READY, with
    'initializing' otherwise. *)
Theorem saved_session_resumed W now now' rc uid s id c instance :
  fs_throws W uid = false ->
  map_get uid (Part001.activeClients s) = Some id ->
  Part001.heap s !! id = Some (c, instance) ->
  let s1 := Part001.cleanupSession W now uid s in
  fst (Part001.loadSession W uid s1)
  = Some (Part001.mkSession now (Status_eqb (status c) ready)) /\
  (create_throws W uid rc = false ->
   exists id' c',
     Part001.lookup uid (snd (fst (Part001.attempt W now' rc uid s1)))
     = Some (id', c') /\
     status c' = (if Status_eqb (status c) ready then resuming
                  else initializing) /\
     lastActivity c' = now').
Proof.
  intros Hfs Hget Hcell s1.
  destruct (Part001_cleanupSession_files W now uid s id Hfs Hget)
    as [Hfiles Hheap]. fold s1 in Hfiles, Hheap.
  rewrite Hcell in Hfiles. simpl in Hfiles.
  assert (Hload : Part001.loadSession W uid s1
                  = (Some (Part001.mkSession now (Status_eqb (status c) ready)),
                     Part001.with_sessions
                       (map_set uid
                          (Part001.mkSession now (Status_eqb (status c) ready))
                          (Part001.userSessions s1))
                       (Part001.sessionFiles s1) s1)).
  { unfold Part001.loadSession. rewrite Hfs, Hfiles, map_get_set_eq.
    reflexivity. }
  split; [now rewrite Hload|]. intros Hcreate.
  assert (Habs : Part001.lookup uid s1 = None).
  { apply Part001_lookup_absent. subst s1.
    rewrite Part001_cleanupSession_active. apply map_get_delete_eq. }
  unfold Part001.attempt. rewrite Habs. unfold Part001.build. rewrite Hload.
  destruct (Part001_getClientInstance_some
              (Part001.with_sessions
                 (map_set uid
                    (Part001.mkSession now (Status_eqb (status c) ready))
                    (Part001.userSessions s1))
                 (Part001.sessionFiles s1) s1))
    as (i & s2 & -> & Hh2 & Ha2).
  rewrite Hfs, Hcreate. cbn [Part001.authenticated_].
  set (c' := mkClient uid _ None now' (Some Pending) false true).
  exists (length (Part001.heap s2)), c'.
  assert (Hl : forall a : Attempt,
            Part001.lookup uid
              (snd (fst ([NewClient (length (Part001.heap s2))],
                         Part001.with_active
                           (map_set uid (length (Part001.heap s2))
                              (Part001.activeClients s2))
                           (Part001.with_heap
                              (Part001.heap s2 ++ [(c', i)]) s2), a)))
            = Some (length (Part001.heap s2), c')).
  { intros a. unfold Part001.lookup. simpl. rewrite map_get_set_eq.
    rewrite lookup_app_r by lia. now rewrite Nat.sub_diag. }
  destruct (initialize_throws W (length (Part001.heap s2)));
    (split; [apply Hl | now split]).
Qed.

Lemma saved_session_resumed_witness :
  let s0 := snd (fst (Part001.initializeClient calm (fun _ => 0) "a"
                        Part001.initial)) in
  let s := Part001.on_ready 5 0 s0 in
  let s1 := Part001.cleanupSession calm 9 "a" s in
  status <$> (snd <$> Part001.lookup "a"
                        (snd (fst (Part001.attempt calm 20 0 "a" s1))))
  = Some resuming.
Proof.
  pose proof (saved_session_resumed calm 9 20 0 "a"
                (Part001.on_ready 5 0
                   (snd (fst (Part001.initializeClient calm (fun _ => 0) "a"
                                Part001.initial))))
                0%nat (mkClient "a" ready None 5 (Some Resolved) false false)
                0%nat eq_refl eq_refl eq_refl) as [_ H].
  destruct (H eq_refl) as (id' & c' & Hl & Hs & _).
  cbv zeta. rewrite Hl. simpl. now rewrite Hs.
Defined.

(** ** Which record is evicted *)

Section OldestFacts.
Variables (h : list clientState) (ok : clientState -> bool).

Let pick (acc : option string * Z) (e : string * nat) : option string * Z :=
  match h !! snd e with
  | Some c => if (lastActivity c <? snd acc) && ok c
              then (Some (fst e), lastActivity c) else acc
  | None => acc
  end.

(** The candidate so far is an entry seen, older than [now], and no
    acceptable entry seen is older than it. *)
Let chosen (now : Z) (seen : list (string * nat)) (acc : option string * Z)
  : Prop :=
  snd acc <= now /\
  (forall u, fst acc = Some u ->
     exists id c, In (u, id) seen /\ h !! id = Some c /\ ok c = true /\
                  lastActivity c = snd acc /\ snd acc < now) /\
  (fst acc = None -> snd acc = now) /\
  (forall e c, In e seen -> h !! snd e = Some c -> ok c = true ->
               snd acc <= lastActivity c).

Lemma pick_chosen now l : forall seen acc,
  chosen now seen acc -> chosen now (seen ++ l) (fold_left pick l acc).
Proof.
  induction l as [|e l IH]; intros seen acc Hacc; simpl.
  - now rewrite app_nil_r.
  - replace (seen ++ e :: l)%list with ((seen ++ [e]) ++ l)%list
      by now rewrite <- app_assoc.
    apply IH. destruct Hacc as (Hle & Hsome & Hnone & Hmin).
    assert (Hkeep : forall u, fst acc = Some u ->
              exists id c, In (u, id) (seen ++ [e]) /\ h !! id = Some c /\
                ok c = true /\ lastActivity c = snd acc /\ snd acc < now).
    { intros u Hu. destruct (Hsome u Hu) as (id & c0 & Hin & Hrest).
      exists id, c0. split; [apply in_or_app; now left | exact Hrest]. }
    unfold pick. destruct (h !! snd e) as [c|] eqn:Ec.
    + destruct ((lastActivity c <? snd acc) && ok c) eqn:Etest.
      * apply andb_true_iff in Etest as [Elt Eok]. apply Z.ltb_lt in Elt.
        split; [simpl; lia|]. split; [|split].
        -- simpl. intros u Hu. injection Hu as <-. exists (snd e), c.
           split; [apply in_or_app; right; left; now destruct e|].
           split; [exact Ec|]. split; [exact Eok|]. split; [reflexivity|lia].
        -- simpl. discriminate.
        -- simpl. intros e' c' He' Hc' Hok'.
           apply in_app_or in He' as [He'|[<-|[]]].
           ++ specialize (Hmin e' c' He' Hc' Hok'). lia.
           ++ rewrite Ec in Hc'. injection Hc' as <-. lia.
      * split; [exact Hle|]. split; [exact Hkeep|]. split; [exact Hnone|].
        intros e' c' He' Hc' Hok'.
        apply in_app_or in He' as [He'|[<-|[]]]; [now apply (Hmin e' c')|].
        rewrite Ec in Hc'. injection Hc' as <-. rewrite Hok' in Etest.
        rewrite andb_true_r in Etest. now apply Z.ltb_ge in Etest.
    + split; [exact Hle|]. split; [exact Hkeep|]. split; [exact Hnone|].
      intros e' c' He' Hc' Hok'.
      apply in_app_or in He' as [He'|[<-|[]]]; [now apply (Hmin e' c')|].
      congruence.
Qed.

Lemma pick_oldest now l u t :
  fold_left pick l (None, now) = (Some u, t) ->
  exists id c,
    In (u, id) l /\ h !! id = Some c /\ ok c = true /\
    lastActivity c = t /\ t < now /\
    forall e c', In e l -> h !! snd e = Some c' -> ok c' = true ->
                 lastActivity c <= lastActivity c'.
Proof.
  intros H.
  destruct (pick_chosen now l [] (None, now)) as (_ & Hsome & _ & Hmin).
  { split; [simpl; lia|]. split; [simpl; discriminate|].
    split; [reflexivity|]. intros e c []. }
  rewrite app_nil_l, H in Hsome, Hmin. cbn [fst snd] in Hsome, Hmin.
  destruct (Hsome u eq_refl) as (id & c & Hin & Hc & Hok & Hla & Hlt).
  exists id, c. do 5 (split; [assumption|]).
  intros e c' He Hc' Hok'. rewrite Hla. now apply (Hmin e c').
Qed.

Lemma pick_none now l :
  (forall e c, In e l -> h !! snd e = Some c -> ok c = true ->
               now <= lastActivity c) ->
  fold_left pick l (None, now) = (None, now).
Proof.
  induction l as [|e l IH]; intros H; simpl; [reflexivity|].
  assert (He : pick (None, now) e = (None, now)).
  { unfold pick. destruct (h !! snd e) as [c|] eqn:Ec; [|reflexivity].
    simpl. destruct (ok c) eqn:Eok; [|now rewrite andb_false_r].
    specialize (H e c (or_introl eq_refl) Ec Eok).
    apply Z.ltb_ge in H. now rewrite H. }
  rewrite He. apply IH. intros e' c He' Hc. apply (H e' c); [now right | exact Hc].
Qed.

Lemma pick_some now l e c :
  In e l -> h !! snd e = Some c -> ok c = true -> lastActivity c < now ->
  exists u t,
    fold_left pick l (None, now) = (Some u, t) /\
    In u (map fst l) /\ t <= lastActivity c.
Proof.
  intros He Hc Hok Hlt.
  destruct (pick_chosen now l [] (None, now)) as (_ & Hsome & Hnone & Hmin).
  { split; [simpl; lia|]. split; [simpl; discriminate|].
    split; [reflexivity|]. intros e0 c0 []. }
  rewrite app_nil_l in Hsome, Hmin.
  specialize (Hmin e c He Hc Hok).
  destruct (fold_left pick l (None, now)) as [[u|] t]; cbn [fst snd] in *.
  - exists u, t. split; [reflexivity|]. split; [|exact Hmin].
    destruct (Hsome u eq_refl) as (id & c0 & Hin & _).
    apply in_map_iff. now exists (u, id).
  - specialize (Hnone eq_refl). lia.
Qed.
End OldestFacts.

Lemma Part000_older_pick s acc e :
  Part000.older s acc e
  = match Part000.heap s !! snd e with
    | Some c => if (lastActivity c <? snd acc) && true
                then (Some (fst e), lastActivity c) else acc
    | None => acc
    end.
Proof.
  unfold Part000.older. destruct (Part000.heap s !! snd e); [|reflexivity].
  now rewrite andb_true_r.
Qed.

Lemma Part000_fold_older s l : forall acc,
  fold_left (Part000.older s) l acc
  = fold_left (fun acc e =>
                 match Part000.heap s !! snd e with
                 | Some c => if (lastActivity c <? snd acc) && true
                             then (Some (fst e), lastActivity c) else acc
                 | None => acc
                 end) l acc.
Proof.
  induction l as [|e l IH]; intros acc; simpl; [reflexivity|].
  now rewrite Part000_older_pick, IH.
Qed.

Lemma Part000_oldest_none now s :
  (forall e c, In e (Part000.activeClients s) ->
               Part000.heap s !! snd e = Some c -> now <= lastActivity c) ->
  Part000.oldest now s = None.
Proof.
  intros H. unfold Part000.oldest. rewrite Part000_fold_older.
  rewrite (pick_none (Part000.heap s) (fun _ => true) now
             (Part000.activeClients s)); [reflexivity|].
  intros e c He Hc _. now apply (H e c).
Qed.

(** The first unnamed source evicts the least recently active record.
    When some registered record was last active strictly before the clock
    reading, the search of [initializeClient] chooses a tenant (uids are
    not empty); the tenant it chooses is registered, its record was last
    active strictly before the clock reading, and no registered record
    was last active earlier; the status plays no part.  When no
    registered record was last active before the clock reading, nobody is
    chosen. *)
Theorem oldest_least_recent now s :
  (forall uid, Part000.oldest now s = Some uid ->
     exists id c,
       In (uid, id) (Part000.activeClients s) /\
       Part000.heap s !! id = Some c /\ lastActivity c < now /\
       forall e c', In e (Part000.activeClients s) ->
                    Part000.heap s !! snd e = Some c' ->
                    lastActivity c <= lastActivity c') /\
  (forall e c,
     In e (Part000.activeClients s) ->
     Part000.heap s !! snd e = Some c -> lastActivity c < now ->
     (forall e', In e' (Part000.activeClients s) -> fst e' <> "") ->
     exists uid, Part000.oldest now s = Some uid) /\
  ((forall e c, In e (Part000.activeClients s) ->
                Part000.heap s !! snd e = Some c -> now <= lastActivity c) ->
   Part000.oldest now s = None).
Proof.
  split; [|split].
  - unfold Part000.oldest. rewrite Part000_fold_older. intros uid H.
    destruct (fold_left _ (Part000.activeClients s) (None, now))
      as [[u|] t] eqn:E; simpl in H; [|discriminate].
    destruct (String.eqb u ""); [discriminate|]. injection H as ->.
    apply (pick_oldest (Part000.heap s) (fun _ => true)) in E
      as (id & c & Hin & Hc & _ & Hla & Hlt & Hmin).
    exists id, c. split; [exact Hin|]. split; [exact Hc|].
    split; [lia|]. intros e c' He Hc'. now apply (Hmin e c').
  - intros e c He Hc Hlt Hkeys.
    unfold Part000.oldest. rewrite Part000_fold_older.
    destruct (pick_some (Part000.heap s) (fun _ => true) now
                (Part000.activeClients s) e c He Hc eq_refl Hlt)
      as (u & t & Heq & Hu & _).
    rewrite Heq. cbn [fst]. exists u.
    apply in_map_iff in Hu as (e' & <- & He').
    specialize (Hkeys e' He'). apply String.eqb_neq in Hkeys.
    now rewrite Hkeys.
  - apply Part000_oldest_none.
Qed.

Lemma oldest_least_recent_witness :
  let s := Part000.mkState
             [mkClient "a" pending None 7 (Some Pending) false true;
              mkClient "b" ready None 3 (Some Resolved) false false]
             [("a", 0%nat); ("b", 1%nat)] ["a"; "b"] in
  (exists uid, Part000.oldest 10 s = Some uid) /\
  Part000.oldest 3 s = None.
Proof.
  cbv zeta. split.
  - apply (proj1 (proj2 (oldest_least_recent 10
             (Part000.mkState
                [mkClient "a" pending None 7 (Some Pending) false true;
                 mkClient "b" ready None 3 (Some Resolved) false false]
                [("a", 0%nat); ("b", 1%nat)] ["a"; "b"])))
             ("a", 0%nat)
             (mkClient "a" pending None 7 (Some Pending) false true)).
    + now left.
    + reflexivity.
    + simpl. lia.
    + intros e' [<-|[<-|[]]]; discriminate.
  - apply (proj2 (proj2 (oldest_least_recent 3 _))).
    intros e c [<-|[<-|[]]] [= <-]; simpl; lia.
Defined.

(** In the first unnamed source the pool limit holds only while the clock
    moves: when the registry is full, no registered record was last active
    before the clock reading and the tenant is new, [initializeClient]
    tears nobody down and registers one record more than MAX_INSTANCES
    allows. *)
Theorem admission_without_eviction W now retryCount uid s :
  (MAX_INSTANCES <= length (Part000.activeClients s))%nat ->
  (forall e c, In e (Part000.activeClients s) ->
               Part000.heap s !! snd e = Some c -> now <= lastActivity c) ->
  map_get uid (Part000.activeClients s) = None ->
  fs_throws W uid = false ->
  create_throws W uid retryCount = false ->
  let '(tr, s', _) := Part000.attempt W now retryCount uid s in
  tr = [NewClient (length (Part000.heap s))] /\
  length (Part000.activeClients s')
  = S (length (Part000.activeClients s)) /\
  (MAX_INSTANCES < length (Part000.activeClients s'))%nat.
Proof.
  intros Hfull Hnew Habs Hfs Hcreate.
  assert (Hl : Part000.lookup uid s = None).
  { unfold Part000.lookup. now rewrite Habs. }
  unfold Part000.attempt. rewrite Hl. unfold Part000.build.
  apply Nat.leb_le in Hfull. rewrite Hfull.
  rewrite (Part000_oldest_none now s Hnew).
  rewrite Hfs, andb_false_r, Hcreate.
  rewrite Part000_ensureDir_heap.
  apply Nat.leb_le in Hfull.
  assert (Hlen : length (map_set uid (length (Part000.heap s))
                           (Part000.activeClients (Part000.ensureDir uid s)))
                 = S (length (Part000.activeClients s))).
  { replace (Part000.activeClients (Part000.ensureDir uid s))
      with (Part000.activeClients s)
      by (unfold Part000.ensureDir; now destruct (Part000.pathExists uid s)).
    now rewrite length_map_set, Habs. }
  destruct (initialize_throws W (length (Part000.heap s))); simpl;
    (split; [reflexivity|]); rewrite Hlen; (split; [reflexivity|lia]).
Qed.

Lemma admission_without_eviction_witness :
  let s := Part000.mkState
             [mkClient "a" pending None 5 (Some Pending) false true;
              mkClient "b" pending None 5 (Some Pending) false true]
             [("a", 0%nat); ("b", 1%nat)] ["a"; "b"] in
  length (Part000.activeClients
            (snd (fst (Part000.attempt calm 5 0 "c" s)))) = 3%nat.
Proof.
  cbv zeta.
  assert (Hfull : (MAX_INSTANCES <= 2)%nat) by (unfold MAX_INSTANCES; lia).
  assert (Hnew : forall e c,
            In e [("a", 0%nat); ("b", 1%nat)] ->
            [mkClient "a" pending None 5 (Some Pending) false true;
             mkClient "b" pending None 5 (Some Pending) false true] !! snd e
            = Some c -> 5 <= lastActivity c).
  { intros e c [<-|[<-|[]]] [= <-]; simpl; lia. }
  pose proof (admission_without_eviction calm 5 0 "c"
    (Part000.mkState
       [mkClient "a" pending None 5 (Some Pending) false true;
        mkClient "b" pending None 5 (Some Pending) false true]
       [("a", 0%nat); ("b", 1%nat)] ["a"; "b"])
    Hfull Hnew eq_refl eq_refl eq_refl) as H.
  destruct (Part000.attempt calm 5 0 "c" _) as [[tr s'] a].
  destruct H as (_ & Hlen & _). exact Hlen.
Defined.

(** In [main2.js] the queue recycles the least recently active READY
    record, and only after it has been idle for more than
    INACTIVITY_TIMEOUT.  When some registered READY record has been idle
    for more than INACTIVITY_TIMEOUT, the search of [processQueue]
    chooses a tenant (uids are not empty) and a full pool is relieved by
    the teardown of that tenant; the tenant chosen is registered, its
    record is READY, was last active more than INACTIVITY_TIMEOUT before
    the clock reading, and no registered READY record was last active
    earlier.  When every READY record was active within
    INACTIVITY_TIMEOUT, nobody is chosen and a full pool makes the pass
    stop. *)
Theorem recyclable_least_recent_ready W now s :
  (forall uid, Main2.recyclable now s = Some uid ->
     exists id c,
       In (uid, id) (Main2.activeClients s) /\
       Main2.heap s !! id = Some c /\ status c = ready /\
       now - lastActivity c > INACTIVITY_TIMEOUT /\
       forall e c', In e (Main2.activeClients s) ->
                    Main2.heap s !! snd e = Some c' -> status c' = ready ->
                    lastActivity c <= lastActivity c') /\
  (forall e c,
     In e (Main2.activeClients s) ->
     Main2.heap s !! snd e = Some c -> status c = ready ->
     now - lastActivity c > INACTIVITY_TIMEOUT ->
     (forall e', In e' (Main2.activeClients s) -> fst e' <> "") ->
     exists uid,
       Main2.recyclable now s = Some uid /\
       ((MAX_INSTANCES <= length (Main2.activeClients s))%nat ->
        Main2.make_room W now s
        = Some ([Main2.Evict uid], Main2.cleanupSession W now uid s))) /\
  ((forall e c, In e (Main2.activeClients s) ->
                Main2.heap s !! snd e = Some c -> status c = ready ->
                now - lastActivity c <= INACTIVITY_TIMEOUT) ->
   Main2.recyclable now s = None /\
   ((MAX_INSTANCES <= length (Main2.activeClients s))%nat ->
    Main2.make_room W now s = None)).
Proof.
  split; [|split].
  - intros uid H. unfold Main2.recyclable, Main2.oldest_ready in H.
    destruct (fold_left _ (Main2.activeClients s) (None, now))
      as [[u|] t] eqn:E; [|discriminate].
    destruct (negb (String.eqb u "") && (now - t >? INACTIVITY_TIMEOUT))
      eqn:Et; [|discriminate].
    injection H as ->. apply andb_true_iff in Et as [_ Et].
    apply Z.gtb_lt in Et.
    apply (pick_oldest (Main2.heap s)
             (fun c => Status_eqb (status c) ready)) in E
      as (id & c & Hin & Hc & Hok & Hla & Hlt & Hmin).
    exists id, c. split; [exact Hin|]. split; [exact Hc|].
    split; [now apply Status_eqb_eq|]. split; [lia|].
    intros e c' He Hc' Hr. apply (Hmin e c' He Hc').
    now apply Status_eqb_eq.
  - intros e c He Hc Hr Hidle Hkeys.
    assert (Hlt : lastActivity c < now)
      by (unfold INACTIVITY_TIMEOUT in Hidle; lia).
    apply Status_eqb_eq in Hr.
    destruct (pick_some (Main2.heap s)
                (fun c => Status_eqb (status c) ready) now
                (Main2.activeClients s) e c He Hc Hr Hlt)
      as (u & t & Heq & Hu & Ht).
    assert (Hrec : Main2.recyclable now s = Some u).
    { unfold Main2.recyclable, Main2.oldest_ready.
      change (fold_left (Main2.older_ready s) (Main2.activeClients s)
                        (None, now))
        with (fold_left
                (fun acc e0 =>
                   match Main2.heap s !! snd e0 with
                   | Some c0 =>
                       if (lastActivity c0 <? snd acc)
                          && Status_eqb (status c0) ready
                       then (Some (fst e0), lastActivity c0) else acc
                   | None => acc
                   end) (Main2.activeClients s) (None, now)).
      rewrite Heq.
      apply in_map_iff in Hu as (e' & <- & He').
      specialize (Hkeys e' He'). apply String.eqb_neq in Hkeys.
      rewrite Hkeys. cbn [negb andb].
      assert (Hgt : (now - t >? INACTIVITY_TIMEOUT) = true).
      { rewrite Z.gtb_ltb. apply Z.ltb_lt. lia. }
      now rewrite Hgt. }
    exists u. split; [exact Hrec|]. intros Hfull. unfold Main2.make_room.
    apply Nat.leb_le in Hfull. now rewrite Hfull, Hrec.
  - intros H.
    assert (Hnone : Main2.recyclable now s = None).
    { unfold Main2.recyclable, Main2.oldest_ready.
      destruct (fold_left _ (Main2.activeClients s) (None, now))
        as [[u|] t] eqn:E; [|reflexivity].
      apply (pick_oldest (Main2.heap s)
               (fun c => Status_eqb (status c) ready)) in E
        as (id & c & Hin & Hc & Hok & Hla & Hlt & Hmin).
      apply Status_eqb_eq in Hok.
      specialize (H (u, id) c Hin Hc Hok).
      assert (Hle : (now - t >? INACTIVITY_TIMEOUT) = false).
      { rewrite Z.gtb_ltb. apply Z.ltb_ge. lia. }
      now rewrite Hle, andb_false_r. }
    split; [exact Hnone|]. intros Hfull. unfold Main2.make_room.
    apply Nat.leb_le in Hfull. now rewrite Hfull, Hnone.
Qed.

Lemma recyclable_least_recent_ready_witness :
  let s := Main2.mkState
             [mkClient "a" ready None 7 (Some Resolved) false false;
              mkClient "b" pending None 3 (Some Pending) false true]
             [("a", 0%nat); ("b", 1%nat)] [("c", 0%nat)] 1 false [] in
  (exists uid,
     Main2.recyclable (7 + INACTIVITY_TIMEOUT + 1) s = Some uid /\
     Main2.make_room calm (7 + INACTIVITY_TIMEOUT + 1) s
     = Some ([Main2.Evict uid],
             Main2.cleanupSession calm (7 + INACTIVITY_TIMEOUT + 1) uid s)) /\
  Main2.make_room calm (7 + INACTIVITY_TIMEOUT) s = None.
Proof.
  cbv zeta. split.
  - destruct (proj1 (proj2 (recyclable_least_recent_ready calm
                (7 + INACTIVITY_TIMEOUT + 1)
                (Main2.mkState
                   [mkClient "a" ready None 7 (Some Resolved) false false;
                    mkClient "b" pending None 3 (Some Pending) false true]
                   [("a", 0%nat); ("b", 1%nat)] [("c", 0%nat)] 1 false [])))
                ("a", 0%nat)
                (mkClient "a" ready None 7 (Some Resolved) false false))
      as (uid & Hrec & Hroom).
    + now left.
    + reflexivity.
    + reflexivity.
    + simpl. lia.
    + intros e' [<-|[<-|[]]]; discriminate.
    + exists uid. split; [exact Hrec|]. apply Hroom.
      simpl. unfold MAX_INSTANCES. lia.
  - apply (proj2 (proj2 (recyclable_least_recent_ready calm
                           (7 + INACTIVITY_TIMEOUT) _))).
    + intros e c [<-|[<-|[]]] [= <-]; simpl; intros Hr;
        [unfold INACTIVITY_TIMEOUT; lia | discriminate].
    + simpl. unfold MAX_INSTANCES. lia.
Defined.

(** ** A pass of the connection queue of [main2.js] *)

Lemma length_map_delete_lt {V} k (v : V) m :
  In (k, v) m -> (length (map_delete k m) < length m)%nat.
Proof.
  induction m as [|[k' v'] m IH]; simpl; [contradiction|].
  intros [[= -> ->]|Hin].
  - rewrite String.eqb_refl. simpl.
    pose proof (length_map_delete k m). lia.
  - specialize (IH Hin). destruct (String.eqb k' k); simpl; lia.
Qed.

Lemma Main2_cleanupSession_flag W now uid s :
  Main2.isProcessingQueue (Main2.cleanupSession W now uid s)
  = Main2.isProcessingQueue s.
Proof.
  unfold Main2.cleanupSession.
  destruct (map_get uid (Main2.activeClients s)) as [id|]; [|reflexivity].
  unfold Main2.preserveSession.
  destruct (_ || _), (page_ok W id), (destroy_throws W id); reflexivity.
Qed.

Lemma settled_app evs evs' :
  settled (evs ++ evs') = (settled evs ++ settled evs')%list.
Proof. unfold settled. apply omap_app. Qed.

Lemma make_room_slot W now s evs s1 :
  bounded s ->
  Main2.make_room W now s = Some (evs, s1) ->
  (length (Main2.activeClients s1) < MAX_INSTANCES)%nat /\
  Main2.CONNECTION_QUEUE s1 = Main2.CONNECTION_QUEUE s /\
  Main2.isProcessingQueue s1 = Main2.isProcessingQueue s /\
  settled evs = [].
Proof.
  intros Hb. unfold Main2.make_room.
  destruct (MAX_INSTANCES <=? length (Main2.activeClients s))%nat eqn:E.
  - destruct (Main2.recyclable now s) as [old|] eqn:Er; [|discriminate].
    intros [= <- <-].
    destruct (recyclable_ready now s old Er) as (id & c & Hin & _).
    rewrite Main2_cleanupSession_active, Main2_cleanupSession_queue,
      Main2_cleanupSession_flag.
    pose proof (length_map_delete_lt old id _ Hin). unfold bounded in Hb.
    repeat split; lia.
  - intros [= <- <-]. apply Nat.leb_gt in E. now repeat split.
Qed.

(** What [initializeClient] does for a queue entry once there is a slot:
    it never enqueues. *)
Lemma Main2_initializeClient_slot W now uid s :
  (length (Main2.activeClients s) < MAX_INSTANCES)%nat ->
  let '(r, s') := Main2.initializeClient W now uid s in
  Main2.CONNECTION_QUEUE s' = Main2.CONNECTION_QUEUE s /\
  Main2.isProcessingQueue s' = Main2.isProcessingQueue s /\
  match r with
  | Throw _ => True
  | Ret h =>
      (exists id, Main2.await h s' = Some (inl id)) \/
      (exists id c, h = HReady id /\ Main2.await h s' = None /\
                    Main2.lookup uid s' = Some (id, c) /\
                    readyPromise c = Some Pending)
  end.
Proof.
  intros Hlt. apply Nat.leb_gt in Hlt.
  unfold Main2.initializeClient, Main2.initializeClient_check. rewrite Hlt.
  assert (Hcreate :
    let '(r, s') := Main2.initializeClient_create W now uid s in
    Main2.CONNECTION_QUEUE s' = Main2.CONNECTION_QUEUE s /\
    Main2.isProcessingQueue s' = Main2.isProcessingQueue s /\
    match r with
    | Throw _ => True
    | Ret h =>
        (exists id, Main2.await h s' = Some (inl id)) \/
        (exists id c, h = HReady id /\ Main2.await h s' = None /\
                      Main2.lookup uid s' = Some (id, c) /\
                      readyPromise c = Some Pending)
    end).
  { unfold Main2.initializeClient_create.
    destruct (fs_throws W uid); [now repeat split|].
    destruct (create_throws W uid 0); [now repeat split|].
    destruct (initialize_throws W (length (Main2.heap s)));
      [now repeat split|].
    split; [reflexivity|]. split; [reflexivity|]. right.
    exists (length (Main2.heap s)),
      (mkClient uid initializing None now (Some Pending) false true).
    split; [reflexivity|].
    assert (Hcell : (Main2.heap s ++
              [mkClient uid initializing None now (Some Pending) false true])%list
              !! length (Main2.heap s)
            = Some (mkClient uid initializing None now (Some Pending)
                             false true)).
    { rewrite lookup_app_r by lia. now rewrite Nat.sub_diag. }
    split; [|split; [|reflexivity]].
    - unfold Main2.await. cbn [Main2.heap Main2.with_active Main2.with_heap].
      now rewrite Hcell.
    - unfold Main2.lookup.
      cbn [Main2.heap Main2.activeClients Main2.with_active Main2.with_heap].
      now rewrite map_get_set_eq, Hcell. }
  destruct (Main2.lookup uid s) as [[id c]|]; [|exact Hcreate].
  destruct (Status_eqb (status c) ready); [|exact Hcreate].
  split; [reflexivity|]. split; [reflexivity|]. left. now exists id.
Qed.

Lemma processQueue_loop_pass W now fuel : forall s evs s' e,
  bounded s ->
  (length (Main2.CONNECTION_QUEUE s) < fuel)%nat ->
  Main2.processQueue_loop W now fuel s = (evs, s', e) ->
  (exists served,
     Main2.CONNECTION_QUEUE s = (served ++ Main2.CONNECTION_QUEUE s')%list /\
     map snd served = (settled evs ++ awaited e)%list) /\
  match e with
  | Main2.Finished =>
      Main2.isProcessingQueue s' = false /\
      (Main2.CONNECTION_QUEUE s' = [] \/
       (MAX_INSTANCES <= length (Main2.activeClients s'))%nat /\
       Main2.recyclable now s' = None)
  | Main2.Suspended h q =>
      Main2.isProcessingQueue s' = Main2.isProcessingQueue s /\
      exists uid id c,
        In (uid, q) (Main2.CONNECTION_QUEUE s) /\ h = HReady id /\
        Main2.lookup uid s' = Some (id, c) /\ readyPromise c = Some Pending
  | Main2.OutOfFuel => False
  end.
Proof.
  induction fuel as [|fuel IH]; intros s evs s' e Hb Hlen; [lia|].
  cbn [Main2.processQueue_loop].
  destruct (Main2.CONNECTION_QUEUE s) as [|[uid q] rest] eqn:Eq.
  { intros [= <- <- <-]. split; [now exists []|]. split; [reflexivity|].
    left. exact Eq. }
  destruct (Main2.make_room W now s) as [[evs0 s1]|] eqn:Er.
  2:{ intros [= <- <- <-]. split; [exists []; simpl; now rewrite Eq|].
      split; [reflexivity|]. right. unfold Main2.make_room in Er.
      destruct (MAX_INSTANCES <=? length (Main2.activeClients s))%nat eqn:E;
        [|discriminate].
      apply Nat.leb_le in E. split; [exact E|].
      destruct (Main2.recyclable now s) eqn:Erec; [discriminate|].
      exact Erec. }
  destruct (make_room_slot W now s evs0 s1 Hb Er) as (Hslot & Hq1 & Hf1 & Hev0).
  pose proof (Main2_initializeClient_slot W now uid (Main2.with_queue rest s1)
                Hslot) as Hi.
  pose proof (bounded_initializeClient W now uid (Main2.with_queue rest s1))
    as Hb2.
  destruct (Main2.initializeClient W now uid (Main2.with_queue rest s1))
    as [r s2]. destruct Hi as (Hq2 & Hf2 & Hr). cbn [snd] in Hb2.
  assert (Hb2' : bounded s2).
  { apply Hb2. unfold bounded.
    cbn [Main2.activeClients Main2.with_queue]. lia. }
  cbn [Main2.CONNECTION_QUEUE Main2.with_queue] in Hq2.
  cbn [Main2.isProcessingQueue Main2.with_queue] in Hf2.
  assert (Hcont : forall ev q0,
            settled [ev] = [q0] -> q0 = q ->
            (let '(evs', s3, e0) := Main2.processQueue_loop W now fuel s2 in
             ((evs0 ++ ev :: evs')%list, s3, e0)) = (evs, s', e) ->
            (exists served,
               (uid, q) :: rest = (served ++ Main2.CONNECTION_QUEUE s')%list /\
               map snd served = (settled evs ++ awaited e)%list) /\
            match e with
            | Main2.Finished =>
                Main2.isProcessingQueue s' = false /\
                (Main2.CONNECTION_QUEUE s' = [] \/
                 (MAX_INSTANCES <= length (Main2.activeClients s'))%nat /\
                 Main2.recyclable now s' = None)
            | Main2.Suspended h q1 =>
                Main2.isProcessingQueue s' = Main2.isProcessingQueue s /\
                exists uid1 id c,
                  In (uid1, q1) ((uid, q) :: rest) /\ h = HReady id /\
                  Main2.lookup uid1 s' = Some (id, c) /\
                  readyPromise c = Some Pending
            | Main2.OutOfFuel => False
            end).
  { intros ev q0 Hev ->.
    destruct (Main2.processQueue_loop W now fuel s2) as [[evs' s3] e0] eqn:El.
    intros [= <- <- <-].
    assert (Hlen2 : (length (Main2.CONNECTION_QUEUE s2) < fuel)%nat).
    { rewrite Hq2. simpl in Hlen. lia. }
    destruct (IH s2 evs' s3 e0 Hb2' Hlen2 El) as [(served & Hs & Hm) Hend].
    split.
    - exists ((uid, q) :: served). rewrite Hq2 in Hs. split.
      + simpl. now rewrite Hs.
      + change (ev :: evs') with ([ev] ++ evs')%list.
        rewrite !settled_app, Hev0, Hev. simpl. now rewrite Hm.
    - destruct e0 as [|h q1|]; [exact Hend| |exact Hend].
      destruct Hend as (Hf & uid1 & id & c & Hin & Hrest).
      split; [congruence|]. exists uid1, id, c.
      split; [right; now rewrite <- Hq2|exact Hrest]. }
  destruct r as [h|e0].
  - destruct Hr as [(id & Ha)|(id & c & -> & Ha & Hl & Hp)].
    + rewrite Ha. now apply (Hcont (Main2.Resolve q id) q).
    + rewrite Ha. intros [= <- <- <-]. split.
      * exists [(uid, q)]. rewrite Hq2. split; [reflexivity|].
        now rewrite Hev0.
      * split; [congruence|]. exists uid, id, c.
        split; [now left|]. now split.
  - now apply (Hcont (Main2.Reject q e0) q).
Qed.



(** ** Session directories of the first unnamed source *)

Lemma Part000_cleanupSession_dirs W uid s :
  Part000.sessionDirs (Part000.cleanupSession W uid s) = Part000.sessionDirs s.
Proof.
  unfold Part000.cleanupSession.
  destruct (map_get uid (Part000.activeClients s)) as [id|]; [|reflexivity].
  now destruct (destroy_throws W id).
Qed.

Lemma Part000_pathExists_ensureDir uid s :
  Part000.pathExists uid (Part000.ensureDir uid s) = true.
Proof.
  unfold Part000.ensureDir.
  destruct (Part000.pathExists uid s) eqn:E; [exact E|].
  unfold Part000.pathExists. cbn [Part000.sessionDirs Part000.with_dirs].
  rewrite existsb_app. simpl. rewrite String.eqb_refl.
  now rewrite orb_true_r.
Qed.

(** The state in which [build] looks for the session directory. *)
Lemma Part000_build_spec W now rc uid s :
  exists tr0 s1,
    Part000.sessionDirs s1 = Part000.sessionDirs s /\
    let sessionExists := Part000.pathExists uid s in
    Part000.build W now rc uid s =
    if negb sessionExists && fs_throws W uid then (tr0, s1, AThrow ErrFs)
    else
      let s2 := Part000.ensureDir uid s1 in
      if create_throws W uid rc then (tr0, s2, AThrow ErrDriverCreate)
      else
        let id := length (Part000.heap s2) in
        let c := mkClient uid (if sessionExists then resuming else initializing)
                          None now (Some Pending) false true in
        let s3 := Part000.with_active
                    (map_set uid id (Part000.activeClients s2))
                    (Part000.with_heap (Part000.heap s2 ++ [c])%list s2) in
        if initialize_throws W id
        then ((tr0 ++ [NewClient id])%list, s3, AThrow ErrDriverInitialize)
        else ((tr0 ++ [NewClient id])%list, s3, AWait id).
Proof.
  unfold Part000.build.
  destruct (if (MAX_INSTANCES <=? length (Part000.activeClients s))%nat
            then match Part000.oldest now s with
                 | Some old => ([Teardown old], Part000.cleanupSession W old s)
                 | None => ([], s)
                 end
            else ([], s)) as [tr0 s1] eqn:E.
  assert (Hd : Part000.sessionDirs s1 = Part000.sessionDirs s).
  { destruct (MAX_INSTANCES <=? _)%nat; [|now injection E as <- <-].
    destruct (Part000.oldest now s); injection E as <- <-;
      [apply Part000_cleanupSession_dirs | reflexivity]. }
  exists tr0, s1. split; [exact Hd|]. cbv zeta.
  replace (Part000.pathExists uid s1) with (Part000.pathExists uid s)
    by (unfold Part000.pathExists; now rewrite Hd).
  reflexivity.
Qed.

Lemma Part000_build_dir W now rc uid s :
  fs_throws W uid = false \/ Part000.pathExists uid s = true ->
  Part000.pathExists uid (snd (fst (Part000.build W now rc uid s))) = true.
Proof.
  intros H.
  destruct (Part000_build_spec W now rc uid s) as (tr0 & s1 & Hd & ->).
  cbv zeta.
  assert (Hg : negb (Part000.pathExists uid s) && fs_throws W uid = false).
  { destruct H as [->| ->]; [apply andb_false_r | reflexivity]. }
  rewrite Hg.
  pose proof (Part000_pathExists_ensureDir uid s1) as He.
  destruct (create_throws W uid rc); [exact He|].
  destruct (initialize_throws W _); exact He.
Qed.

Lemma Part000_build_resumes W now rc uid s tr s' id :
  Part000.pathExists uid s = true ->
  Part000.build W now rc uid s = (tr, s', AWait id) ->
  exists c, Part000.lookup uid s' = Some (id, c) /\ status c = resuming /\
            lastActivity c = now.
Proof.
  intros Hp.
  destruct (Part000_build_spec W now rc uid s) as (tr0 & s1 & Hd & ->).
  cbv zeta. rewrite Hp. cbn [negb andb].
  destruct (create_throws W uid rc); [discriminate|].
  destruct (initialize_throws W _); [discriminate|].
  intros [= <- <- <-].
  exists (mkClient uid resuming None now (Some Pending) false true).
  split; [|now split]. unfold Part000.lookup.
  cbn [Part000.heap Part000.activeClients Part000.with_active
       Part000.with_heap].
  rewrite map_get_set_eq, lookup_app_r by lia. now rewrite Nat.sub_diag.
Qed.

Lemma Part000_attempt_absent W now rc uid s :
  map_get uid (Part000.activeClients s) = None ->
  Part000.attempt W now rc uid s = Part000.build W now rc uid s.
Proof. intros H. unfold Part000.attempt, Part000.lookup. now rewrite H. Qed.

Lemma Part000_catch_resumes W clock uid fuel : forall rc e s tr s' id rc',
  Part000.pathExists uid s = true ->
  catch (Part000.attempt W) Part000.forget clock fuel rc uid e s
  = (tr, s', Final_wait id rc') ->
  exists c, Part000.lookup uid s' = Some (id, c) /\ status c = resuming.
Proof.
  induction fuel as [|fuel IH]; intros rc e s tr s' id rc' Hp; cbn [catch].
  - destruct (rc <? MAX_RETRIES)%nat; discriminate.
  - destruct (rc <? MAX_RETRIES)%nat; [|discriminate].
    assert (Hp1 : Part000.pathExists uid (Part000.forget uid s) = true)
      by exact Hp.
    rewrite Part000_attempt_absent
      by (unfold Part000.forget; simpl; apply map_get_delete_eq).
    pose proof (Part000_build_dir W (clock (S rc)) (S rc) uid
                  (Part000.forget uid s) (or_intror Hp1)) as Hdir.
    pose proof (Part000_build_resumes W (clock (S rc)) (S rc) uid
                  (Part000.forget uid s)) as Hres.
    destruct (Part000.build W (clock (S rc)) (S rc) uid (Part000.forget uid s))
      as [[tr1 s2] [id1|id1|e1]]; cbn [fst snd] in Hdir.
    + discriminate.
    + intros [= <- <- <- <-].
      destruct (Hres tr1 s2 id1 Hp1 eq_refl) as (c & Hl & Hs & _).
      now exists c.
    + specialize (IH (S rc) e1 s2).
      destruct (catch (Part000.attempt W) Part000.forget clock fuel (S rc)
                      uid e1 s2) as [[tr2 s3] r].
      intros [= <- <- ->]. now apply (IH tr2 s3 id rc').
Qed.

Lemma Part000_build_status W now rc uid s tr s' id :
  Part000.build W now rc uid s = (tr, s', AWait id) ->
  exists c, Part000.lookup uid s' = Some (id, c) /\
            status c = (if Part000.pathExists uid s then resuming
                        else initializing).
Proof.
  destruct (Part000_build_spec W now rc uid s) as (tr0 & s1 & Hd & ->).
  cbv zeta.
  destruct (negb (Part000.pathExists uid s) && fs_throws W uid);
    [discriminate|].
  destruct (create_throws W uid rc); [discriminate|].
  destruct (initialize_throws W _); [discriminate|].
  intros [= <- <- <-].
  exists (mkClient uid (if Part000.pathExists uid s then resuming
                        else initializing) None now (Some Pending) false true).
  split; [|reflexivity]. unfold Part000.lookup.
  cbn [Part000.heap Part000.activeClients Part000.with_active
       Part000.with_heap].
  rewrite map_get_set_eq, lookup_app_r by lia. now rewrite Nat.sub_diag.
Qed.

Lemma Part000_build_throw W now rc uid s tr s1 e :
  Part000.build W now rc uid s = (tr, s1, AThrow e) ->
  (e = ErrFs /\ Part000.pathExists uid s1 = false) \/
  (e <> ErrFs /\ Part000.pathExists uid s1 = true).
Proof.
  destruct (Part000_build_spec W now rc uid s) as (tr0 & s0 & Hd & ->).
  cbv zeta.
  assert (Hp : Part000.pathExists uid s0 = Part000.pathExists uid s)
    by (unfold Part000.pathExists; now rewrite Hd).
  pose proof (Part000_pathExists_ensureDir uid s0) as He.
  destruct (Part000.pathExists uid s) eqn:E; cbn [negb andb].
  - destruct (create_throws W uid rc);
      [intros [= <- <- <-]; right; now split|].
    destruct (initialize_throws W _); [|discriminate].
    intros [= <- <- <-]. right. now split.
  - destruct (fs_throws W uid); [intros [= <- <- <-]; left; now split|].
    destruct (create_throws W uid rc);
      [intros [= <- <- <-]; right; now split|].
    destruct (initialize_throws W _); [|discriminate].
    intros [= <- <- <-]. right. now split.
Qed.

Lemma Part000_attempt_throw W now rc uid s tr s1 e :
  Part000.attempt W now rc uid s = (tr, s1, AThrow e) ->
  (e = ErrFs /\ Part000.pathExists uid s1 = false) \/
  (e <> ErrFs /\ Part000.pathExists uid s1 = true).
Proof.
  unfold Part000.attempt.
  destruct (Part000.lookup uid s) as [[id c]|];
    [|apply Part000_build_throw].
  destruct (Status_eqb (status c) ready); [discriminate|].
  destruct (_ || _); apply Part000_build_throw.
Qed.

(** In the first unnamed source nothing removes a session directory (the
    catch block keeps it 'to allow resuming', the call of [safeCleanup] in
    [cleanupSession] is commented out), and the status a retry registers
    tells how far the attempt before it got.  Each attempt has its own
    answers of the driver and the file system.
    After an attempt that failed in [new Client] or in
    [client.initialize()], past [ensureDir], the catch block
    ([activeClients.delete(uid)], the [try] block again) registers
    'resuming', also for a tenant that never had a session.  After an
    attempt whose [ensureDir] threw it registers 'initializing'.
    Hence for a call of [initializeClient] during which no file-system
    call for the tenant throws, a client started by a retry is
    'resuming'. *)
Theorem retry_starts_resuming uid :
  (forall W0 W1 now0 now1 rc0 rc1 s tr s1 e tr' s2 id,
     Part000.attempt W0 now0 rc0 uid s = (tr, s1, AThrow e) ->
     e <> ErrFs ->
     Part000.attempt W1 now1 rc1 uid (Part000.forget uid s1)
     = (tr', s2, AWait id) ->
     exists c, Part000.lookup uid s2 = Some (id, c) /\ status c = resuming) /\
  (forall W0 W1 now0 now1 rc0 rc1 s tr s1 tr' s2 id,
     Part000.attempt W0 now0 rc0 uid s = (tr, s1, AThrow ErrFs) ->
     Part000.attempt W1 now1 rc1 uid (Part000.forget uid s1)
     = (tr', s2, AWait id) ->
     exists c, Part000.lookup uid s2 = Some (id, c) /\
               status c = initializing) /\
  (forall W clock s tr s' id retryCount,
     map_get uid (Part000.activeClients s) = None ->
     fs_throws W uid = false ->
     Part000.initializeClient W clock uid s
     = (tr, s', Final_wait id retryCount) ->
     (0 < retryCount)%nat ->
     exists c, Part000.lookup uid s' = Some (id, c) /\ status c = resuming).
Proof.
  assert (Hretry : forall W1 now1 rc1 s1 tr' s2 id,
            Part000.attempt W1 now1 rc1 uid (Part000.forget uid s1)
            = (tr', s2, AWait id) ->
            exists c, Part000.lookup uid s2 = Some (id, c) /\
                      status c = (if Part000.pathExists uid s1 then resuming
                                  else initializing)).
  { intros W1 now1 rc1 s1 tr' s2 id.
    rewrite Part000_attempt_absent
      by (unfold Part000.forget; simpl; apply map_get_delete_eq).
    intros H. apply Part000_build_status in H. exact H. }
  split; [|split].
  - intros W0 W1 now0 now1 rc0 rc1 s tr s1 e tr' s2 id H0 He H1.
    apply Part000_attempt_throw in H0 as [[-> _]|[_ Hp]]; [contradiction|].
    destruct (Hretry W1 now1 rc1 s1 tr' s2 id H1) as (c & Hl & Hs).
    exists c. split; [exact Hl|]. now rewrite Hp in Hs.
  - intros W0 W1 now0 now1 rc0 rc1 s tr s1 tr' s2 id H0 H1.
    apply Part000_attempt_throw in H0 as [[_ Hp]|[He _]]; [|contradiction].
    destruct (Hretry W1 now1 rc1 s1 tr' s2 id H1) as (c & Hl & Hs).
    exists c. split; [exact Hl|]. now rewrite Hp in Hs.
  - intros W clock s tr s' id retryCount Habs Hfs.
    unfold Part000.initializeClient, initializeClient_from.
    rewrite Part000_attempt_absent by exact Habs.
    pose proof (Part000_build_dir W (clock 0%nat) 0 uid s (or_introl Hfs))
      as Hdir.
    destruct (Part000.build W (clock 0%nat) 0 uid s)
      as [[tr1 s1] [id1|id1|e1]]; cbn [fst snd] in Hdir.
    + discriminate.
    + intros [= <- <- <- <-]. lia.
    + destruct (catch (Part000.attempt W) Part000.forget clock MAX_RETRIES 0
                      uid e1 s1) as [[tr2 s2] r] eqn:Ec.
      intros [= <- <- ->] _.
      now apply (Part000_catch_resumes W clock uid MAX_RETRIES 0 e1 s1 tr2 s2
                   id retryCount).
Qed.

Lemma retry_starts_resuming_witness :
  let nodriver := mkOracle (fun _ _ => true) (fun _ => false)
                    (fun _ => false) (fun _ => false) (fun _ => true)
                    (fun _ => false) in
  let nodisk := mkOracle (fun _ _ => false) (fun _ => false)
                  (fun _ => false) (fun _ => false) (fun _ => true)
                  (fun _ => true) in
  let retry W0 :=
    Part000.attempt calm 1 1 "a"
      (Part000.forget "a"
         (snd (fst (Part000.attempt W0 0 0 "a" Part000.initial)))) in
  status <$> (snd <$> Part000.lookup "a" (snd (fst (retry nodriver))))
  = Some resuming /\
  status <$> (snd <$> Part000.lookup "a" (snd (fst (retry nodisk))))
  = Some initializing.
Proof.
  cbv zeta. split.
  - destruct (proj1 (retry_starts_resuming "a")
                (mkOracle (fun _ _ => true) (fun _ => false)
                   (fun _ => false) (fun _ => false) (fun _ => true)
                   (fun _ => false))
                calm 0 1 0%nat 1%nat Part000.initial
                [] (Part000.mkState [] [] ["a"]) ErrDriverCreate
                [NewClient 0]
                (snd (fst (Part000.attempt calm 1 1 "a"
                             (Part000.forget "a"
                                (Part000.mkState [] [] ["a"])))))
                0%nat eq_refl) as (c & Hl & Hs);
      [discriminate | reflexivity |].
    change (status <$> (snd <$> Part000.lookup "a"
              (snd (fst (Part000.attempt calm 1 1 "a"
                           (Part000.forget "a"
                              (Part000.mkState [] [] ["a"]))))))
            = Some resuming).
    rewrite Hl. simpl. now rewrite Hs.
  - destruct (proj1 (proj2 (retry_starts_resuming "a"))
                (mkOracle (fun _ _ => false) (fun _ => false)
                   (fun _ => false) (fun _ => false) (fun _ => true)
                   (fun _ => true))
                calm 0 1 0%nat 1%nat Part000.initial
                [] Part000.initial
                [NewClient 0]
                (snd (fst (Part000.attempt calm 1 1 "a"
                             (Part000.forget "a" Part000.initial))))
                0%nat eq_refl eq_refl) as (c & Hl & Hs).
    change (status <$> (snd <$> Part000.lookup "a"
              (snd (fst (Part000.attempt calm 1 1 "a"
                           (Part000.forget "a" Part000.initial)))))
            = Some initializing).
    rewrite Hl. simpl. now rewrite Hs.
Defined.

(** ** The initialization deadline *)

Lemma Main2_cleanupSession_destroys W now uid s id :
  map_get uid (Main2.activeClients s) = Some id ->
  destroy_throws W id = false ->
  Main2.heap (Main2.cleanupSession W now uid s) !! id
  = set_destroyed <$> Main2.heap s !! id.
Proof.
  intros Hget Hd. unfold Main2.cleanupSession. rewrite Hget, Hd.
  assert (Hp : forall b : bool,
             Main2.heap (if b then Main2.preserveSession W now uid id s else s)
             = Main2.heap s).
  { intros []; [|reflexivity]. unfold Main2.preserveSession.
    now destruct (page_ok W id). }
  cbn [Main2.heap Main2.with_active Main2.update Main2.with_heap].
  rewrite Hp. apply list_lookup_alter_eq.
Qed.

Lemma Part000_cleanupSession_destroys W uid s id :
  map_get uid (Part000.activeClients s) = Some id ->
  destroy_throws W id = false ->
  Part000.heap (Part000.cleanupSession W uid s) !! id
  = set_destroyed <$> Part000.heap s !! id.
Proof.
  intros Hget Hd. unfold Part000.cleanupSession. rewrite Hget, Hd.
  cbn [Part000.heap Part000.with_active Part000.update Part000.with_heap].
  apply list_lookup_alter_eq.
Qed.

(** The callback of the initialization timer closes over the uid, not
    over the client it was armed for: when it fires it calls
    [cleanupSession(uid)], which tears down whatever record the tenant
    has at that moment.  In [main2.js] and in the first unnamed source,
    when the timer of the client [id] fires, its tenant has no registry
    entry afterwards, and the client [id'] registered for the tenant just
    before, be it a later one and READY, has been destroyed (when its
    [destroy] does not fail). *)
Theorem deadline_tears_down_by_uid W now id id' c :
  initTimeout c = true ->
  destroy_throws W id' = false ->
  (forall s,
     Main2.heap s !! id = Some c ->
     map_get (owner c) (Main2.activeClients s) = Some id' ->
     is_Some (Main2.heap s !! id') ->
     let s' := Main2.on_initTimeout W now id s in
     map_get (owner c) (Main2.activeClients s') = None /\
     destroyed <$> Main2.heap s' !! id' = Some true) /\
  (forall s,
     Part000.heap s !! id = Some c ->
     map_get (owner c) (Part000.activeClients s) = Some id' ->
     is_Some (Part000.heap s !! id') ->
     let s' := Part000.on_initTimeout W id s in
     map_get (owner c) (Part000.activeClients s') = None /\
     destroyed <$> Part000.heap s' !! id' = Some true).
Proof.
  intros Ht Hd. split; intros s Hc Hget [c' Hc'] s'; subst s'.
  - unfold Main2.on_initTimeout. rewrite Hc, Ht. split.
    + rewrite Main2_cleanupSession_active. apply map_get_delete_eq.
    + rewrite (Main2_cleanupSession_destroys W now (owner c) _ id')
        by assumption.
      cbn [Main2.heap Main2.update Main2.with_heap].
      destruct (decide (id = id')) as [->|Hne].
      * rewrite list_lookup_alter_eq, Hc'. reflexivity.
      * rewrite list_lookup_alter_ne, Hc' by exact Hne. reflexivity.
  - unfold Part000.on_initTimeout. rewrite Hc, Ht. split.
    + rewrite Part000_cleanupSession_active. apply map_get_delete_eq.
    + rewrite (Part000_cleanupSession_destroys W (owner c) _ id')
        by assumption.
      cbn [Part000.heap Part000.update Part000.with_heap].
      destruct (decide (id = id')) as [->|Hne].
      * rewrite list_lookup_alter_eq, Hc'. reflexivity.
      * rewrite list_lookup_alter_ne, Hc' by exact Hne. reflexivity.
Qed.

Lemma deadline_tears_down_by_uid_witness :
  let s := Main2.run [(calm, 0, Main2.ReqInit (Some "Bearer a"));
                      (calm, 1, Main2.EvDisconnected 0);
                      (calm, 2, Main2.ReqInit (Some "Bearer a"));
                      (calm, 3, Main2.EvReady 1)] Main2.initial in
  status <$> (snd <$> Main2.lookup "a" s) = Some ready /\
  map_get "a" (Main2.activeClients s) = Some 1%nat /\
  map_get "a" (Main2.activeClients (Main2.on_initTimeout calm 45000 0 s))
  = None /\
  destroyed <$> Main2.heap (Main2.on_initTimeout calm 45000 0 s) !! 1%nat
  = Some true.
Proof.
  cbv zeta. split; [reflexivity|]. split; [reflexivity|].
  apply (proj1 (deadline_tears_down_by_uid calm 45000 0 1
                  (mkClient "a" disconnected None 0 (Some Pending) true true)
                  eq_refl eq_refl)).
  - reflexivity.
  - reflexivity.
  - eexists. reflexivity.
Defined.

(** ** The pool limit of the second unnamed source *)

Lemma Part001_loadSession_same W uid s :
  Part001.heap (snd (Part001.loadSession W uid s)) = Part001.heap s /\
  Part001.activeClients (snd (Part001.loadSession W uid s))
  = Part001.activeClients s /\
  Part001.clientPool (snd (Part001.loadSession W uid s))
  = Part001.clientPool s.
Proof.
  unfold Part001.loadSession. destruct (fs_throws W uid); [now repeat split|].
  destruct (map_get uid (Part001.sessionFiles s)); now repeat split.
Qed.

Lemma Part001_getClientInstance_pool s :
  length (Part001.clientPool (snd (Part001.getClientInstance s)))
  = Nat.max 1 (length (Part001.clientPool s)).
Proof.
  unfold Part001.getClientInstance.
  destruct (Part001.clientPool s) as [|e pool] eqn:Ep; [reflexivity|].
  destruct (fst (fold_left Part001.less_busy (e :: pool) (None, None)))
    as [i|] eqn:E.
  - cbn [snd]. rewrite Ep. simpl. now destruct (length pool).
  - exfalso. simpl in E. now apply Part001_less_busy_some in E.
Qed.

Lemma Part001_pool_remove_length uid pool :
  length (Part001.pool_remove uid pool) = length pool.
Proof.
  induction pool as [|[i users] pool IH]; simpl; [reflexivity|].
  destruct (Part001.has uid users); simpl; congruence.
Qed.

Lemma Part001_pool_add_length i uid pool :
  length (Part001.pool_add i uid pool) = length pool.
Proof.
  induction pool as [|[k users] pool IH]; simpl; [reflexivity|].
  destruct (Nat.eqb k i); simpl; congruence.
Qed.

Lemma Part001_build_pool W now rc uid s :
  length (Part001.clientPool (snd (fst (Part001.build W now rc uid s))))
  = Nat.max 1 (length (Part001.clientPool s)) /\
  snd (Part001.build W now rc uid s) <> AThrow ErrNoInstance.
Proof.
  unfold Part001.build.
  destruct (Part001_loadSession_same W uid s) as (_ & _ & Hp).
  destruct (Part001.loadSession W uid s) as [saved s1]. cbn [snd] in Hp.
  pose proof (Part001_getClientInstance_pool s1) as Hg. rewrite Hp in Hg.
  destruct (Part001_getClientInstance_some s1) as (i & s2 & Heq & _ & _).
  rewrite Heq in *. cbn [snd] in Hg.
  destruct (fs_throws W uid); [now split|].
  destruct (create_throws W uid rc); [now split|].
  destruct (initialize_throws W _); now split.
Qed.

(** In the second unnamed source MAX_INSTANCES limits nothing.
    [getClientInstance] makes an instance only for an empty pool, so the
    pool holds one instance from the first call on (no handler adds or
    drops one), every tenant shares it, and [initializeClient] never
    throws 'No available client instances'; a new tenant whose driver
    starts is registered whatever the size of the registry. *)
Theorem pool_never_refuses W now retryCount uid s :
  snd (Part001.attempt W now retryCount uid s) <> AThrow ErrNoInstance /\
  ((length (Part001.clientPool s) <= 1)%nat ->
   (length (Part001.clientPool
              (snd (fst (Part001.attempt W now retryCount uid s)))) <= 1)%nat /\
   (length (Part001.clientPool (Part001.cleanupSession W now uid s)) <= 1)%nat /\
   (forall id,
      length (Part001.clientPool (Part001.on_ready now id s)) <= 1)%nat) /\
  (map_get uid (Part001.activeClients s) = None ->
   fs_throws W uid = false ->
   create_throws W uid retryCount = false ->
   length (Part001.activeClients
             (snd (fst (Part001.attempt W now retryCount uid s))))
   = S (length (Part001.activeClients s))).
Proof.
  pose proof (Part001_build_pool W now retryCount uid s) as [Hpool Herr].
  assert (Hat : Part001.attempt W now retryCount uid s
                = Part001.build W now retryCount uid s \/
                exists id, Part001.attempt W now retryCount uid s
                           = ([], s, AReturn id)).
  { unfold Part001.attempt.
    destruct (Part001.lookup uid s) as [[id c]|]; [|now left].
    destruct (Status_eqb (status c) ready); [right; now exists id | now left]. }
  split; [|split].
  - destruct Hat as [-> | [id ->]]; [exact Herr | discriminate].
  - intros Hone. split; [|split].
    + destruct Hat as [-> | [id ->]]; [rewrite Hpool; lia | exact Hone].
    + unfold Part001.cleanupSession.
      destruct (map_get uid (Part001.activeClients s)) as [id|];
        [|exact Hone].
      assert (Hs : Part001.clientPool (Part001.saveSession W now uid s)
                   = Part001.clientPool s).
      { unfold Part001.saveSession.
        destruct (map_get uid (Part001.activeClients s)); [|reflexivity].
        now destruct (fs_throws W uid). }
      destruct (destroy_throws W id); simpl;
        now rewrite Part001_pool_remove_length, Hs.
    + intros id. unfold Part001.on_ready.
      destruct (Part001.heap s !! id) as [[c i]|]; [|exact Hone].
      simpl. now rewrite Part001_pool_add_length.
  - intros Habs Hfs Hcreate.
    assert (Ha : Part001.attempt W now retryCount uid s
                 = Part001.build W now retryCount uid s).
    { unfold Part001.attempt. now rewrite Part001_lookup_absent. }
    rewrite Ha. unfold Part001.build.
    destruct (Part001_loadSession_same W uid s) as (_ & Hact & _).
    destruct (Part001.loadSession W uid s) as [saved s1]. cbn [snd] in Hact.
    destruct (Part001_getClientInstance_some s1) as (i & s2 & -> & _ & Ha2).
    rewrite Hfs, Hcreate.
    assert (Hlen : length (map_set uid (length (Part001.heap s2))
                             (Part001.activeClients s2))
                   = S (length (Part001.activeClients s))).
    { rewrite length_map_set, Ha2, Hact, Habs. reflexivity. }
    destruct (initialize_throws W _); exact Hlen.
Qed.

Lemma pool_never_refuses_witness :
  let s := snd (fst (Part001.attempt calm 2 0 "c"
             (snd (fst (Part001.attempt calm 1 0 "b"
                (snd (fst (Part001.attempt calm 0 0 "a"
                             Part001.initial)))))))) in
  length (Part001.activeClients s) = 3%nat /\
  (length (Part001.clientPool s) <= 1)%nat.
Proof.
  cbv zeta. split.
  - apply (proj2 (proj2 (pool_never_refuses calm 2 0 "c"
             (snd (fst (Part001.attempt calm 1 0 "b"
                (snd (fst (Part001.attempt calm 0 0 "a"
                             Part001.initial)))))))));
      reflexivity.
  - apply (proj1 (proj2 (pool_never_refuses calm 2 0 "c"
             (snd (fst (Part001.attempt calm 1 0 "b"
                (snd (fst (Part001.attempt calm 0 0 "a"
                             Part001.initial))))))))).
    simpl. lia.
Defined.

(** ** [/client-status] of the second unnamed source *)

(** [userSessions] is written by [saveSession] and never cleared, so once
    a tenant's record has been torn down with its session saved,
    [/client-status] reports 'inactive' (not 'disconnected', the answer
    [/disconnect] has just given), with the time of the teardown as
    [lastActivity] and [authenticated] telling whether the record was
    READY. *)
Theorem status_after_teardown W now uid s id c instance :
  map_get uid (Part001.activeClients s) = Some id ->
  Part001.heap s !! id = Some (c, instance) ->
  fs_throws W uid = false ->
  Part001.client_status uid (snd (Part001.disconnect W now uid s))
  = Part001.Report None None (Some now) (Status_eqb (status c) ready).
Proof.
  intros Hget Hcell Hfs. unfold Part001.disconnect. cbn [snd].
  assert (Hl : Part001.lookup uid (Part001.cleanupSession W now uid s) = None).
  { apply Part001_lookup_absent. rewrite Part001_cleanupSession_active.
    apply map_get_delete_eq. }
  assert (Hu : map_get uid (Part001.userSessions
                              (Part001.cleanupSession W now uid s))
               = Some (Part001.mkSession now (Status_eqb (status c) ready))).
  { unfold Part001.cleanupSession, Part001.saveSession.
    rewrite Hget, Hfs, Hcell.
    destruct (destroy_throws W id); simpl; apply map_get_set_eq. }
  unfold Part001.client_status. now rewrite Hl, Hu.
Qed.

Lemma status_after_teardown_witness :
  let s := Part001.on_ready 5 0
             (snd (fst (Part001.initializeClient calm (fun _ => 0) "a"
                          Part001.initial))) in
  Part001.client_status "a" s
  = Part001.Report (Some ready) None (Some 5) false /\
  Part001.client_status "a" (snd (Part001.disconnect calm 9 "a" s))
  = Part001.Report None None (Some 9) true /\
  Part001.client_status "b" s = Part001.NoClient.
Proof.
  cbv zeta. split; [reflexivity|]. split; [|reflexivity].
  exact (status_after_teardown calm 9 "a"
           (Part001.on_ready 5 0
              (snd (fst (Part001.initializeClient calm (fun _ => 0) "a"
                           Part001.initial))))
           0%nat
           (mkClient "a" ready None 5 (Some Resolved) false false) 0%nat
           eq_refl eq_refl eq_refl).
Defined.

(** ** The session store of [main2.js] *)

Lemma remembers_refl s : remembers s s.
Proof. now intros uid H. Qed.

Lemma remembers_trans s1 s2 s3 :
  remembers s1 s2 -> remembers s2 s3 -> remembers s1 s3.
Proof. intros H12 H23 uid H. now apply H23, H12. Qed.

Lemma remembers_same s s' :
  Main2.sessionStore s' = Main2.sessionStore s -> remembers s s'.
Proof. intros Heq uid H. now rewrite Heq. Qed.

Lemma remembers_preserveSession W now uid id s :
  remembers s (Main2.preserveSession W now uid id s).
Proof.
  unfold Main2.preserveSession.
  destruct (page_ok W id); [|apply remembers_refl].
  intros u H. simpl. destruct (String.eqb uid u) eqn:E.
  - apply String.eqb_eq in E as ->. now rewrite map_get_set_eq.
  - apply String.eqb_neq in E. now rewrite map_get_set_ne.
Qed.

Lemma remembers_update id f s : remembers s (Main2.update id f s).
Proof. now apply remembers_same. Qed.

Lemma remembers_via s1 s2 s3 :
  remembers s2 s3 -> remembers s1 s2 -> remembers s1 s3.
Proof. eauto using remembers_trans. Qed.

Lemma remembers_cleanupSession W now uid s :
  remembers s (Main2.cleanupSession W now uid s).
Proof.
  unfold Main2.cleanupSession.
  destruct (map_get uid (Main2.activeClients s)) as [id|];
    [|apply remembers_refl].
  assert (H1 : remembers s
            (if status_is ready (Main2.heap s !! id)
                || status_is authenticated (Main2.heap s !! id)
             then Main2.preserveSession W now uid id s else s)).
  { destruct (_ || _); [apply remembers_preserveSession|apply remembers_refl]. }
  eapply remembers_trans; [exact H1|].
  apply remembers_same. now destruct (destroy_throws W id).
Qed.

Create HintDb store.
#[local] Hint Resolve remembers_refl remembers_preserveSession
  remembers_update remembers_cleanupSession : store.

Lemma remembers_initializeClient W now uid s :
  remembers s (snd (Main2.initializeClient W now uid s)).
Proof.
  apply remembers_same. unfold Main2.initializeClient.
  destruct (Main2.initializeClient_check uid s); try reflexivity.
  unfold Main2.initializeClient_create.
  destruct (fs_throws W uid); [reflexivity|].
  destruct (create_throws W uid 0); [reflexivity|].
  now destruct (initialize_throws W _).
Qed.

Lemma remembers_send_resume W now uid v s :
  remembers s (snd (Main2.send_resume W now uid v s)).
Proof.
  unfold Main2.send_resume.
  destruct v as [id|e]; [|simpl; auto with store].
  destruct (Main2.heap s !! id) as [c|]; [|simpl; auto with store].
  destruct (Status_eqb (status c) ready); [|simpl; auto with store].
  destruct (sendMessage_throws W id); simpl; [auto with store|].
  eapply remembers_via; auto with store.
Qed.

Lemma remembers_send_message W now uid number message s :
  remembers s (snd (Main2.send_message W now uid number message s)).
Proof.
  unfold Main2.send_message.
  destruct number as [n|]; [|simpl; auto with store].
  pose proof (remembers_initializeClient W now uid s) as Hi.
  destruct (Main2.initializeClient W now uid s) as [[h|e] s1]; simpl in Hi.
  - destruct (Main2.await h s1) as [v|]; [|exact Hi].
    pose proof (remembers_send_resume W now uid v s1) as Hr.
    destruct (Main2.send_resume W now uid v s1) as [r s2]; simpl in *.
    eapply remembers_trans; eauto.
  - pose proof (remembers_send_resume W now uid (inr e) s1) as Hr.
    destruct (Main2.send_resume W now uid (inr e) s1) as [r s2]; simpl in *.
    eapply remembers_trans; eauto.
Qed.

Lemma remembers_init W now uid s :
  remembers s (snd (Main2.init W now uid s)).
Proof.
  unfold Main2.init. cbv zeta.
  pose proof (remembers_initializeClient W now uid s) as Hi.
  destruct (Main2.lookup uid s) as [[id c]|];
    [destruct (Status_eqb (status c) disconnected);
     [|apply remembers_refl]|];
    (destruct (Main2.initializeClient W now uid s) as [[h|e] s1];
     [destruct (Main2.await h s1)|]; exact Hi).
Qed.

Lemma remembers_disconnect W now uid s :
  remembers s (snd (Main2.disconnect W now uid s)).
Proof.
  unfold Main2.disconnect.
  destruct (map_get uid (Main2.activeClients s)) as [id|]; [|auto with store].
  destruct (destroy_throws W id); simpl; [auto with store|].
  eapply remembers_via; auto with store.
Qed.

Lemma remembers_preserve_session W now uid s :
  remembers s (snd (Main2.preserve_session W now uid s)).
Proof.
  unfold Main2.preserve_session.
  destruct (Main2.lookup uid s) as [[id c]|]; [|auto with store].
  destruct (Status_eqb (status c) ready); simpl; auto with store.
Qed.

Lemma remembers_events W now id s :
  (forall u, remembers s (Main2.on_qr id u s)) /\
  remembers s (Main2.on_authenticated W now id s) /\
  remembers s (Main2.on_ready now id s) /\
  remembers s (Main2.on_disconnected W now id s) /\
  remembers s (Main2.on_initTimeout W now id s).
Proof.
  unfold Main2.on_qr, Main2.on_authenticated, Main2.on_ready,
    Main2.on_disconnected, Main2.on_initTimeout.
  repeat split.
  - intros [u|]; auto with store.
  - destruct (Main2.heap s !! id); [|auto with store].
    eapply remembers_via; auto with store.
  - auto with store.
  - destruct (Main2.heap s !! id); [|auto with store].
    eapply remembers_via; [auto with store|].
    eapply remembers_via; auto with store.
  - destruct (Main2.heap s !! id) as [c|]; [|auto with store].
    destruct (initTimeout c); [|auto with store].
    eapply remembers_via; auto with store.
Qed.

Lemma remembers_fold (f : Main2.state -> string * nat -> Main2.state) l :
  (forall s e, remembers s (f s e)) -> forall s, remembers s (fold_left f l s).
Proof.
  intros Hf. induction l as [|e l IH]; intros s; simpl;
    [apply remembers_refl|].
  eapply remembers_trans; [apply Hf | apply IH].
Qed.

Lemma remembers_sweep W now s : remembers s (Main2.sweep W now s).
Proof.
  apply remembers_fold. intros s0 e. unfold Main2.sweep_entry.
  destruct (Main2.heap s0 !! snd e) as [c|]; [|auto with store].
  destruct (_ >? _); auto with store.
Qed.

Lemma remembers_shutdown W now s : remembers s (Main2.shutdown W now s).
Proof. apply remembers_fold. intros. auto with store. Qed.

Lemma remembers_processQueue_loop W now fuel : forall s,
  remembers s (snd (fst (Main2.processQueue_loop W now fuel s))).
Proof.
  induction fuel as [|fuel IH]; intros s; simpl; [apply remembers_refl|].
  destruct (Main2.CONNECTION_QUEUE s) as [|[uid q] rest];
    [now apply remembers_same|].
  assert (Hslot : match Main2.make_room W now s with
                  | Some (_, s1) => remembers s s1
                  | None => True
                  end).
  { unfold Main2.make_room.
    destruct (MAX_INSTANCES <=? _)%nat; [|apply remembers_refl].
    destruct (Main2.recyclable now s); [|exact I]. auto with store. }
  destruct (Main2.make_room W now s) as [[evs s1]|];
    [|now apply remembers_same].
  pose proof (remembers_initializeClient W now uid (Main2.with_queue rest s1))
    as Hi.
  destruct (Main2.initializeClient W now uid (Main2.with_queue rest s1))
    as [r s2]; simpl in Hi.
  assert (H2 : remembers s s2).
  { eapply remembers_trans; [exact Hslot|].
    eapply remembers_trans; [|exact Hi]. now apply remembers_same. }
  specialize (IH s2).
  destruct (Main2.processQueue_loop W now fuel s2) as [[evs' s3] e].
  simpl in IH.
  assert (H3 : remembers s s3) by (eapply remembers_trans; eauto).
  destruct r as [h|e0]; [|exact H3].
  destruct (Main2.await h s2) as [[id|e1]|]; [exact H3 | exact H3 | exact H2].
Qed.

Lemma remembers_step W now op s : remembers s (Main2.step W now op s).
Proof.
  destruct op; simpl;
    unfold Main2.route_init, Main2.route_send, Main2.route_disconnect,
      Main2.route_preserve, Main2.guarded;
    try (destruct (authMiddleware authorization) as [uid|];
         [|apply remembers_refl]).
  - apply remembers_init.
  - apply remembers_send_message.
  - apply remembers_disconnect.
  - apply remembers_preserve_session.
  - apply remembers_send_resume.
  - apply (remembers_events W now id s).
  - apply (remembers_events W now id s).
  - apply (remembers_events W now id s).
  - apply (remembers_events W now id s).
  - apply (remembers_events W now id s).
  - unfold Main2.processQueue.
    destruct (_ || _); [apply remembers_refl|].
    eapply remembers_trans; [|apply remembers_processQueue_loop].
    now apply remembers_same.
  - unfold Main2.processQueue_resume.
    pose proof (remembers_processQueue_loop W now
                  (S (length (Main2.CONNECTION_QUEUE s))) s) as H.
    now destruct (Main2.processQueue_loop W now _ s) as [[evs s1] e].
  - apply remembers_sweep.
  - apply remembers_shutdown.
Qed.

(** [sessionStore] of [main2.js] is only ever written with
    [sessionStore.set]: no request, driver event, timer, queue pass,
    sweep or shutdown removes an entry.  A tenant whose session was
    preserved once keeps an entry for the life of the process, also after
    its record was torn down; and [/preserve-session] for a READY record
    answers success whether or not the page could be read, writing the
    entry only when it could. *)
Theorem session_store_never_forgets tr s uid :
  (map_get uid (Main2.sessionStore s) <> None ->
   map_get uid (Main2.sessionStore (Main2.run tr s)) <> None) /\
  (forall W now id c,
     Main2.lookup uid s = Some (id, c) -> status c = ready ->
     fst (Main2.preserve_session W now uid s) = PreserveOk /\
     map_get uid (Main2.sessionStore
                    (snd (Main2.preserve_session W now uid s)))
     = if page_ok W id then Some now else map_get uid (Main2.sessionStore s)).
Proof.
  split.
  - revert s. induction tr as [|[[W now] op] tr IH]; intros s H;
      [exact H|].
    simpl. apply IH. now apply (remembers_step W now op s).
  - intros W now id c Hl Hr. unfold Main2.preserve_session.
    rewrite Hl, Hr. simpl. unfold Main2.preserveSession.
    destruct (page_ok W id); [|now split].
    simpl. split; [reflexivity|apply map_get_set_eq].
Qed.

Lemma session_store_never_forgets_witness :
  let s := Main2.run [(calm, 0, Main2.ReqInit (Some "Bearer a"));
                      (calm, 1, Main2.EvReady 0);
                      (calm, 2, Main2.ReqPreserve (Some "Bearer a"))]
                     Main2.initial in
  map_get "a" (Main2.sessionStore s) = Some 2 /\
  map_get "a" (Main2.sessionStore
                 (Main2.run [(calm, 3, Main2.ReqDisconnect (Some "Bearer a"));
                             (calm, 400000, Main2.TickSweep);
                             (calm, 400001, Main2.Shutdown)] s)) <> None.
Proof.
  cbv zeta. split; [reflexivity|].
  apply (proj1 (session_store_never_forgets _ _ "a")).
  discriminate.
Defined.

(** ** A start that fails in the third unnamed source *)

Lemma existsb_filter_ne uid u (l : list string) :
  u <> uid ->
  existsb (String.eqb u) (List.filter (fun d => negb (String.eqb d uid)) l)
  = existsb (String.eqb u) l.
Proof.
  intros Hne. induction l as [|d l IH]; simpl; [reflexivity|].
  destruct (String.eqb d uid) eqn:E; simpl.
  - apply String.eqb_eq in E. subst d.
    apply String.eqb_neq in Hne. now rewrite Hne.
  - now rewrite IH.
Qed.

Lemma existsb_filter_eq uid (l : list string) :
  existsb (String.eqb uid) (List.filter (fun d => negb (String.eqb d uid)) l)
  = false.
Proof.
  induction l as [|d l IH]; simpl; [reflexivity|].
  destruct (String.eqb d uid) eqn:E; simpl; [exact IH|].
  rewrite String.eqb_sym, E. exact IH.
Qed.

Lemma Part002_pathExists_ensureDir uid u s :
  Part002.pathExists u (Part002.ensureDir uid s)
  = String.eqb u uid || Part002.pathExists u s.
Proof.
  unfold Part002.ensureDir. destruct (Part002.pathExists uid s) eqn:E.
  - destruct (String.eqb u uid) eqn:Eu; [|reflexivity].
    apply String.eqb_eq in Eu. subst u. now rewrite E.
  - unfold Part002.pathExists. simpl. rewrite existsb_app. simpl.
    rewrite orb_false_r. apply orb_comm.
Qed.

(** In the third unnamed source a start that fails wipes the tenant: when
    [client.initialize()] rejects, [initializeClient] calls
    [cleanupSession], which removes the record just registered and the
    tenant's session directory, also one that held an earlier login.  The
    registry entries of the other tenants are left alone. *)
Theorem failed_start_wipes_session W now uid s :
  fs_throws W uid = false ->
  create_throws W uid 0 = false ->
  initialize_throws W (length (Part002.heap s)) = true ->
  let '(r, s') := Part002.initializeClient W now uid s in
  r = inr ErrDriverInitialize /\
  map_get uid (Part002.activeClients s') = None /\
  Part002.pathExists uid s' = false /\
  forall u, u <> uid ->
    map_get u (Part002.activeClients s') = map_get u (Part002.activeClients s).
Proof.
  intros Hfs Hcreate Hinit. unfold Part002.initializeClient.
  rewrite Hfs, andb_false_r, Hcreate.
  assert (Hh : Part002.heap (Part002.ensureDir uid s) = Part002.heap s).
  { unfold Part002.ensureDir. now destruct (Part002.pathExists uid s). }
  assert (Ha : Part002.activeClients (Part002.ensureDir uid s)
               = Part002.activeClients s).
  { unfold Part002.ensureDir. now destruct (Part002.pathExists uid s). }
  cbv zeta. rewrite Hh, Hinit. split; [reflexivity|].
  unfold Part002.cleanupSession.
  assert (Hp : Part002.pathExists uid
            (Part002.with_active
               (map_set uid (length (Part002.heap s))
                  (Part002.activeClients (Part002.ensureDir uid s)))
               (Part002.with_heap
                  (Part002.heap s ++
                   [mkClient uid initializing None now None false false])%list
                  (Part002.ensureDir uid s))) = true).
  { change (Part002.pathExists uid (Part002.ensureDir uid s) = true).
    now rewrite Part002_pathExists_ensureDir, String.eqb_refl. }
  rewrite Hp, Hfs.
  cbn [Part002.activeClients Part002.with_active Part002.with_dirs
       Part002.with_heap Part002.sessionDirs].
  split; [apply map_get_delete_eq|]. split.
  - unfold Part002.pathExists.
    cbn [Part002.sessionDirs Part002.with_active Part002.with_dirs
         Part002.with_heap].
    apply existsb_filter_eq.
  - intros u Hne.
    rewrite map_get_delete_ne, map_get_set_ne, Ha by congruence.
    reflexivity.
Qed.

Lemma failed_start_wipes_session_witness :
  let W := mkOracle (fun _ _ => false) (fun id => Nat.eqb id 1)
                    (fun _ => false) (fun _ => false) (fun _ => true)
                    (fun _ => false) in
  let s := Part002.on_disconnected
             (mkOracle (fun _ _ => false) (fun _ => false) (fun _ => false)
                (fun _ => false) (fun _ => true) (fun _ => true)) 0
             (snd (Part002.initializeClient calm 0 "a" Part002.initial)) in
  Part002.sessionDirs s = ["a"] /\
  fst (Part002.init W 9 "a" s) = InitFailed ErrDriverInitialize /\
  Part002.pathExists "a" (snd (Part002.initializeClient W 9 "a" s)) = false.
Proof.
  cbv zeta. split; [reflexivity|]. split; [reflexivity|].
  pose proof (failed_start_wipes_session
    (mkOracle (fun _ _ => false) (fun id => Nat.eqb id 1)
              (fun _ => false) (fun _ => false) (fun _ => true)
              (fun _ => false)) 9 "a"
    (Part002.on_disconnected
             (mkOracle (fun _ _ => false) (fun _ => false) (fun _ => false)
                (fun _ => false) (fun _ => true) (fun _ => true)) 0
       (snd (Part002.initializeClient calm 0 "a" Part002.initial)))
    eq_refl eq_refl eq_refl) as H.
  destruct (Part002.initializeClient _ 9 "a" _) as [r s'].
  now destruct H as (_ & _ & H & _).
Defined.

(** ** The inactivity sweep of the third unnamed source *)

Lemma Part002_cleanupSession_other W uid s e :
  In e (Part002.activeClients s) ->
  Part002.pathExists (fst e) s = true ->
  fs_throws W (fst e) = true ->
  In e (Part002.activeClients (Part002.cleanupSession W uid s)) /\
  Part002.pathExists (fst e) (Part002.cleanupSession W uid s) = true.
Proof.
  intros He Hp Hfs. destruct (String.eqb (fst e) uid) eqn:E.
  - apply String.eqb_eq in E. subst uid.
    unfold Part002.cleanupSession. rewrite Hp, Hfs. now split.
  - apply String.eqb_neq in E.
    split; [now apply Part002_cleanupSession_keeps|].
    unfold Part002.cleanupSession.
    destruct (Part002.pathExists uid s); [|exact Hp].
    destruct (fs_throws W uid); [exact Hp|].
    unfold Part002.pathExists.
    cbn [Part002.sessionDirs Part002.with_active Part002.with_dirs].
    rewrite existsb_filter_ne by exact E. exact Hp.
Qed.

Lemma Part002_sweep_keeps W now e l : forall s,
  In e (Part002.activeClients s) ->
  Part002.pathExists (fst e) s = true ->
  fs_throws W (fst e) = true ->
  In e (Part002.activeClients (fold_left (Part002.sweep_entry W now) l s)).
Proof.
  induction l as [|a l IH]; intros s He Hp Hfs; simpl; [exact He|].
  unfold Part002.sweep_entry at 2.
  destruct (Part002.heap s !! snd a) as [c|]; [|now apply IH].
  destruct (now - lastActivity c >? Part002.inactivityThreshold);
    [|now apply IH].
  destruct (Part002_cleanupSession_other W (fst a) s e He Hp Hfs).
  now apply IH.
Qed.

(** The interval of the third unnamed source (threshold one hour).  With
    a working file system a tick removes from the registry exactly the
    records idle for more than the threshold, whatever their status.  A
    record whose session directory cannot be removed is never swept: it
    stays registered however long it has been idle. *)
Theorem sweep_part002 W now s :
  ((forall uid, fs_throws W uid = false) ->
   NoDup (map fst (Part002.activeClients s)) ->
   Part002.activeClients (Part002.sweep W now s)
   = List.filter
       (fun e => negb (stale Part002.inactivityThreshold now
                             (Part002.heap s) e))
       (Part002.activeClients s)) /\
  (forall e, In e (Part002.activeClients s) ->
             Part002.pathExists (fst e) s = true ->
             fs_throws W (fst e) = true ->
             In e (Part002.activeClients (Part002.sweep W now s))).
Proof.
  split.
  - intros Hfs Hnd.
    apply (sweep_filter Part002.activeClients Part002.heap
             (Part002.cleanupSession W) Part002.inactivityThreshold now);
      [| |exact Hnd].
    + intros u s0. rewrite Part002_cleanupSession_active, Hfs.
      now rewrite andb_false_r.
    + intros u s0 i. unfold Part002.cleanupSession.
      now destruct (Part002.pathExists u s0), (fs_throws W u).
  - intros e He Hp Hfs. now apply Part002_sweep_keeps.
Qed.

Lemma sweep_part002_witness :
  let s := Part002.on_ready 10 1
             (snd (Part002.initializeClient calm 5 "b"
                (snd (Part002.initializeClient calm 0 "a" Part002.initial)))) in
  Part002.activeClients (Part002.sweep calm 3600005 s) = [("b", 1%nat)] /\
  In ("a", 0%nat)
     (Part002.activeClients
        (Part002.sweep
           (mkOracle (fun _ _ => false) (fun _ => false) (fun _ => false)
                     (fun _ => false) (fun _ => true) (fun _ => true))
           3600005 s)).
Proof.
  cbv zeta. split.
  - assert (H : NoDup ["a"; "b"]).
    { repeat constructor; rewrite list_elem_of_In; simpl;
        intuition discriminate. }
    exact (proj1 (sweep_part002 calm 3600005
             (Part002.on_ready 10 1
                (snd (Part002.initializeClient calm 5 "b"
                   (snd (Part002.initializeClient calm 0 "a"
                           Part002.initial))))))
             (fun _ => eq_refl) H).
  - apply (proj2 (sweep_part002 _ 3600005 _) ("a", 0%nat));
      [now left | reflexivity | reflexivity].
Defined.

(** ** Sending and the sweep in [main2.js] *)

Lemma map_get_In {V} k (v : V) m : map_get k m = Some v -> In (k, v) m.
Proof.
  induction m as [|[k' v'] m IH]; simpl; [discriminate|].
  destruct (String.eqb k' k) eqn:E.
  - apply String.eqb_eq in E. intros [= ->]. left. now subst.
  - intros H. right. now apply IH.
Qed.

Lemma map_get_filter {V} (p : string * V -> bool) k v m :
  map_get k m = Some v ->
  (forall e, In e m -> fst e = k -> p e = true) ->
  map_get k (List.filter p m) = Some v.
Proof.
  induction m as [|[k' v'] m IH]; simpl; [discriminate|].
  intros Hget Hp. destruct (String.eqb k' k) eqn:E.
  - rewrite (Hp (k', v') (or_introl eq_refl))
      by (now apply String.eqb_eq in E).
    simpl. now rewrite E.
  - assert (IH' : map_get k (List.filter p m) = Some v).
    { apply IH; [exact Hget|]. intros e He. apply Hp. now right. }
    destruct (p (k', v')); [simpl; now rewrite E | exact IH'].
Qed.

(** A message sent keeps the tenant's record: [/send-message] on a READY
    record whose [sendMessage] succeeds answers success and sets
    [lastActivity] to the time of the send, so every sweep within
    INACTIVITY_TIMEOUT of it leaves the record registered. *)
Theorem send_postpones_sweep W W' now now' uid id c s :
  NoDup (map fst (Main2.activeClients s)) ->
  Main2.lookup uid s = Some (id, c) ->
  status c = ready ->
  sendMessage_throws W id = false ->
  now' - now <= INACTIVITY_TIMEOUT ->
  let '(r, s1) := Main2.send_resume W now uid (inl id) s in
  r = SendOk /\
  lastActivity <$> Main2.heap s1 !! id = Some now /\
  map_get uid (Main2.activeClients (Main2.sweep W' now' s1)) = Some id.
Proof.
  intros Hnd Hl Hr Hsend Hle.
  assert (Hget : map_get uid (Main2.activeClients s) = Some id /\
                 Main2.heap s !! id = Some c).
  { unfold Main2.lookup in Hl.
    destruct (map_get uid (Main2.activeClients s)) as [i|]; [|discriminate].
    destruct (Main2.heap s !! i) as [c0|] eqn:Ec; [|discriminate].
    injection Hl as -> ->. now split. }
  destruct Hget as [Hget Hc].
  unfold Main2.send_resume. rewrite Hc, Hr, Hsend. simpl Status_eqb. cbv iota.
  set (s1 := Main2.preserveSession W now uid id
               (Main2.update id (set_lastActivity now) s)).
  assert (Ha : Main2.activeClients s1 = Main2.activeClients s).
  { unfold s1. now rewrite Main2_preserveSession_active. }
  assert (Hh : Main2.heap s1 !! id = Some (set_lastActivity now c)).
  { unfold s1, Main2.preserveSession.
    destruct (page_ok W id); simpl; now rewrite list_lookup_alter_eq, Hc. }
  split; [reflexivity|]. split; [now rewrite Hh|].
  assert (Hsw : Main2.activeClients (Main2.sweep W' now' s1)
                = List.filter
                    (fun e => negb (stale INACTIVITY_TIMEOUT now'
                                          (Main2.heap s1) e))
                    (Main2.activeClients s1)).
  { apply (sweep_filter Main2.activeClients Main2.heap
             (Main2.cleanupSession W' now') INACTIVITY_TIMEOUT now');
      [| |now rewrite Ha].
    - intros. apply Main2_cleanupSession_active.
    - intros u s0 i.
      destruct (Main2_cleanupSession_cell W' now' u s0 i) as [-> | ->];
        [reflexivity | apply lastActivity_set_destroyed]. }
  rewrite Hsw, Ha. apply map_get_filter; [exact Hget|].
  intros e He Hk.
  assert (He' : e = (uid, id)).
  { apply (NoDup_keys_inj (Main2.activeClients s)); try assumption.
    now apply map_get_In. }
  subst e. unfold stale. cbn [snd]. rewrite Hh. cbn [lastActivity set_lastActivity].
  apply negb_true_iff. rewrite Z.gtb_ltb. apply Z.ltb_ge. exact Hle.
Qed.

Lemma send_postpones_sweep_witness :
  let s := Main2.run [(calm, 0, Main2.ReqInit (Some "Bearer a"));
                      (calm, 10, Main2.EvReady 0)] Main2.initial in
  let s1 := snd (Main2.send_resume calm 400000 "a" (inl 0%nat) s) in
  map_get "a" (Main2.activeClients (Main2.sweep calm 300011 s)) = None /\
  map_get "a" (Main2.activeClients (Main2.sweep calm 700000 s1))
  = Some 0%nat.
Proof.
  cbv zeta. split; [reflexivity|].
  assert (H : NoDup ["a"]).
  { repeat constructor. rewrite list_elem_of_In. simpl. intuition. }
  assert (Hle : 700000 - 400000 <= INACTIVITY_TIMEOUT)
    by (unfold INACTIVITY_TIMEOUT; lia).
  pose proof (send_postpones_sweep calm calm 400000 700000 "a" 0%nat
    (mkClient "a" ready None 10 (Some Resolved) false false)
    (Main2.run [(calm, 0, Main2.ReqInit (Some "Bearer a"));
                (calm, 10, Main2.EvReady 0)] Main2.initial)
    H eq_refl eq_refl eq_refl Hle) as Hs.
  destruct (Main2.send_resume calm 400000 "a" (inl 0%nat) _) as [r s1].
  now destruct Hs as (_ & _ & Hs).
Defined.
